(** * Offline submission queue and background synchronisation

    A shallow embedding of the offline queue of the data-collection
    application:

    - [offlineStorage] (src/lib/xmlParser.ts, lines 607-840): the IndexedDB
      database [data-collection-offline] with its object stores
      [submissions] and [formProgress];
    - [teableSync] (src/lib/xmlParser.ts, lines 452-606): the secondary push
      [syncSubmissionToTeable];
    - [backgroundSync] (src/lib/backgroundSync.ts): [syncPendingSubmissions]
      and [registerSyncListener];
    - [handleSubmit] of src/pages/FormCollect.tsx, with the autosave effect
      of that page, and [handleSync] of the field worker dashboard
      (src/public/sw.js, lines 474-494), with the render that offers it.

    Conventions.  [async] functions become state-passing functions over the
    local database and the remote table.  What the network answers is not
    decided by the program: it is read from an environment [Env], indexed by
    the number of remote writes issued so far.  JavaScript exceptions are
    explicit ([Completion], [Promise]).  IndexedDB requests are taken to
    succeed (no quota or corruption errors), so the [catch] of line 66 of
    backgroundSync.ts is never entered. *)

From Stdlib Require Import List String ZArith Lia Bool Sorted OrdersEx PeanoNat.
From Stdlib Require Import Ascii.
Import ListNotations.
Open Scope string_scope.

Set Implicit Arguments.

(** ** IndexedDB object stores *)

Module IDB.

(** JavaScript values that occur at the key paths of the database. *)
Inductive JsValue :=
| JsBoolean (b : bool)
| JsNumber (z : Z)
| JsString (s : string).

(** IndexedDB keys.  The standard's key types are number, date, string,
    binary and array; the database only meets numbers and strings. *)
Inductive IdbKey :=
| KeyNumber (z : Z)
| KeyString (s : string).

(** "Convert a value to a key" of the IndexedDB standard: a number or a
    string is a key, a boolean is not a valid key. *)
Definition convertValueToKey (v : JsValue) : option IdbKey :=
  match v with
  | JsNumber z => Some (KeyNumber z)
  | JsString s => Some (KeyString s)
  | JsBoolean _ => None
  end.

Definition key_eqb (a b : IdbKey) : bool :=
  match a, b with
  | KeyNumber x, KeyNumber y => Z.eqb x y
  | KeyString x, KeyString y => String.eqb x y
  | _, _ => false
  end.

Section ObjectStore.

Variable V : Type.

(** The records of an object store, in ascending order of their key
    (strings compare character by character, by code). *)
Definition store := list (string * V).

Definition keys (s : store) : list string := map fst s.
Definition records (s : store) : list V := map snd s.

Fixpoint get (k : string) (s : store) : option V :=
  match s with
  | [] => None
  | (k', v) :: rest => if String.eqb k k' then Some v else get k rest
  end.

Fixpoint insert (k : string) (v : V) (s : store) : store :=
  match s with
  | [] => [(k, v)]
  | (k', v') :: rest =>
      match String_as_OT.compare k k' with
      | Eq => (k, v) :: rest
      | Lt => (k, v) :: s
      | Gt => (k', v') :: insert k v rest
      end
  end.

(** [db.delete(store, key)]. *)
Fixpoint delete (k : string) (s : store) : store :=
  match s with
  | [] => []
  | (k', v) :: rest =>
      if String.eqb k k' then delete k rest else (k', v) :: delete k rest
  end.

(** An index over the store: the value at the index key path of each
    record.  A record whose value there is not a valid key is left out of
    the index.  [getAllFromIndex(store, index, query)] returns the records
    of the index whose key equals [query]; among equal index keys the
    records come in ascending order of their primary key. *)
Definition inIndex (indexPath : V -> JsValue) (query : IdbKey) (v : V) : bool :=
  match convertValueToKey (indexPath v) with
  | Some k => key_eqb k query
  | None => false
  end.

Definition getAllFromIndex (indexPath : V -> JsValue) (query : IdbKey)
           (s : store) : list V :=
  filter (inIndex indexPath query) (records s).

(** Keys strictly ascending. *)
Definition sorted (s : store) : Prop := StronglySorted String_as_OT.lt (keys s).

(** Records are stored under the string found at [keyPath]. *)
Variable keyPath : V -> string.

(** [db.put(store, value)]: add or replace the record under its key. *)
Definition put (v : V) (s : store) : store := insert (keyPath v) v s.

(** Well-formed stores: keys strictly ascending, every record stored under
    the key found at its key path. *)
Definition inline (s : store) : Prop := Forall (fun kv => fst kv = keyPath (snd kv)) s.
Definition wf (s : store) : Prop := sorted s /\ inline s.

End ObjectStore.

End IDB.

(** ** JavaScript values and control *)

Module JS.

(** [Json] of database.types.ts: the answers of a form. *)
#[local] Unset Elimination Schemes.
Inductive Json :=
| JNull
| JBool (b : bool)
| JNum (z : Z)
| JStr (s : string)
| JArr (items : list Json)
| JObj (fields : list (string * Json)).
#[local] Set Elimination Schemes.

(** A thrown value: whether it is [instanceof Error], and its [message]
    (the empty string when it has none). *)
Record Thrown := { instanceofError : bool; message : string }.

(** How a block of statements ends. *)
Inductive Completion :=
| Normal
| Continue
| Throw (e : Thrown).

(** A settled promise. *)
Inductive Promise (A : Type) :=
| Fulfilled (a : A)
| Rejected (e : Thrown).

Arguments Fulfilled {A} a.
Arguments Rejected {A} e.

(** [p.catch(handler)] for a handler that returns nothing. *)
Definition catch {A : Type} (p : Promise A) (handler : Thrown -> unit)
  : Promise (option A) :=
  match p with
  | Fulfilled a => Fulfilled (Some a)
  | Rejected e => match handler e with tt => Fulfilled None end
  end.

(** [x || 'Unknown error'] on a string: the empty string is falsy. *)
Definition orUnknown (m : string) : string :=
  if String.eqb m "" then "Unknown error" else m.

End JS.

(** ** offlineStorage: the local database *)

Module Submission.
Record t := {
  id : string;
  formId : string;
  userId : option string;
  data : JS.Json;
  createdAt : Z;
  synced : bool;
  syncAttempts : Z;
  lastSyncError : option string
}.
End Submission.

Module FormProgress.
Record t := {
  formId : string;
  data : JS.Json;
  lastSaved : Z
}.
End FormProgress.

Module Offline.

(** The object stores [submissions] (key path [id]) and [formProgress] (key
    path [formId]) created by [getDB]; the [forms] store plays no part in
    the queue and is left out. *)
Record DB := {
  submissions : IDB.store Submission.t;
  formProgress : IDB.store FormProgress.t
}.

Definition emptyDB : DB := {| submissions := []; formProgress := [] |}.

(** The indexes of [getDB]: [createIndex('by-form', 'formId')] and
    [createIndex('by-sync-status', 'synced')].  The value at [synced] is a
    JavaScript boolean: [queueSubmission] writes [false] and
    [markSubmissionSynced] writes [true]. *)
Definition by_form (s : Submission.t) : IDB.JsValue :=
  IDB.JsString (Submission.formId s).
Definition by_sync_status (s : Submission.t) : IDB.JsValue :=
  IDB.JsBoolean (Submission.synced s).

(** The argument of [queueSubmission], as [handleSubmit] builds it. *)
Record SubmissionRow := {
  row_id : string;
  form_id : string;
  user_id : option string;
  row_data : JS.Json
}.

(** The record [queueSubmission] builds; [now] is the value of
    [Date.now()]. *)
Definition queuedRecord (now : Z) (submission : SubmissionRow) : Submission.t :=
  {| Submission.id := row_id submission;
     Submission.formId := form_id submission;
     Submission.userId := user_id submission;
     Submission.data := row_data submission;
     Submission.createdAt := now;
     Submission.synced := false;
     Submission.syncAttempts := 0;
     Submission.lastSyncError := None |}.

Definition queueSubmission (now : Z) (submission : SubmissionRow) (db : DB) : DB :=
  {| submissions :=
       IDB.put Submission.id (queuedRecord now submission) (submissions db);
     formProgress := formProgress db |}.

(** [db.getAllFromIndex('submissions', 'by-sync-status', 0)]: the lookup
    asks for the number [0]. *)
Definition getPendingSubmissions (db : DB) : list Submission.t :=
  IDB.getAllFromIndex by_sync_status (IDB.KeyNumber 0) (submissions db).

(** [submission.synced = true]. *)
Definition markedSynced (s : Submission.t) : Submission.t :=
  {| Submission.id := Submission.id s;
     Submission.formId := Submission.formId s;
     Submission.userId := Submission.userId s;
     Submission.data := Submission.data s;
     Submission.createdAt := Submission.createdAt s;
     Submission.synced := true;
     Submission.syncAttempts := Submission.syncAttempts s;
     Submission.lastSyncError := Submission.lastSyncError s |}.

Definition markSubmissionSynced (submissionId : string) (db : DB) : DB :=
  match IDB.get submissionId (submissions db) with
  | Some submission =>
      {| submissions :=
           IDB.put Submission.id (markedSynced submission) (submissions db);
         formProgress := formProgress db |}
  | None => db
  end.

(** [submission.syncAttempts += 1; submission.lastSyncError = error]. *)
Definition failedOnce (error : string) (s : Submission.t) : Submission.t :=
  {| Submission.id := Submission.id s;
     Submission.formId := Submission.formId s;
     Submission.userId := Submission.userId s;
     Submission.data := Submission.data s;
     Submission.createdAt := Submission.createdAt s;
     Submission.synced := Submission.synced s;
     Submission.syncAttempts := Submission.syncAttempts s + 1;
     Submission.lastSyncError := Some error |}.

Definition updateSubmissionSyncError (submissionId : string) (error : string)
           (db : DB) : DB :=
  match IDB.get submissionId (submissions db) with
  | Some submission =>
      {| submissions :=
           IDB.put Submission.id (failedOnce error submission) (submissions db);
         formProgress := formProgress db |}
  | None => db
  end.

Definition deleteSubmission (submissionId : string) (db : DB) : DB :=
  {| submissions := IDB.delete submissionId (submissions db);
     formProgress := formProgress db |}.

Definition saveFormProgress (now : Z) (formId : string) (data : JS.Json)
           (db : DB) : DB :=
  {| submissions := submissions db;
     formProgress :=
       IDB.put FormProgress.formId
         {| FormProgress.formId := formId;
            FormProgress.data := data;
            FormProgress.lastSaved := now |}
         (formProgress db) |}.

Definition getFormProgress (formId : string) (db : DB) : option FormProgress.t :=
  IDB.get formId (formProgress db).

Definition clearFormProgress (formId : string) (db : DB) : DB :=
  {| submissions := submissions db;
     formProgress := IDB.delete formId (formProgress db) |}.

(** Databases the application can reach: both stores well formed. *)
Definition wf (db : DB) : Prop :=
  IDB.wf Submission.id (submissions db) /\
  IDB.wf FormProgress.formId (formProgress db).

(** Number of drafts stored for a form. *)
Definition draftCount (formId : string) (db : DB) : nat :=
  count_occ string_dec (IDB.keys (formProgress db)) formId.

(** Number of queued submissions. *)
Definition queueLength (db : DB) : nat := List.length (submissions db).

End Offline.

(** ** The remote [submissions] table *)

Module Remote.

(** The columns the queue and the Teable push read or write ([status] and
    [updated_at] are touched by neither). *)
Record Row := {
  id : string;
  form_id : string;
  user_id : option string;
  data : JS.Json;
  created_at : Z;
  synced_to_teable : bool;
  teable_record_id : option string;
  sync_error : option string
}.

(** The table, with [id] as its primary key. *)
Definition table := list Row.

Definition ids (t : table) : list string := map id t.

Definition find (i : string) (t : table) : option Row :=
  List.find (fun r => String.eqb (id r) i) t.

(** Number of rows bearing an identifier. *)
Definition countId (i : string) (t : table) : nat :=
  count_occ string_dec (ids t) i.

(** The values of [.upsert({ id, form_id, user_id, data, created_at })]. *)
Definition ofSubmission (s : Submission.t) : Row :=
  {| id := Submission.id s;
     form_id := Submission.formId s;
     user_id := Submission.userId s;
     data := Submission.data s;
     created_at := Submission.createdAt s;
     synced_to_teable := false;
     teable_record_id := None;
     sync_error := None |}.

(** On a conflict on [id] the columns given are updated, the others kept. *)
Definition merge (v old : Row) : Row :=
  {| id := id old;
     form_id := form_id v;
     user_id := user_id v;
     data := data v;
     created_at := created_at v;
     synced_to_teable := synced_to_teable old;
     teable_record_id := teable_record_id old;
     sync_error := sync_error old |}.

(** [upsert]: insert the row, or update the row that has its [id]. *)
Fixpoint upsert (v : Row) (t : table) : table :=
  match t with
  | [] => [v]
  | r :: rest =>
      if String.eqb (id r) (id v) then merge v r :: rest
      else r :: upsert v rest
  end.

(** [insert] of a row whose [id] the server has generated. *)
Definition insert (v : Row) (t : table) : table := (t ++ [v])%list.

(** [.update(f).eq('id', i)]. *)
Definition updateWhereId (f : Row -> Row) (i : string) (t : table) : table :=
  map (fun r => if String.eqb (id r) i then f r else r) t.

Definition setTeable (ok : bool) (recordId : option string) (err : option string)
           (r : Row) : Row :=
  {| id := id r;
     form_id := form_id r;
     user_id := user_id r;
     data := data r;
     created_at := created_at r;
     synced_to_teable := ok;
     teable_record_id := recordId;
     sync_error := err |}.

(** [.update({ synced_to_teable: true, teable_record_id: recordId,
    sync_error: null })].  When [recordId] is [undefined] the request body
    holds no [teable_record_id] ([JSON.stringify] leaves the member out), so
    the column keeps its value. *)
Definition setTeablePushed (recordId : option string) (r : Row) : Row :=
  setTeable true
            (match recordId with
             | Some i => Some i
             | None => teable_record_id r
             end)
            None r.

(** [.update({ synced_to_teable: false, sync_error })]: [teable_record_id]
    is not among the columns. *)
Definition setTeableError (err : string) (r : Row) : Row :=
  setTeable false (teable_record_id r) (Some err) r.

(** The primary key holds: no two rows bear the same identifier. *)
Definition wf (t : table) : Prop := NoDup (ids t).

End Remote.

(** ** teableSync: the secondary push *)

Module Teable.

(** What the world answers to one call of [syncSubmissionToTeable]:
    - [Pushed]: the record is read, the project is configured and Teable
      accepts the POST; [recordId] is [data.records?.[0]?.id || data.id],
      an identifier of Teable (a string), or [None] when the response holds
      neither and the expression is [undefined];
    - [NotConfigured]: the project has no Teable settings (early return);
    - [Throws]: something inside the [try] throws (the select fails, the
      submission or project is missing, [fetch] fails, the response is not
      ok);
    - [Rejects]: the [catch] block itself throws.
    [stored] tells whether the bookkeeping [update] reaches the table; its
    answer is not inspected by the code. *)
Inductive Outcome :=
| Pushed (recordId : option string) (stored : bool)
| NotConfigured
| Throws (e : JS.Thrown) (stored : bool)
| Rejects (e : JS.Thrown).

Record Result := { success : bool; error : option string }.

Definition syncSubmissionToTeable (o : Outcome) (submissionId : string)
           (t : Remote.table) : JS.Promise Result * Remote.table :=
  match o with
  | Pushed recordId stored =>
      (JS.Fulfilled {| success := true; error := None |},
       if stored
       then Remote.updateWhereId (Remote.setTeablePushed recordId) submissionId t
       else t)
  | NotConfigured =>
      (JS.Fulfilled {| success := false;
                       error := Some "Teable not configured for this project" |},
       t)
  | Throws e stored =>
      (JS.Fulfilled {| success := false; error := Some (JS.message e) |},
       if stored
       then Remote.updateWhereId
              (Remote.setTeableError (JS.orUnknown (JS.message e))) submissionId t
       else t)
  | Rejects e => (JS.Rejected e, t)
  end.

End Teable.

(** ** backgroundSync: the sync pass *)

Module Sync.

(** What the remote store answers to one [upsert(...).select().single()]:
    - [Written]: the row is written and returned ([error] is null);
    - [Lost e]: the row is written but the answer does not arrive, the
      client sees the error [e];
    - [Refused e]: nothing is written, the client sees the error [e]. *)
Inductive UpsertOutcome :=
| Written
| Lost (e : JS.Thrown)
| Refused (e : JS.Thrown).

Definition applied (o : UpsertOutcome) : bool :=
  match o with
  | Refused _ => false
  | _ => true
  end.

(** The [error] of the response. *)
Definition responseError (o : UpsertOutcome) : option JS.Thrown :=
  match o with
  | Written => None
  | Lost e => Some e
  | Refused e => Some e
  end.

(** The answers of the network, by the number of remote writes issued
    before the call. *)
Record Env := {
  upsertAt : nat -> UpsertOutcome;
  teableAt : nat -> Teable.Outcome
}.

(** The local database, the remote table and the remote writes issued so
    far (identifier and answer, oldest first). *)
Record World := {
  db : Offline.DB;
  remote : Remote.table;
  writeLog : list (string * UpsertOutcome)
}.

Record Results := {
  success : nat;
  failed : nat;
  errors : list string
}.

Definition noResults : Results := {| success := 0; failed := 0; errors := [] |}.

Definition maxAttemptsMessage (i : string) : string :=
  "Submission " ++ i ++ ": Max sync attempts exceeded".

Definition failureMessage (i errorMessage : string) : string :=
  "Submission " ++ i ++ ": " ++ errorMessage.

(** [results.failed++; results.errors.push(message)]. *)
Definition countFailure (message : string) (r : Results) : Results :=
  {| success := success r;
     failed := S (failed r);
     errors := (errors r ++ [message])%list |}.

(** [results.success++]. *)
Definition countSuccess (r : Results) : Results :=
  {| success := S (success r); failed := failed r; errors := errors r |}.

(** [err instanceof Error ? err.message : 'Unknown error']. *)
Definition errorMessageOf (err : JS.Thrown) : string :=
  if JS.instanceofError err then JS.message err else "Unknown error".

(** The remote table after the write of [s] is answered with [answer]. *)
Definition afterUpsert (answer : UpsertOutcome) (s : Submission.t)
           (t : Remote.table) : Remote.table :=
  if applied answer then Remote.upsert (Remote.ofSubmission s) t else t.

(** The [try] block of the loop (lines 27-57). *)
Definition tryBlock (env : Env) (submission : Submission.t)
           (results : Results) (w : World) : JS.Completion * Results * World :=
  if (Submission.syncAttempts submission >=? 5)%Z then
    (JS.Continue,
     countFailure (maxAttemptsMessage (Submission.id submission)) results,
     w)
  else
    let n := List.length (writeLog w) in
    let answer := upsertAt env n in
    let written := afterUpsert answer submission (remote w) in
    let log := (writeLog w ++ [(Submission.id submission, answer)])%list in
    match responseError answer with
    | Some error =>
        (JS.Throw error, results,
         {| db := db w; remote := written; writeLog := log |})
    | None =>
        (* data.id is the id of the row just written *)
        let data_id := Submission.id submission in
        let '(pushed, remote') :=
          Teable.syncSubmissionToTeable (teableAt env n) data_id written in
        (* not awaited; a rejection is taken by the handler *)
        let _ := JS.catch pushed (fun _ => tt) in
        let db1 := Offline.markSubmissionSynced (Submission.id submission) (db w) in
        let db2 := Offline.deleteSubmission (Submission.id submission) db1 in
        (JS.Normal, countSuccess results,
         {| db := db2; remote := remote'; writeLog := log |})
    end.

(** One turn of the loop: the [try] block and its [catch] (lines 58-64). *)
Definition syncItem (env : Env) (submission : Submission.t)
           (results : Results) (w : World) : Results * World :=
  match tryBlock env submission results w with
  | (JS.Throw err, results', w') =>
      let errorMessage := errorMessageOf err in
      let db' :=
        Offline.updateSubmissionSyncError (Submission.id submission) errorMessage (db w') in
      (countFailure (failureMessage (Submission.id submission) errorMessage) results',
       {| db := db'; remote := remote w'; writeLog := writeLog w' |})
  | (_, results', w') => (results', w')
  end.

(** [for (const submission of pending)]. *)
Fixpoint syncLoop (env : Env) (pending : list Submission.t)
         (results : Results) (w : World) : Results * World :=
  match pending with
  | [] => (results, w)
  | submission :: rest =>
      let '(results', w') := syncItem env submission results w in
      syncLoop env rest results' w'
  end.

(** The pass over a fetched list (lines 19-65). *)
Definition drain (env : Env) (pending : list Submission.t) (w : World)
  : Results * World :=
  if Nat.eqb (List.length pending) 0 then (noResults, w)
  else syncLoop env pending noResults w.

(** [syncPendingSubmissions] (lines 5-72). *)
Definition syncPendingSubmissions (env : Env) (w : World) : Results * World :=
  let pending := Offline.getPendingSubmissions (db w) in
  drain env pending w.

(** The remote writes of a pass: the part of the log it added. *)
Definition writesOf (before after : World) : list (string * UpsertOutcome) :=
  skipn (List.length (writeLog before)) (writeLog after).

(** *** Words for statements about a pass *)

(** The attempt counter has reached the ceiling. *)
Definition exhausted (s : Submission.t) : bool :=
  (Submission.syncAttempts s >=? 5)%Z.

Definition attempted (pending : list Submission.t) : list Submission.t :=
  filter (fun s => negb (exhausted s)) pending.

Definition skipped (pending : list Submission.t) : nat :=
  List.length (filter exhausted pending).

(** The answer to a write shows no error. *)
Definition isWritten (entry : string * UpsertOutcome) : bool :=
  match snd entry with
  | Written => true
  | _ => false
  end.

Definition written (log : list (string * UpsertOutcome)) : nat :=
  List.length (filter isWritten log).

Definition unwritten (log : list (string * UpsertOutcome)) : nat :=
  List.length (filter (fun x => negb (isWritten x)) log).

(** The three ways a turn can go. *)
Inductive Turn (env : Env) (s : Submission.t) (r : Results) (w : World)
  : Results * World -> Prop :=
| TurnSkipped :
    exhausted s = true ->
    Turn env s r w (countFailure (maxAttemptsMessage (Submission.id s)) r, w)
| TurnWritten :
    exhausted s = false ->
    upsertAt env (List.length (writeLog w)) = Written ->
    Turn env s r w
      (countSuccess r,
       {| db := Offline.deleteSubmission (Submission.id s)
                  (Offline.markSubmissionSynced (Submission.id s) (db w));
          remote := snd (Teable.syncSubmissionToTeable
                           (teableAt env (List.length (writeLog w)))
                           (Submission.id s)
                           (Remote.upsert (Remote.ofSubmission s) (remote w)));
          writeLog := (writeLog w ++ [(Submission.id s, Written)])%list |})
| TurnFailed e :
    exhausted s = false ->
    responseError (upsertAt env (List.length (writeLog w))) = Some e ->
    Turn env s r w
      (countFailure (failureMessage (Submission.id s) (errorMessageOf e)) r,
       {| db := Offline.updateSubmissionSyncError (Submission.id s)
                  (errorMessageOf e) (db w);
          remote := afterUpsert (upsertAt env (List.length (writeLog w))) s (remote w);
          writeLog := (writeLog w
                       ++ [(Submission.id s,
                            upsertAt env (List.length (writeLog w)))])%list |}).

End Sync.

(** ** The field worker dashboard: "Sync Now" *)

Module Dashboard.

Inductive Alert :=
| SyncedAlert (n : nat)     (* Successfully synced n submission(s)! *)
| FailedAlert (n : nat)     (* Failed to sync n submission(s). Will retry later. *)
| NothingAlert.             (* No pending submissions to sync *)

(** [handleSync]: the user-initiated pass. *)
Definition handleSync (env : Sync.Env) (w : Sync.World) : list Alert * Sync.World :=
  let '(results, w') := Sync.syncPendingSubmissions env w in
  ((if Nat.ltb 0 (Sync.success results) then [SyncedAlert (Sync.success results)] else [])
   ++ (if Nat.ltb 0 (Sync.failed results) then [FailedAlert (Sync.failed results)] else [])
   ++ (if Nat.eqb (Sync.success results) 0 && Nat.eqb (Sync.failed results) 0
       then [NothingAlert] else []),
   w')%list.

End Dashboard.

(** ** FormCollect: submitting a form *)

Module Collect.

(** What the remote store answers to [insert(...).select().single()]; the
    server chooses the identifier and the creation time of the row. *)
Inductive InsertOutcome :=
| Inserted (serverId : string) (createdAt : Z)
| InsertRefused (e : JS.Thrown).

Inductive Submitted :=
| Saved                     (* Submission saved successfully! *)
| Queued                    (* Submission queued for sync when online! *)
| Failed (message : string). (* Failed to submit form: ... *)

(** [handleSubmit]; [submissionId] is the identifier built from [Date.now()]
    and [Math.random()], [now] the [Date.now()] of [queueSubmission]. *)
Definition handleSubmit (isOnline : bool) (formId : string)
           (userId : option string) (values : JS.Json)
           (submissionId : string) (now : Z)
           (answer : InsertOutcome) (teable : Teable.Outcome)
           (db : Offline.DB) (remote : Remote.table)
  : Submitted * Offline.DB * Remote.table :=
  if isOnline then
    match answer with
    | InsertRefused error => (Failed (JS.message error), db, remote)
    | Inserted serverId createdAt =>
        let submission :=
          {| Remote.id := serverId;
             Remote.form_id := formId;
             Remote.user_id := userId;
             Remote.data := values;
             Remote.created_at := createdAt;
             Remote.synced_to_teable := false;
             Remote.teable_record_id := None;
             Remote.sync_error := None |} in
        let '(pushed, remote') :=
          Teable.syncSubmissionToTeable teable serverId
            (Remote.insert submission remote) in
        let _ := JS.catch pushed (fun _ => tt) in
        (Saved, Offline.clearFormProgress formId db, remote')
    end
  else
    let db1 :=
      Offline.queueSubmission now
        {| Offline.row_id := submissionId;
           Offline.form_id := formId;
           Offline.user_id := userId;
           Offline.row_data := values |} db in
    (Queued, Offline.clearFormProgress formId db1, remote).

(** The answers [loadForm] starts from: [useState({})], replaced by the
    saved draft when there is one. *)
Definition loadValues (formId : string) (db : Offline.DB) : JS.Json :=
  match Offline.getFormProgress formId db with
  | Some savedProgress => FormProgress.data savedProgress
  | None => JS.JObj []
  end.

End Collect.

(** ** FormCollect: the page, its answers and its autosave timer *)

Module Page.

(** [values] is the state of the answers, [timer] the timeout of the
    autosave effect that has not fired, with the answers of the render that
    set it, [said] the alerts of [handleSubmit]. *)
Record State := {
  values : list (string * JS.Json);
  timer : option (list (string * JS.Json));
  mounted : bool;
  db : Offline.DB;
  remote : Remote.table;
  said : list Collect.Submitted
}.

Inductive Event :=
| FieldChange (name : string) (value : JS.Json)  (* onChange of a field *)
| TimerFires (now : Z)                           (* the 2000 ms of the timeout are over *)
| HandleSubmit (isOnline : bool) (userId : option string)
               (submissionId : string) (now : Z)
               (answer : Collect.InsertOutcome) (teable : Teable.Outcome)
| Unmounts.                                      (* the page is left *)

(** [{ ...values, [field.name]: value }]. *)
Fixpoint setField (name : string) (value : JS.Json)
         (entries : list (string * JS.Json)) : list (string * JS.Json) :=
  match entries with
  | [] => [(name, value)]
  | (k, v) :: rest =>
      if String.eqb k name then (k, value) :: rest
      else (k, v) :: setField name value rest
  end.

(** The autosave effect, run after a render with new answers:
    [if (autoSaveEnabled && formId && Object.keys(values).length > 0)] it
    sets a timeout.  [autoSaveEnabled] starts true and [setAutoSaveEnabled]
    is never called; the empty string is falsy. *)
Definition effect (formId : string) (entries : list (string * JS.Json))
  : option (list (string * JS.Json)) :=
  if negb (String.eqb formId "") && Nat.ltb 0 (List.length entries)
  then Some entries
  else None.

(** The page once [loadForm] is done: [entries] are the answers it starts
    from, the saved draft or none. *)
Definition initial (formId : string) (entries : list (string * JS.Json))
           (d : Offline.DB) (t : Remote.table) : State :=
  {| values := entries; timer := effect formId entries; mounted := true;
     db := d; remote := t; said := [] |}.

(** The cleanup of the effect, [clearTimeout(timer)], runs before the effect
    runs again (its dependencies are the answers, the form and
    [autoSaveEnabled]) and when the page is unmounted; [handleSubmit] does
    not touch the timeout.  A timeout that fires while [handleSubmit] waits
    for its insert or for [queueSubmission] saves before the draft is
    cleared, which gives the database of the timeout firing first. *)
Definition step (formId : string) (s : State) (e : Event) : State :=
  match e with
  | FieldChange name value =>
      if mounted s then
        {| values := setField name value (values s);
           timer := effect formId (setField name value (values s));
           mounted := true; db := db s; remote := remote s; said := said s |}
      else s
  | TimerFires now =>
      match timer s with
      | Some entries =>
          (* saveFormProgress(formId, values) *)
          {| values := values s; timer := None; mounted := mounted s;
             db := Offline.saveFormProgress now formId (JS.JObj entries) (db s);
             remote := remote s; said := said s |}
      | None => s
      end
  | HandleSubmit isOnline userId submissionId now answer teable =>
      if mounted s then
        let '(alert, d, t) :=
          Collect.handleSubmit isOnline formId userId (JS.JObj (values s))
                               submissionId now answer teable (db s) (remote s) in
        {| values := values s; timer := timer s; mounted := true;
           db := d; remote := t; said := (said s ++ [alert])%list |}
      else s
  | Unmounts =>
      {| values := values s; timer := None; mounted := false;
         db := db s; remote := remote s; said := said s |}
  end.

Definition run (formId : string) (s : State) (trace : list Event) : State :=
  fold_left (step formId) trace s.

End Page.

(** ** registerSyncListener and the dashboard: when passes start *)

Module Listener.

(** The state of [FieldWorkerDashboard] that bears on "Sync Now", and what
    its last render put on the screen. *)
Record Dashboard := {
  pendingCount : nat;      (* useState(0) *)
  syncing : bool;          (* useState(false) *)
  buttonShown : bool;      (* the button is on the screen *)
  buttonDisabled : bool    (* with its [disabled] attribute *)
}.

(** A dashboard as it is mounted: with [pendingCount] 0 the first render
    leaves the whole banner out. *)
Definition freshDashboard : Dashboard :=
  {| pendingCount := 0; syncing := false;
     buttonShown := false; buttonDisabled := false |}.

(** [syncInProgress] is the flag of the closure of [registerSyncListener],
    [online] is [navigator.onLine], [listenerPasses] counts the calls of
    [syncPendingSubmissions] made by [triggerSync] that have not settled,
    [manualPasses] those made by [handleSync]. *)
Record State := {
  syncInProgress : bool;
  online : bool;
  listenerPasses : nat;
  dashboard : Dashboard;
  manualPasses : nat
}.

Inductive Event :=
| NavigatorOnLine (b : bool)
| TriggerSync                                  (* a timer or the online event calls triggerSync *)
| PassSettles (outcome : JS.Promise Sync.Results) (* the awaited pass of triggerSync settles *)
| DashboardMounts                              (* a new FieldWorkerDashboard is shown *)
| DashboardRenders                             (* it renders again *)
| DashboardUnmounts
| LoadPendingCount (db : Offline.DB)           (* loadPendingCount, on the database of that moment *)
| HandleSync                                   (* the user presses "Sync Now" *)
| HandleSyncSettles (shown : bool).            (* its pass settles; [shown]: the dashboard that
                                                  started it is still mounted *)

Definition initial (onLine : bool) : State :=
  {| syncInProgress := false; online := onLine; listenerPasses := 0;
     dashboard := freshDashboard; manualPasses := 0 |}.

Definition withListener (flag : bool) (n : nat) (s : State) : State :=
  {| syncInProgress := flag; online := online s; listenerPasses := n;
     dashboard := dashboard s; manualPasses := manualPasses s |}.

Definition withDashboard (d : Dashboard) (n : nat) (s : State) : State :=
  {| syncInProgress := syncInProgress s; online := online s;
     listenerPasses := listenerPasses s;
     dashboard := d; manualPasses := n |}.

(** The render: the banner is there when [pendingCount > 0], the button
    inside it when [navigator.onLine], with [disabled={syncing}]. *)
Definition rendered (onLine : bool) (d : Dashboard) : Dashboard :=
  {| pendingCount := pendingCount d; syncing := syncing d;
     buttonShown := Nat.ltb 0 (pendingCount d) && onLine;
     buttonDisabled := syncing d |}.

Definition step (s : State) (e : Event) : State :=
  match e with
  | NavigatorOnLine b =>
      {| syncInProgress := syncInProgress s; online := b;
         listenerPasses := listenerPasses s;
         dashboard := dashboard s; manualPasses := manualPasses s |}
  | TriggerSync =>
      if syncInProgress s || negb (online s) then s
      else withListener true (S (listenerPasses s)) s
  | PassSettles _ =>
      match listenerPasses s with
      | O => s
      | S n => withListener false n s          (* finally *)
      end
  | DashboardMounts => withDashboard freshDashboard (manualPasses s) s
  | DashboardRenders =>
      withDashboard (rendered (online s) (dashboard s)) (manualPasses s) s
  | DashboardUnmounts =>
      withDashboard
        {| pendingCount := pendingCount (dashboard s);
           syncing := syncing (dashboard s);
           buttonShown := false;
           buttonDisabled := buttonDisabled (dashboard s) |}
        (manualPasses s) s
  | LoadPendingCount db =>
      (* setPendingCount(pending.length) *)
      withDashboard
        {| pendingCount := List.length (Offline.getPendingSubmissions db);
           syncing := syncing (dashboard s);
           buttonShown := buttonShown (dashboard s);
           buttonDisabled := buttonDisabled (dashboard s) |}
        (manualPasses s) s
  | HandleSync =>
      (* only a button that is on the screen and not disabled can be pressed *)
      if buttonShown (dashboard s) && negb (buttonDisabled (dashboard s))
      then
        withDashboard
          {| pendingCount := pendingCount (dashboard s);
             syncing := true;                  (* setSyncing(true) *)
             buttonShown := buttonShown (dashboard s);
             buttonDisabled := buttonDisabled (dashboard s) |}
          (S (manualPasses s)) s
      else s
  | HandleSyncSettles shown =>
      match manualPasses s with
      | O => s
      | S n =>
          withDashboard
            {| pendingCount := pendingCount (dashboard s);
               syncing := if shown then false else syncing (dashboard s);
               buttonShown := buttonShown (dashboard s);
               buttonDisabled := buttonDisabled (dashboard s) |}
            n s
      end
  end.

Definition run (s : State) (trace : list Event) : State := fold_left step trace s.

(** Passes in flight. *)
Definition passes (s : State) : nat := listenerPasses s + manualPasses s.

(** At most one pass of the listener, and the flag set exactly while it runs. *)
Definition inv (s : State) : Prop :=
  listenerPasses s <= 1 /\ (syncInProgress s = true <-> listenerPasses s = 1).

End Listener.

(** * The rest of the library *)

(** ** Strings *)

Module Text.

(** [toLowerCase] on the letters A to Z; other characters are left as
    they are.  (Two characters of Unicode have a lower case that holds an
    ASCII letter: U+0130 gives [i] followed by a combining dot, U+212A gives
    [k]; none of the names looked for below ends in [i] or holds [k].) *)
Definition lowerAscii (c : ascii) : ascii :=
  let n := nat_of_ascii c in
  if Nat.leb 65 n && Nat.leb n 90 then ascii_of_nat (n + 32) else c.

Fixpoint toLowerCase (s : string) : string :=
  match s with
  | EmptyString => EmptyString
  | String c rest => String (lowerAscii c) (toLowerCase rest)
  end.

(** [hay.includes(needle)]. *)
Fixpoint includes (needle hay : string) : bool :=
  if String.prefix needle hay then true
  else match hay with
       | EmptyString => false
       | String _ rest => includes needle rest
       end.

(** The own property [k] of an object written as a list of entries. *)
Fixpoint own (A : Type) (k : string) (entries : list (string * A)) : option A :=
  match entries with
  | [] => None
  | (k', v) :: rest => if String.eqb k k' then Some v else own k rest
  end.

End Text.

(** ** xmlParser: ODK types and Teable types *)

Module XmlParser.

Module FormField.
Record t := {
  name : string;
  type : string;
  label : string;
  required : bool;
  hint : option string;
  choices : option (list (string * string))
}.
End FormField.

Definition typeMap : list (string * string) :=
  [("string", "singleLineText");
   ("int", "number");
   ("integer", "number");
   ("decimal", "number");
   ("date", "date");
   ("time", "singleLineText");
   ("dateTime", "date");
   ("geopoint", "singleLineText");
   ("geotrace", "longText");
   ("geoshape", "longText");
   ("binary", "attachment");
   ("select", "singleSelect");
   ("select_one", "singleSelect");
   ("select1", "singleSelect");
   ("select_multiple", "multipleSelect");
   ("text", "longText");
   ("barcode", "singleLineText")].

(** What [typeMap[k] || 'singleLineText'] evaluates to: a Teable type, or,
    for the two all-lower-case members every object inherits, that member
    (a function or an object, not a string). *)
Inductive Looked :=
| TeableType (t : string)
| Inherited (member : string).

Definition inheritedMember (k : string) : bool :=
  String.eqb k "constructor" || String.eqb k "__proto__".

Definition mapODKTypeToTeable (odkType : string) : Looked :=
  let k := Text.toLowerCase odkType in
  match Text.own k typeMap with
  | Some t => if String.eqb t "" then TeableType "singleLineText" else TeableType t
  | None =>
      if inheritedMember k then Inherited k else TeableType "singleLineText"
  end.

End XmlParser.

(** ** teable: looking for the geometry field *)

Module TeableField.
Record t := {
  id : string;
  name : string;
  type : string;
  options : option JS.Json
}.
End TeableField.

Module TeableRecord.
Record t := {
  id : string;
  fields : list (string * JS.Json);
  createdTime : option string;
  lastModifiedTime : option string
}.
End TeableRecord.

Module TeableApi.

Definition geoFieldTypes : list string :=
  ["geopoint"; "location"; "coordinates"; "geometry"].

(** The test of the first loop of [findGeometryField]. *)
Definition hasGeoFieldType (field : TeableField.t) : bool :=
  existsb (fun type => Text.includes type (Text.toLowerCase (TeableField.type field)))
          geoFieldTypes.

(** The test of its second loop. *)
Definition hasGeoFieldName (field : TeableField.t) : bool :=
  let nameLower := Text.toLowerCase (TeableField.name field) in
  Text.includes "location" nameLower
  || Text.includes "coordinates" nameLower
  || Text.includes "gps" nameLower
  || Text.includes "lat" nameLower
  || Text.includes "geo" nameLower.

Definition findGeometryField (fields : list TeableField.t) : option TeableField.t :=
  match List.find hasGeoFieldType fields with
  | Some field => Some field
  | None => List.find hasGeoFieldName fields
  end.

Definition isGeoType (field : TeableField.t) : bool :=
  let typeLower := Text.toLowerCase (TeableField.type field) in
  Text.includes "geopoint" typeLower
  || Text.includes "location" typeLower
  || Text.includes "geometry" typeLower.

Definition isTextType (field : TeableField.t) : bool :=
  let typeLower := Text.toLowerCase (TeableField.type field) in
  Text.includes "text" typeLower
  || Text.includes "string" typeLower
  || String.eqb typeLower "singlelinetext"
  || String.eqb typeLower "longtext".

Definition hasGeoName (field : TeableField.t) : bool :=
  let nameLower := Text.toLowerCase (TeableField.name field) in
  Text.includes "location" nameLower
  || Text.includes "coordinates" nameLower
  || Text.includes "coordinate" nameLower
  || Text.includes "gps" nameLower
  || Text.includes "lat" nameLower
  || Text.includes "lng" nameLower
  || Text.includes "lon" nameLower
  || Text.includes "geo" nameLower
  || Text.includes "position" nameLower
  || Text.includes "point" nameLower
  || Text.includes "multipoint" nameLower
  || Text.includes "polygon" nameLower
  || Text.includes "multipolygon" nameLower.

Section Samples.

(** Whether [extractCoordinates(value)] is not null.  The function reads
    floating-point numbers out of the value and is taken as given; on a
    missing value it returns null, and so it does on the members a record
    object inherits (functions, and a prototype without coordinates). *)
Variable extractCoordinates : JS.Json -> bool.

(** [record.fields[field.id]], passed to [extractCoordinates]. *)
Definition sampleHasCoordinates (fieldId : string) (record : TeableRecord.t) : bool :=
  match Text.own fieldId (TeableRecord.fields record) with
  | Some value => extractCoordinates value
  | None => false
  end.

(** [sampleRecords] is [None] when the argument is left out. *)
Definition hasCoordinateData (sampleRecords : option (list TeableRecord.t))
           (field : TeableField.t) : bool :=
  match sampleRecords with
  | None => false
  | Some records =>
      if Nat.ltb 0 (List.length records)
      then existsb (sampleHasCoordinates (TeableField.id field)) (firstn 5 records)
      else false
  end.

Definition findAllPotentialGeometryFields (fields : list TeableField.t)
           (sampleRecords : option (list TeableRecord.t)) : list TeableField.t :=
  filter (fun field =>
            isGeoType field
            || (isTextType field && hasGeoName field)
            || hasCoordinateData sampleRecords field)
         fields.

End Samples.

End TeableApi.

(** ** offlineStorage: the downloaded forms *)

Module FormRow.
Record t := {
  id : string;
  project_id : string;
  name : string;
  description : option string;
  xml_content : string;
  version : string;
  is_active : bool;
  created_at : string
}.
End FormRow.

Module OfflineForm.
Record t := {
  id : string;
  projectId : string;
  name : string;
  xmlContent : string;
  version : string;
  fields : list XmlParser.FormField.t;
  downloadedAt : Z
}.
End OfflineForm.

Module Storage.

(** The whole database: the object store [forms] (key path [id]) beside the
    two stores of the queue. *)
Record Database := {
  forms : IDB.store OfflineForm.t;
  queue : Offline.DB
}.

Definition emptyDatabase : Database :=
  {| forms := []; queue := Offline.emptyDB |}.

(** [createIndex('by-project', 'projectId')]. *)
Definition by_project (f : OfflineForm.t) : IDB.JsValue :=
  IDB.JsString (OfflineForm.projectId f).

(** [now] is the value of [Date.now()]. *)
Definition saveFormOffline (now : Z) (form : FormRow.t)
           (fields : list XmlParser.FormField.t) (db : Database) : Database :=
  {| forms :=
       IDB.put OfflineForm.id
         {| OfflineForm.id := FormRow.id form;
            OfflineForm.projectId := FormRow.project_id form;
            OfflineForm.name := FormRow.name form;
            OfflineForm.xmlContent := FormRow.xml_content form;
            OfflineForm.version := FormRow.version form;
            OfflineForm.fields := fields;
            OfflineForm.downloadedAt := now |}
         (forms db);
     queue := queue db |}.

Definition getOfflineForm (formId : string) (db : Database) : option OfflineForm.t :=
  IDB.get formId (forms db).

(** [db.getAll('forms')]: the records in ascending order of key. *)
Definition getAllOfflineForms (db : Database) : list OfflineForm.t :=
  IDB.records (forms db).

Definition getOfflineFormsByProject (projectId : string) (db : Database)
  : list OfflineForm.t :=
  IDB.getAllFromIndex by_project (IDB.KeyString projectId) (forms db).

Definition deleteOfflineForm (formId : string) (db : Database) : Database :=
  {| forms := IDB.delete formId (forms db); queue := queue db |}.

(** [db.clear] on each of the three stores. *)
Definition clearAllOfflineData (db : Database) : Database :=
  {| forms := [];
     queue := {| Offline.submissions := []; Offline.formProgress := [] |} |}.

Definition wf (db : Database) : Prop :=
  IDB.wf OfflineForm.id (forms db) /\ Offline.wf (queue db).

End Storage.

(** ** FormCollect: opening a form *)

Module FormCollect.

(** What the remote store answers to
    [from('forms').select('*').eq('id', formId).maybeSingle()]. *)
Inductive SelectOutcome :=
| Selected (row : FormRow.t)
| NoRow
| SelectFailed (e : JS.Thrown).

(** The state [loadForm] leaves: the form, its fields, the offline badge and
    the answers; or the message of the alert, after which the page is
    left. *)
Inductive Loaded :=
| Opened (form : FormRow.t) (fields : list XmlParser.FormField.t)
         (isOfflineMode : bool) (values : JS.Json)
| Failed (message : string).

(** [parseXForm] rests on an XML parser that is not part of the sources:
    it is taken as given, with the error it may throw.  [today] is
    [new Date().toISOString()], [onLine] is [navigator.onLine]. *)
Definition loadForm (parseXForm : string -> JS.Thrown + list XmlParser.FormField.t)
           (today : string) (onLine : bool) (answer : SelectOutcome)
           (formId : string) (db : Storage.Database) : Loaded :=
  match Storage.getOfflineForm formId db with
  | Some offlineForm =>
      Opened
        {| FormRow.id := OfflineForm.id offlineForm;
           FormRow.project_id := OfflineForm.projectId offlineForm;
           FormRow.name := OfflineForm.name offlineForm;
           FormRow.description := None;
           FormRow.xml_content := OfflineForm.xmlContent offlineForm;
           FormRow.version := OfflineForm.version offlineForm;
           FormRow.is_active := true;
           FormRow.created_at := today |}
        (OfflineForm.fields offlineForm)
        true
        (Collect.loadValues formId (Storage.queue db))
  | None =>
      if onLine then
        match answer with
        | SelectFailed error => Failed (JS.message error)
        | NoRow => Failed "Form not found"
        | Selected data =>
            match parseXForm (FormRow.xml_content data) with
            | inl error => Failed (JS.message error)
            | inr fields =>
                Opened data fields false
                       (Collect.loadValues formId (Storage.queue db))
            end
        end
      else Failed "Form not available offline. Please connect to the internet."
  end.

End FormCollect.

(** ** teableSync: pushing every unsynced row *)

Module TeableSync.

(** The answers of the world to one call of [syncAllPendingSubmissions]:
    whether the query fails, the identifiers it returns when a project is
    given (the filter by project is evaluated by the remote store), and what
    happens to the push of each identifier. *)
Record Env := {
  queryError : option JS.Thrown;
  filteredByProject : list string;
  pushOf : string -> Teable.Outcome
}.

Record Summary := {
  total : nat;
  successful : nat;
  failed : nat
}.

(** [select('id').eq('synced_to_teable', false)]. *)
Definition unsyncedIds (t : Remote.table) : list string :=
  Remote.ids (filter (fun r => negb (Remote.synced_to_teable r)) t).

(** [submissions.map((sub) => syncSubmissionToTeable(sub.id))], settled.
    The pushes run side by side in the code; each writes the row of its own
    identifier only, so they are taken one after the other. *)
Fixpoint pushAll (env : Env) (submissions : list string) (t : Remote.table)
  : list (JS.Promise Teable.Result) * Remote.table :=
  match submissions with
  | [] => ([], t)
  | sub :: rest =>
      let '(settled, t1) := Teable.syncSubmissionToTeable (pushOf env sub) sub t in
      let '(others, t2) := pushAll env rest t1 in
      (settled :: others, t2)
  end.

(** [r.status === 'fulfilled' && r.value.success]. *)
Definition fulfilledWithSuccess (r : JS.Promise Teable.Result) : bool :=
  match r with
  | JS.Fulfilled value => Teable.success value
  | JS.Rejected _ => false
  end.

(** [projectId] is [None] when the argument is left out; the empty string
    is falsy. *)
Definition givenProject (projectId : option string) : bool :=
  match projectId with
  | Some p => negb (String.eqb p "")
  | None => false
  end.

Definition syncAllPendingSubmissions (env : Env) (projectId : option string)
           (t : Remote.table) : Summary * Remote.table :=
  match queryError env with
  | Some _ => ({| total := 0; successful := 0; failed := 0 |}, t)
  | None =>
      let submissions :=
        if givenProject projectId then filteredByProject env else unsyncedIds t in
      let '(results, t') := pushAll env submissions t in
      let successful := List.length (filter fulfilledWithSuccess results) in
      ({| total := List.length submissions;
          successful := successful;
          failed := List.length results - successful |},
       t')
  end.

End TeableSync.

(** * The specification's words and sample data *)

(** [listPending] in the words of the specification: the records whose
    [synced] flag is false, oldest first by creation time. *)
Fixpoint insertByCreatedAt (s : Submission.t) (l : list Submission.t)
  : list Submission.t :=
  match l with
  | [] => [s]
  | x :: rest =>
      if (Submission.createdAt s <=? Submission.createdAt x)%Z then s :: l
      else x :: insertByCreatedAt s rest
  end.

Definition oldestFirst (l : list Submission.t) : list Submission.t :=
  fold_right insertByCreatedAt [] l.

Definition unsynced (db : Offline.DB) : list Submission.t :=
  filter (fun s => negb (Submission.synced s)) (IDB.records (Offline.submissions db)).

Definition listPending_spec (db : Offline.DB) : list Submission.t :=
  oldestFirst (unsynced db).

(** A submission queued at time 100, and the queue that holds it. *)
Definition rowAda : Offline.SubmissionRow :=
  {| Offline.row_id := "sub_1";
     Offline.form_id := "f1";
     Offline.user_id := None;
     Offline.row_data := JS.JObj [("name", JS.JStr "Ada")] |}.

Definition queuedAda : Submission.t := Offline.queuedRecord 100 rowAda.

Definition queueWithAda : Offline.DB :=
  Offline.queueSubmission 100 rowAda Offline.emptyDB.

(** Another submission that bears the same identifier. *)
Definition sameIdAgain : Offline.SubmissionRow :=
  {| Offline.row_id := "sub_1";
     Offline.form_id := "f1";
     Offline.user_id := None;
     Offline.row_data := JS.JObj [("name", JS.JStr "Bob")] |}.

(** An environment in which every remote write is answered [Written] and
    Teable is not configured. *)
Definition calmEnv : Sync.Env :=
  {| Sync.upsertAt := fun _ => Sync.Written;
     Sync.teableAt := fun _ => Teable.NotConfigured |}.

Definition worldOf (db : Offline.DB) : Sync.World :=
  {| Sync.db := db; Sync.remote := []; Sync.writeLog := [] |}.

(** Two submissions queued one after the other; the later one bears the
    smaller identifier. *)
Definition firstRow : Offline.SubmissionRow :=
  {| Offline.row_id := "sub_5_b";
     Offline.form_id := "f1";
     Offline.user_id := None;
     Offline.row_data := JS.JObj [] |}.

Definition secondRow : Offline.SubmissionRow :=
  {| Offline.row_id := "sub_5_a";
     Offline.form_id := "f1";
     Offline.user_id := None;
     Offline.row_data := JS.JObj [] |}.

Definition twoQueued : Offline.DB :=
  Offline.queueSubmission 6 secondRow
    (Offline.queueSubmission 5 firstRow Offline.emptyDB).

(** A submission with identifier [i], created at [t], never tried. *)
Definition fresh (i : string) (t : Z) : Submission.t :=
  {| Submission.id := i;
     Submission.formId := "f1";
     Submission.userId := None;
     Submission.data := JS.JObj [];
     Submission.createdAt := t;
     Submission.synced := false;
     Submission.syncAttempts := 0;
     Submission.lastSyncError := None |}.

(** A submission that has failed five times, alone in the queue. *)
Definition worn : Submission.t :=
  {| Submission.id := "sub_1";
     Submission.formId := "f1";
     Submission.userId := None;
     Submission.data := JS.JObj [("name", JS.JStr "Ada")];
     Submission.createdAt := 100;
     Submission.synced := false;
     Submission.syncAttempts := 5;
     Submission.lastSyncError := Some "timeout" |}.

Definition queueWithWorn : Offline.DB :=
  {| Offline.submissions := [("sub_1", worn)]; Offline.formProgress := [] |}.

(** The answers: the first write is refused, the later ones are written. *)
Definition firstRefused : Sync.Env :=
  {| Sync.upsertAt := fun n =>
       match n with
       | O => Sync.Refused {| JS.instanceofError := true; JS.message := "timeout" |}
       | S _ => Sync.Written
       end;
     Sync.teableAt := fun _ => Teable.NotConfigured |}.

(** The world after [queueSubmission]. *)
Definition queuedIn (now : Z) (submission : Offline.SubmissionRow) (w : Sync.World)
  : Sync.World :=
  {| Sync.db := Offline.queueSubmission now submission (Sync.db w);
     Sync.remote := Sync.remote w;
     Sync.writeLog := Sync.writeLog w |}.

(** The world after [n] calls of [syncPendingSubmissions], one after the
    other. *)
Fixpoint afterPasses (env : Sync.Env) (n : nat) (w : Sync.World) : Sync.World :=
  match n with
  | O => w
  | S m => afterPasses env m (snd (Sync.syncPendingSubmissions env w))
  end.

(** A stored record with other bookkeeping fields. *)
Definition withBookkeeping (synced : bool) (attempts : Z) (error : option string)
           (s : Submission.t) : Submission.t :=
  {| Submission.id := Submission.id s;
     Submission.formId := Submission.formId s;
     Submission.userId := Submission.userId s;
     Submission.data := Submission.data s;
     Submission.createdAt := Submission.createdAt s;
     Submission.synced := synced;
     Submission.syncAttempts := attempts;
     Submission.lastSyncError := error |}.

(** The first write is written, the Teable push throws. *)
Definition teableDown : Sync.Env :=
  {| Sync.upsertAt := fun _ => Sync.Written;
     Sync.teableAt := fun _ =>
       Teable.Throws {| JS.instanceofError := true;
                        JS.message := "Teable sync failed: 500" |} true |}.

(** ** Further words and sample data *)

(** [b] is [a] after some failed attempts: the same submission, with an
    attempt counter at least as high. *)
Definition laterVersion (a b : Submission.t) : Prop :=
  Submission.id b = Submission.id a
  /\ Submission.formId b = Submission.formId a
  /\ Submission.userId b = Submission.userId a
  /\ Submission.data b = Submission.data a
  /\ Submission.createdAt b = Submission.createdAt a
  /\ Submission.synced b = Submission.synced a
  /\ (Submission.syncAttempts a <= Submission.syncAttempts b)%Z.

(** The fetched list is a snapshot of the queue: its items bear different
    identifiers and each is the record stored under its identifier. *)
Definition snapshotOf (db : Offline.DB) (pending : list Submission.t) : Prop :=
  NoDup (map Submission.id pending)
  /\ forall s, In s pending ->
               IDB.get (Submission.id s) (Offline.submissions db) = Some s.

(** The columns of a remote row that an upsert of [s] sets. *)
Definition carries (row : Remote.Row) (s : Submission.t) : Prop :=
  Remote.id row = Submission.id s
  /\ Remote.form_id row = Submission.formId s
  /\ Remote.user_id row = Submission.userId s
  /\ Remote.data row = Submission.data s
  /\ Remote.created_at row = Submission.createdAt s.

(** The row of a submission with other Teable columns. *)
Definition withTeable (ok : bool) (recordId err : option string) (r : Remote.Row)
  : Remote.Row :=
  {| Remote.id := Remote.id r;
     Remote.form_id := Remote.form_id r;
     Remote.user_id := Remote.user_id r;
     Remote.data := Remote.data r;
     Remote.created_at := Remote.created_at r;
     Remote.synced_to_teable := ok;
     Remote.teable_record_id := recordId;
     Remote.sync_error := err |}.

(** What a push does to the row of its identifier: an accepted push marks
    the row synced, clears the error and writes the Teable record when the
    response names one; a push that throws marks the row unsynced with the
    message and keeps the Teable record; nothing is written when the update
    is not stored, the project is not configured or the promise rejects. *)
Definition pushed (o : Teable.Outcome) (r : Remote.Row) : Remote.Row :=
  match o with
  | Teable.Pushed (Some recordId) true => withTeable true (Some recordId) None r
  | Teable.Pushed None true => withTeable true (Remote.teable_record_id r) None r
  | Teable.Throws e true =>
      withTeable false (Remote.teable_record_id r)
                 (Some (if String.eqb (JS.message e) "" then "Unknown error"
                        else JS.message e)) r
  | _ => r
  end.

(** A second submission, queued after [rowAda]. *)
Definition rowEve : Offline.SubmissionRow :=
  {| Offline.row_id := "sub_2";
     Offline.form_id := "f1";
     Offline.user_id := Some "u7";
     Offline.row_data := JS.JObj [("name", JS.JStr "Eve")] |}.

Definition queuedEve : Submission.t := Offline.queuedRecord 150 rowEve.

Definition queueOfTwo : Offline.DB :=
  Offline.queueSubmission 150 rowEve queueWithAda.

(** A remote table that already holds the row of another submission,
    pushed to Teable before. *)
Definition otherRow : Remote.Row :=
  {| Remote.id := "sub_0";
     Remote.form_id := "f1";
     Remote.user_id := None;
     Remote.data := JS.JObj [("name", JS.JStr "Zoe")];
     Remote.created_at := 50;
     Remote.synced_to_teable := true;
     Remote.teable_record_id := Some "rec1";
     Remote.sync_error := None |}.

Definition worldWithRow (db : Offline.DB) : Sync.World :=
  {| Sync.db := db; Sync.remote := [otherRow]; Sync.writeLog := [] |}.

(** An operation of the queue, on the whole database. *)
Definition onQueue (f : Offline.DB -> Offline.DB) (db : Storage.Database)
  : Storage.Database :=
  {| Storage.forms := Storage.forms db; Storage.queue := f (Storage.queue db) |}.

(** The record [saveFormOffline] stores. *)
Definition downloaded (now : Z) (form : FormRow.t)
           (fields : list XmlParser.FormField.t) : OfflineForm.t :=
  {| OfflineForm.id := FormRow.id form;
     OfflineForm.projectId := FormRow.project_id form;
     OfflineForm.name := FormRow.name form;
     OfflineForm.xmlContent := FormRow.xml_content form;
     OfflineForm.version := FormRow.version form;
     OfflineForm.fields := fields;
     OfflineForm.downloadedAt := now |}.

(** The form [loadForm] shows for a downloaded form. *)
Definition shownOffline (today : string) (f : OfflineForm.t) : FormRow.t :=
  {| FormRow.id := OfflineForm.id f;
     FormRow.project_id := OfflineForm.projectId f;
     FormRow.name := OfflineForm.name f;
     FormRow.description := None;
     FormRow.xml_content := OfflineForm.xmlContent f;
     FormRow.version := OfflineForm.version f;
     FormRow.is_active := true;
     FormRow.created_at := today |}.

(** Two forms of project p1 and one of project p2. *)
Definition formRow (i project : string) : FormRow.t :=
  {| FormRow.id := i;
     FormRow.project_id := project;
     FormRow.name := "Survey";
     FormRow.description := None;
     FormRow.xml_content := "<h:html/>";
     FormRow.version := "1.0";
     FormRow.is_active := true;
     FormRow.created_at := "2025-01-01T00:00:00.000Z" |}.

Definition threeForms : Storage.Database :=
  Storage.saveFormOffline 3 (formRow "f1" "p1") []
    (Storage.saveFormOffline 2 (formRow "f2" "p2") []
       (Storage.saveFormOffline 1 (formRow "f3" "p1") [] Storage.emptyDatabase)).

(** The columns of a remote row that the Teable push never writes. *)
Definition sameSubmissionColumns (a b : Remote.Row) : Prop :=
  Remote.id b = Remote.id a
  /\ Remote.form_id b = Remote.form_id a
  /\ Remote.user_id b = Remote.user_id a
  /\ Remote.data b = Remote.data a
  /\ Remote.created_at b = Remote.created_at a.

(** A row that has not been pushed to Teable, and a table of two rows. *)
Definition unpushedRow : Remote.Row :=
  {| Remote.id := "sub_9";
     Remote.form_id := "f1";
     Remote.user_id := None;
     Remote.data := JS.JObj [];
     Remote.created_at := 90;
     Remote.synced_to_teable := false;
     Remote.teable_record_id := None;
     Remote.sync_error := Some "Teable sync failed: 500" |}.

Definition twoRows : Remote.table := [otherRow; unpushedRow].

(** Every push is accepted by Teable and its bookkeeping stored. *)
Definition teableUp : TeableSync.Env :=
  {| TeableSync.queryError := None;
     TeableSync.filteredByProject := [];
     TeableSync.pushOf := fun i => Teable.Pushed (Some ("rec_" ++ i)) true |}.

(** [navigator.onLine] never becomes true along the trace. *)
Definition staysOffline (trace : list Listener.Event) : Prop :=
  Forall (fun e => e <> Listener.NavigatorOnLine true) trace.

(** The Teable types [typeMap] holds. *)
Definition teableTypes : list string :=
  ["singleLineText"; "number"; "date"; "longText"; "attachment";
   "singleSelect"; "multipleSelect"].

(** The test [findAllPotentialGeometryFields] applies when it has no sample
    record. *)
Definition looksGeometric (field : TeableField.t) : bool :=
  TeableApi.isGeoType field
  || (TeableApi.isTextType field && TeableApi.hasGeoName field).

(** Fields of a Teable table. *)
Definition teableField (i name type : string) : TeableField.t :=
  {| TeableField.id := i; TeableField.name := name; TeableField.type := type;
     TeableField.options := None |}.

Definition sampleFields : list TeableField.t :=
  [teableField "fld1" "Latitude" "number";
   teableField "fld2" "Site" "singleLineText";
   teableField "fld3" "Where" "GeoPoint"].

(** A sample record without values. *)
Definition emptyRecord : TeableRecord.t :=
  {| TeableRecord.id := "rec1"; TeableRecord.fields := [];
     TeableRecord.createdTime := None; TeableRecord.lastModifiedTime := None |}.

(** The listener is offline and idle. *)
Definition idleOffline (s : Listener.State) : Prop :=
  Listener.online s = false /\ Listener.syncInProgress s = false
  /\ Listener.listenerPasses s = 0.

(** The dashboard counts nothing as pending, "Sync Now" is not on the
    screen and no pass of [handleSync] is in flight. *)
Definition neverOffered (s : Listener.State) : Prop :=
  Listener.pendingCount (Listener.dashboard s) = 0
  /\ Listener.buttonShown (Listener.dashboard s) = false
  /\ Listener.manualPasses s = 0.

(** The row [handleSubmit] inserts when online. *)
Definition insertedRow (serverId formId : string) (userId : option string)
           (values : JS.Json) (createdAt : Z) : Remote.Row :=
  {| Remote.id := serverId;
     Remote.form_id := formId;
     Remote.user_id := userId;
     Remote.data := values;
     Remote.created_at := createdAt;
     Remote.synced_to_teable := false;
     Remote.teable_record_id := None;
     Remote.sync_error := None |}.

(** * Facts *)

(** ** Facts about object stores *)

Module IDBFacts.
Import IDB.

Section ObjectStore.

Variable V : Type.
Implicit Types s : store V.

(** *** Facts about keys *)

Lemma compare_Eq k k' : String_as_OT.compare k k' = Eq -> k = k'.
Proof.
  destruct (String_as_OT.compare_spec k k'); congruence.
Qed.

Lemma compare_Gt k k' : String_as_OT.compare k k' = Gt -> String_as_OT.lt k' k.
Proof.
  destruct (String_as_OT.compare_spec k k'); congruence.
Qed.

Lemma lt_neq k k' : String_as_OT.lt k k' -> k <> k'.
Proof.
  intros H ->. exact (RelationClasses.StrictOrder_Irreflexive k' H).
Qed.

Lemma lt_trans k1 k2 k3 :
  String_as_OT.lt k1 k2 -> String_as_OT.lt k2 k3 -> String_as_OT.lt k1 k3.
Proof. apply RelationClasses.StrictOrder_Transitive. Qed.

(** *** get, insert, delete *)

Lemma get_insert_same k v s : get k (insert k v s) = Some v.
Proof.
  induction s as [|[k' v'] rest IH]; simpl.
  - now rewrite String.eqb_refl.
  - destruct (String_as_OT.compare k k') eqn:E; simpl.
    + now rewrite String.eqb_refl.
    + now rewrite String.eqb_refl.
    + apply compare_Gt, lt_neq in E.
      destruct (String.eqb_spec k k'); [congruence | exact IH].
Qed.

Lemma get_insert_other k k0 v s : k0 <> k -> get k0 (insert k v s) = get k0 s.
Proof.
  intros Hne. induction s as [|[k' v'] rest IH]; simpl.
  - destruct (String.eqb_spec k0 k); [congruence | reflexivity].
  - destruct (String_as_OT.compare k k') eqn:E; simpl.
    + apply compare_Eq in E. subst k'.
      destruct (String.eqb_spec k0 k); [congruence | reflexivity].
    + destruct (String.eqb_spec k0 k); [congruence | reflexivity].
    + destruct (String.eqb_spec k0 k'); [reflexivity | exact IH].
Qed.

Lemma get_delete_same k s : get k (delete k s) = None.
Proof.
  induction s as [|[k' v'] rest IH]; simpl; trivial.
  destruct (String.eqb_spec k k') as [->|Hne]; trivial.
  simpl. destruct (String.eqb_spec k k'); [congruence | exact IH].
Qed.

Lemma get_delete_other k k0 s : k0 <> k -> get k0 (delete k s) = get k0 s.
Proof.
  intros Hne. induction s as [|[k' v'] rest IH]; simpl; trivial.
  destruct (String.eqb_spec k k') as [->|Hk].
  - destruct (String.eqb_spec k0 k'); [congruence | exact IH].
  - simpl. destruct (String.eqb_spec k0 k'); [reflexivity | exact IH].
Qed.

Lemma delete_absent k s : get k s = None -> delete k s = s.
Proof.
  induction s as [|[k' v'] rest IH]; simpl; trivial.
  destruct (String.eqb_spec k k'); [discriminate|].
  intros H. now rewrite IH.
Qed.

Lemma get_None_keys k s : get k s = None <-> ~ In k (keys s).
Proof.
  induction s as [|[k' v'] rest IH]; simpl.
  - tauto.
  - destruct (String.eqb_spec k k') as [->|Hne].
    + split; [discriminate | tauto].
    + rewrite IH. split; [intros H [E|HI]; [congruence | tauto] | tauto].
Qed.

Lemma get_Some_In k v s : get k s = Some v -> In (k, v) s.
Proof.
  induction s as [|[k' v'] rest IH]; simpl; [discriminate|].
  destruct (String.eqb_spec k k') as [->|Hne].
  - intros [= ->]. now left.
  - intros H. right. auto.
Qed.

Lemma keys_insert k v s k0 :
  In k0 (keys (insert k v s)) <-> k0 = k \/ In k0 (keys s).
Proof.
  induction s as [|[k' v'] rest IH]; simpl.
  - intuition.
  - destruct (String_as_OT.compare k k') eqn:E; simpl.
    + apply compare_Eq in E. subst k'. intuition.
    + intuition.
    + rewrite IH. intuition.
Qed.

Lemma keys_delete k s k0 :
  In k0 (keys (delete k s)) <-> k0 <> k /\ In k0 (keys s).
Proof.
  induction s as [|[k' v'] rest IH]; simpl.
  - tauto.
  - destruct (String.eqb_spec k k') as [->|Hne]; simpl.
    + rewrite IH. intuition congruence.
    + rewrite IH. intuition congruence.
Qed.

(** *** Well-formedness is kept *)

Lemma sorted_insert k v s : sorted s -> sorted (insert k v s).
Proof.
  unfold sorted. induction s as [|[k' v'] rest IH]; simpl; intros Hs.
  - constructor; constructor.
  - apply StronglySorted_inv in Hs. destruct Hs as [Hrest Hall].
    destruct (String_as_OT.compare k k') eqn:E; simpl.
    + apply compare_Eq in E. subst k'. now constructor.
    + constructor.
      * now constructor.
      * constructor; [exact E|].
        eapply Forall_impl; [|exact Hall]. intros a Ha.
        eapply lt_trans; eauto.
    + constructor; [auto|].
      apply Forall_forall. intros a Ha.
      apply (keys_insert k v rest a) in Ha. destruct Ha as [->|Ha].
      * now apply compare_Gt.
      * rewrite Forall_forall in Hall. auto.
Qed.

Lemma sorted_delete k s : sorted s -> sorted (delete k s).
Proof.
  unfold sorted. induction s as [|[k' v'] rest IH]; simpl; intros Hs; trivial.
  apply StronglySorted_inv in Hs. destruct Hs as [Hrest Hall].
  destruct (String.eqb k k'); simpl; auto.
  constructor; auto.
  apply Forall_forall. intros a Ha.
  apply (keys_delete k rest a) in Ha. rewrite Forall_forall in Hall.
  apply Hall, Ha.
Qed.

Lemma sorted_NoDup s : sorted s -> NoDup (keys s).
Proof.
  unfold sorted. induction 1 as [|a l Hs IH Hall]; constructor; trivial.
  intros Hin. rewrite Forall_forall in Hall.
  exact (lt_neq (Hall _ Hin) eq_refl).
Qed.

Lemma sorted_count k s : sorted s -> count_occ string_dec (keys s) k <= 1.
Proof.
  intros Hs. now apply (NoDup_count_occ string_dec), sorted_NoDup.
Qed.

Lemma length_delete k v s :
  sorted s -> get k s = Some v -> S (List.length (delete k s)) = List.length s.
Proof.
  intros Hs. apply sorted_NoDup in Hs. revert Hs.
  induction s as [|[k' v'] rest IH]; simpl; [discriminate|].
  intros Hnd. inversion Hnd as [|? ? Hnotin Hnd']; subst.
  destruct (String.eqb_spec k k') as [->|Hne].
  - intros _. f_equal. f_equal. apply delete_absent.
    now apply get_None_keys.
  - intros H. simpl. f_equal. auto.
Qed.

Lemma keys_insert_present k v s :
  sorted s -> In k (keys s) -> keys (insert k v s) = keys s.
Proof.
  unfold sorted. induction s as [|[k' v'] rest IH]; simpl; intros Hs Hin.
  - contradiction.
  - apply StronglySorted_inv in Hs. destruct Hs as [Hrest Hall].
    destruct (String_as_OT.compare k k') eqn:E; simpl.
    + apply compare_Eq in E. now subst.
    + exfalso. destruct Hin as [->|Hin].
      * exact (lt_neq E eq_refl).
      * rewrite Forall_forall in Hall.
        exact (lt_neq (lt_trans E (Hall _ Hin)) eq_refl).
    + f_equal. apply IH; trivial.
      destruct Hin as [->|Hin]; trivial.
      apply compare_Gt in E. exfalso. exact (lt_neq E eq_refl).
Qed.

Lemma length_insert_present k v v0 s :
  sorted s -> get k s = Some v0 -> List.length (insert k v s) = List.length s.
Proof.
  intros Hs Hg.
  assert (Hin : In k (keys s)).
  { destruct (in_dec string_dec k (keys s)) as [H|H]; trivial.
    apply get_None_keys in H. congruence. }
  pose proof (@keys_insert_present k v s Hs Hin) as E.
  apply (f_equal (@List.length string)) in E.
  unfold keys in E. now rewrite !length_map in E.
Qed.

(** *** Index lookups keep the store's order *)

Lemma getAllFromIndex_In ip q s v :
  In v (getAllFromIndex ip q s) -> In v (records s) /\ inIndex ip q v = true.
Proof. unfold getAllFromIndex. apply filter_In. Qed.

Lemma sorted_filter_keys (p : string * V -> bool) s :
  sorted s -> sorted (filter p s).
Proof.
  unfold sorted. induction s as [|kv rest IH]; simpl; intros Hs; trivial.
  apply StronglySorted_inv in Hs. destruct Hs as [Hrest Hall].
  destruct (p kv); simpl; auto.
  constructor; auto.
  apply Forall_forall. intros a Ha. rewrite Forall_forall in Hall.
  apply Hall. unfold keys in *. apply in_map_iff in Ha.
  destruct Ha as [x [Hx Hin]]. apply filter_In in Hin.
  apply in_map_iff. exists x. tauto.
Qed.

(** *** Stores with in-line keys *)

Variable keyPath : V -> string.

Local Abbreviation inline := (IDB.inline keyPath).
Local Abbreviation wf := (IDB.wf keyPath).
Local Abbreviation put := (IDB.put keyPath).

Lemma inline_insert v s : inline s -> inline (insert (keyPath v) v s).
Proof.
  unfold inline. induction s as [|[k' v'] rest IH]; simpl; intros Hs.
  - constructor; trivial.
  - inversion Hs; subst.
    destruct (String_as_OT.compare (keyPath v) k'); constructor; simpl; auto.
Qed.

Lemma inline_delete k s : inline s -> inline (delete k s).
Proof.
  unfold inline. induction s as [|[k' v'] rest IH]; simpl; intros Hs; trivial.
  inversion Hs; subst. destruct (String.eqb k k'); auto.
Qed.

Lemma wf_nil : wf [].
Proof. split; constructor. Qed.

Lemma wf_put v s : wf s -> wf (put v s).
Proof.
  intros [H1 H2]. split; [now apply sorted_insert | now apply inline_insert].
Qed.

Lemma wf_delete k s : wf s -> wf (delete k s).
Proof.
  intros [H1 H2]. split; [now apply sorted_delete | now apply inline_delete].
Qed.

Lemma getAllFromIndex_sorted ip q s :
  wf s ->
  StronglySorted String_as_OT.lt (map keyPath (getAllFromIndex ip q s)).
Proof.
  intros [Hs Hi].
  pose proof (sorted_filter_keys (fun kv => inIndex ip q (snd kv)) Hs) as H.
  unfold sorted, keys in H. unfold getAllFromIndex, records.
  assert (E : map keyPath (filter (inIndex ip q) (map snd s))
              = map fst (filter (fun kv => inIndex ip q (snd kv)) s)).
  { clear H Hs. induction s as [|[k v] rest IH]; simpl; trivial.
    inversion Hi as [|? ? Hk Hrest]; subst. simpl in Hk.
    destruct (inIndex ip q v); simpl; rewrite (IH Hrest); congruence. }
  now rewrite E.
Qed.

End ObjectStore.

End IDBFacts.

(** ** Facts about the local database *)

Module OfflineFacts.
Import Offline.

Lemma wf_emptyDB : wf emptyDB.
Proof. split; apply IDBFacts.wf_nil. Qed.

Lemma wf_queueSubmission now row db : wf db -> wf (queueSubmission now row db).
Proof. intros [H1 H2]. split; simpl; [now apply IDBFacts.wf_put | exact H2]. Qed.

Lemma wf_markSubmissionSynced i db : wf db -> wf (markSubmissionSynced i db).
Proof.
  intros [H1 H2]. unfold markSubmissionSynced.
  destruct (IDB.get i (submissions db)); [|now split].
  split; simpl; [now apply IDBFacts.wf_put | exact H2].
Qed.

Lemma wf_updateSubmissionSyncError i e db :
  wf db -> wf (updateSubmissionSyncError i e db).
Proof.
  intros [H1 H2]. unfold updateSubmissionSyncError.
  destruct (IDB.get i (submissions db)); [|now split].
  split; simpl; [now apply IDBFacts.wf_put | exact H2].
Qed.

Lemma wf_deleteSubmission i db : wf db -> wf (deleteSubmission i db).
Proof. intros [H1 H2]. split; simpl; [now apply IDBFacts.wf_delete | exact H2]. Qed.

Lemma wf_saveFormProgress now f d db : wf db -> wf (saveFormProgress now f d db).
Proof. intros [H1 H2]. split; simpl; [exact H1 | now apply IDBFacts.wf_put]. Qed.

Lemma wf_clearFormProgress f db : wf db -> wf (clearFormProgress f db).
Proof. intros [H1 H2]. split; simpl; [exact H1 | now apply IDBFacts.wf_delete]. Qed.

(** A record read under a key carries that key. *)
Lemma get_inline (V : Type) (keyPath : V -> string) k v (s : IDB.store V) :
  IDB.inline keyPath s -> IDB.get k s = Some v -> keyPath v = k.
Proof.
  intros Hi Hg. apply IDBFacts.get_Some_In in Hg.
  unfold IDB.inline in Hi. rewrite Forall_forall in Hi.
  symmetry. exact (Hi _ Hg).
Qed.

Lemma get_submission_id i s db :
  wf db -> IDB.get i (submissions db) = Some s -> Submission.id s = i.
Proof. intros [[_ Hi] _]. now apply get_inline. Qed.

(** What each operation does to a lookup in [submissions]. *)

Lemma get_markSubmissionSynced_other i k db :
  wf db -> k <> i ->
  IDB.get k (submissions (markSubmissionSynced i db)) = IDB.get k (submissions db).
Proof.
  intros Hwf Hne. unfold markSubmissionSynced.
  destruct (IDB.get i (submissions db)) as [s|] eqn:E; trivial.
  simpl. unfold IDB.put. simpl. apply IDBFacts.get_insert_other.
  rewrite (get_submission_id _ Hwf E). exact Hne.
Qed.

Lemma get_updateSubmissionSyncError_other i e k db :
  wf db -> k <> i ->
  IDB.get k (submissions (updateSubmissionSyncError i e db)) = IDB.get k (submissions db).
Proof.
  intros Hwf Hne. unfold updateSubmissionSyncError.
  destruct (IDB.get i (submissions db)) as [s|] eqn:E; trivial.
  simpl. unfold IDB.put. simpl. apply IDBFacts.get_insert_other.
  rewrite (get_submission_id _ Hwf E). exact Hne.
Qed.

Lemma get_updateSubmissionSyncError_same i e s db :
  wf db -> IDB.get i (submissions db) = Some s ->
  IDB.get i (submissions (updateSubmissionSyncError i e db)) = Some (failedOnce e s).
Proof.
  intros Hwf E. unfold updateSubmissionSyncError. rewrite E.
  cbn [submissions]. unfold IDB.put.
  change (Submission.id (failedOnce e s)) with (Submission.id s).
  rewrite (get_submission_id _ Hwf E).
  apply IDBFacts.get_insert_same.
Qed.

Lemma get_markSubmissionSynced_None i k db :
  wf db -> IDB.get k (submissions db) = None ->
  IDB.get k (submissions (markSubmissionSynced i db)) = None.
Proof.
  intros Hwf Hk. destruct (string_dec k i) as [->|Hne].
  - unfold markSubmissionSynced. now rewrite Hk.
  - now rewrite get_markSubmissionSynced_other.
Qed.

Lemma get_updateSubmissionSyncError_None i e k db :
  wf db -> IDB.get k (submissions db) = None ->
  IDB.get k (submissions (updateSubmissionSyncError i e db)) = None.
Proof.
  intros Hwf Hk. destruct (string_dec k i) as [->|Hne].
  - unfold updateSubmissionSyncError. now rewrite Hk.
  - now rewrite get_updateSubmissionSyncError_other.
Qed.

Lemma get_deleteSubmission_None i k db :
  IDB.get k (submissions db) = None ->
  IDB.get k (submissions (deleteSubmission i db)) = None.
Proof.
  intros Hk. simpl. destruct (string_dec k i) as [->|Hne].
  - apply IDBFacts.get_delete_same.
  - now rewrite IDBFacts.get_delete_other.
Qed.

Lemma length_markSubmissionSynced i db :
  wf db -> queueLength (markSubmissionSynced i db) = queueLength db.
Proof.
  intros Hwf. unfold markSubmissionSynced, queueLength.
  destruct (IDB.get i (submissions db)) as [s|] eqn:E; trivial.
  simpl. unfold IDB.put. simpl. rewrite (get_submission_id _ Hwf E).
  destruct Hwf as [[Hs _] _]. eapply IDBFacts.length_insert_present; eauto.
Qed.

(** A stored record is read back under its identifier. *)
Lemma get_stored (V : Type) (keyPath : V -> string) (s : IDB.store V) (v : V) :
  IDB.wf keyPath s -> In v (IDB.records s) -> IDB.get (keyPath v) s = Some v.
Proof.
  intros [Hs Hi] Hin. apply IDBFacts.sorted_NoDup in Hs.
  unfold IDB.records in Hin. apply in_map_iff in Hin.
  destruct Hin as [[k v0] [E Hin]]. simpl in E. subst v0.
  unfold IDB.inline in Hi. rewrite Forall_forall in Hi.
  pose proof (Hi _ Hin) as Hk. simpl in Hk. subst k.
  clear Hi. revert Hs Hin. induction s as [|[k' v'] rest IH]; simpl.
  - intros _ [].
  - intros Hnd Hin. inversion Hnd as [|? ? Hnotin Hnd']; subst.
    destruct (String.eqb_spec (keyPath v) k') as [E|Hne].
    + destruct Hin as [Hin|Hin]; [congruence|].
      exfalso. apply Hnotin. rewrite <- E.
      unfold IDB.keys. apply in_map_iff. now exists (keyPath v, v).
    + destruct Hin as [Hin|Hin]; [congruence | auto].
Qed.

(** A record with a boolean [synced] is not in the index [by-sync-status]:
    the lookup at key [0] finds no record. *)
Lemma getPendingSubmissions_nil (db : DB) :
  getPendingSubmissions db = [].
Proof.
  unfold getPendingSubmissions, IDB.getAllFromIndex.
  induction (IDB.records (submissions db)) as [|s rest IH]; trivial.
Qed.

End OfflineFacts.

(** ** Facts about the remote table *)

(** ** Facts about the remote table *)

Module RemoteFacts.
Import Remote.

Lemma In_ids_upsert v t i :
  In i (ids (upsert v t)) <-> i = id v \/ In i (ids t).
Proof.
  induction t as [|r rest IH]; simpl.
  - intuition.
  - destruct (String.eqb_spec (id r) (id v)) as [E|Hne]; simpl.
    + rewrite E. intuition.
    + rewrite IH. intuition.
Qed.

Lemma wf_upsert v t : wf t -> wf (upsert v t).
Proof.
  unfold wf. induction t as [|r rest IH]; simpl; intros Hnd.
  - repeat constructor. intros [].
  - inversion Hnd as [|? ? Hnotin Hrest]; subst.
    destruct (String.eqb_spec (id r) (id v)) as [E|Hne]; simpl.
    + now constructor.
    + constructor; [|auto].
      intros Hin. apply In_ids_upsert in Hin. destruct Hin as [Hin|Hin].
      * congruence.
      * contradiction.
Qed.

Lemma ids_updateWhereId f i t :
  (forall r, id (f r) = id r) -> ids (updateWhereId f i t) = ids t.
Proof.
  intros Hf. unfold ids, updateWhereId. rewrite map_map.
  apply map_ext. intros r. destruct (String.eqb (id r) i); auto.
Qed.

Lemma find_upsert v t :
  find (id v) (upsert v t)
  = Some (match find (id v) t with Some old => merge v old | None => v end).
Proof.
  unfold find. induction t as [|r rest IH]; simpl.
  - now rewrite String.eqb_refl.
  - destruct (String.eqb_spec (id r) (id v)) as [E|Hne]; simpl.
    + now rewrite E, String.eqb_refl.
    + destruct (String.eqb_spec (id r) (id v)); [contradiction | exact IH].
Qed.

Lemma find_updateWhereId f i t :
  (forall r, id (f r) = id r) ->
  find i (updateWhereId f i t) = option_map f (find i t).
Proof.
  intros Hf. unfold find, updateWhereId. induction t as [|r rest IH]; simpl; trivial.
  destruct (String.eqb_spec (id r) i) as [E|Hne].
  - rewrite Hf, E, String.eqb_refl. reflexivity.
  - destruct (String.eqb_spec (id r) i); [contradiction | exact IH].
Qed.

Lemma countId_one i t : wf t -> In i (ids t) -> countId i t = 1.
Proof.
  intros Hnd Hin. unfold countId. now apply NoDup_count_occ'.
Qed.

(** The Teable push writes Teable columns only. *)
Lemma ids_syncSubmissionToTeable o i t :
  ids (snd (Teable.syncSubmissionToTeable o i t)) = ids t.
Proof.
  destruct o as [recordId [|] | | e [|] | e]; simpl; trivial;
    now apply ids_updateWhereId.
Qed.

(** Upserting an identifier twice leaves one row for it. *)
Lemma upsert_twice v v' t :
  wf t -> id v' = id v -> countId (id v) (upsert v' (upsert v t)) = 1.
Proof.
  intros Hwf E. apply countId_one.
  - now apply wf_upsert, wf_upsert.
  - apply In_ids_upsert. right. apply In_ids_upsert. now left.
Qed.

End RemoteFacts.

(** ** Facts about one turn of the loop, and about the loop *)

Module SyncFacts.
Import Sync.

Lemma syncItem_exhausted env s r w :
  exhausted s = true ->
  syncItem env s r w
  = (countFailure (maxAttemptsMessage (Submission.id s)) r, w).
Proof.
  unfold exhausted, syncItem, tryBlock. intros ->. reflexivity.
Qed.

Lemma tryBlock_written env s r w :
  exhausted s = false ->
  upsertAt env (List.length (writeLog w)) = Written ->
  tryBlock env s r w
  = (JS.Normal, countSuccess r,
     {| db := Offline.deleteSubmission (Submission.id s)
                (Offline.markSubmissionSynced (Submission.id s) (db w));
        remote := snd (Teable.syncSubmissionToTeable
                         (teableAt env (List.length (writeLog w)))
                         (Submission.id s)
                         (Remote.upsert (Remote.ofSubmission s) (remote w)));
        writeLog := (writeLog w ++ [(Submission.id s, Written)])%list |}).
Proof.
  unfold exhausted, tryBlock. intros -> ->. simpl.
  destruct (Teable.syncSubmissionToTeable _ _ _) as [pushed remote'].
  reflexivity.
Qed.

Lemma syncItem_written env s r w :
  exhausted s = false ->
  upsertAt env (List.length (writeLog w)) = Written ->
  syncItem env s r w
  = (countSuccess r,
     {| db := Offline.deleteSubmission (Submission.id s)
                (Offline.markSubmissionSynced (Submission.id s) (db w));
        remote := snd (Teable.syncSubmissionToTeable
                         (teableAt env (List.length (writeLog w)))
                         (Submission.id s)
                         (Remote.upsert (Remote.ofSubmission s) (remote w)));
        writeLog := (writeLog w ++ [(Submission.id s, Written)])%list |}).
Proof.
  intros H1 H2. unfold syncItem. now rewrite tryBlock_written.
Qed.

Lemma syncItem_failed env s r w e :
  exhausted s = false ->
  responseError (upsertAt env (List.length (writeLog w))) = Some e ->
  syncItem env s r w
  = (countFailure (failureMessage (Submission.id s) (Sync.errorMessageOf e)) r,
     {| db := Offline.updateSubmissionSyncError (Submission.id s)
                (Sync.errorMessageOf e) (db w);
        remote := afterUpsert (upsertAt env (List.length (writeLog w))) s (remote w);
        writeLog := (writeLog w
                     ++ [(Submission.id s, upsertAt env (List.length (writeLog w)))])%list |}).
Proof.
  unfold exhausted, syncItem, tryBlock. intros -> ->. reflexivity.
Qed.

Lemma syncItem_Turn env s r w : Turn env s r w (syncItem env s r w).
Proof.
  destruct (exhausted s) eqn:Hex.
  - rewrite syncItem_exhausted by trivial. now constructor.
  - destruct (upsertAt env (List.length (writeLog w))) as [|e|e] eqn:Ha.
    + rewrite syncItem_written by trivial. now constructor.
    + assert (He : responseError (upsertAt env (List.length (writeLog w))) = Some e)
        by now rewrite Ha.
      rewrite (syncItem_failed env s r w Hex He). now apply TurnFailed.
    + assert (He : responseError (upsertAt env (List.length (writeLog w))) = Some e)
        by now rewrite Ha.
      rewrite (syncItem_failed env s r w Hex He). now apply TurnFailed.
Qed.

(** *** What a turn keeps *)

Lemma syncItem_wf env s r w :
  Offline.wf (db w) -> Offline.wf (db (snd (syncItem env s r w))).
Proof.
  intros Hwf. destruct (syncItem_Turn env s r w); simpl; trivial.
  - now apply OfflineFacts.wf_deleteSubmission, OfflineFacts.wf_markSubmissionSynced.
  - now apply OfflineFacts.wf_updateSubmissionSyncError.
Qed.

Lemma syncItem_remote_wf env s r w :
  Remote.wf (remote w) -> Remote.wf (remote (snd (syncItem env s r w))).
Proof.
  intros Hwf. destruct (syncItem_Turn env s r w); simpl; trivial.
  - unfold Remote.wf. rewrite RemoteFacts.ids_syncSubmissionToTeable.
    now apply RemoteFacts.wf_upsert.
  - unfold afterUpsert. destruct (applied _); trivial.
    now apply RemoteFacts.wf_upsert.
Qed.

Lemma syncItem_absent env s r w i :
  Offline.wf (db w) ->
  IDB.get i (Offline.submissions (db w)) = None ->
  IDB.get i (Offline.submissions (db (snd (syncItem env s r w)))) = None.
Proof.
  intros Hwf Hi. destruct (syncItem_Turn env s r w); simpl; trivial.
  - apply (OfflineFacts.get_deleteSubmission_None (Submission.id s)).
    now apply OfflineFacts.get_markSubmissionSynced_None.
  - now apply OfflineFacts.get_updateSubmissionSyncError_None.
Qed.

Lemma syncItem_remote_grows env s r w i :
  In i (Remote.ids (remote w)) ->
  In i (Remote.ids (remote (snd (syncItem env s r w)))).
Proof.
  intros Hi. destruct (syncItem_Turn env s r w); simpl; trivial.
  - rewrite RemoteFacts.ids_syncSubmissionToTeable.
    apply RemoteFacts.In_ids_upsert. now right.
  - unfold afterUpsert. destruct (applied _); trivial.
    apply RemoteFacts.In_ids_upsert. now right.
Qed.

Lemma syncItem_other env s r w k :
  Offline.wf (db w) -> k <> Submission.id s ->
  IDB.get k (Offline.submissions (db (snd (syncItem env s r w))))
  = IDB.get k (Offline.submissions (db w)).
Proof.
  intros Hwf Hne. destruct (syncItem_Turn env s r w); simpl; trivial.
  - rewrite IDBFacts.get_delete_other by trivial.
    now apply OfflineFacts.get_markSubmissionSynced_other.
  - now apply OfflineFacts.get_updateSubmissionSyncError_other.
Qed.

Lemma syncItem_drafts env s r w :
  Offline.formProgress (db (snd (syncItem env s r w))) = Offline.formProgress (db w).
Proof.
  destruct (syncItem_Turn env s r w); simpl; trivial.
  - unfold Offline.markSubmissionSynced.
    now destruct (IDB.get _ (Offline.submissions (db w))).
  - unfold Offline.updateSubmissionSyncError.
    now destruct (IDB.get _ (Offline.submissions (db w))).
Qed.

(** *** The loop *)

Lemma syncLoop_preserves env pending (P : Results * World -> Prop) :
  (forall s r w, In s pending -> P (r, w) -> P (syncItem env s r w)) ->
  forall r w, P (r, w) -> P (syncLoop env pending r w).
Proof.
  induction pending as [|s rest IH]; simpl; intros Hstep r w HP; trivial.
  destruct (syncItem env s r w) as [r1 w1] eqn:E.
  apply IH.
  - intros. apply Hstep; auto.
  - rewrite <- E. apply Hstep; auto.
Qed.

Lemma syncLoop_wf env pending r w :
  Offline.wf (db w) -> Remote.wf (remote w) ->
  Offline.wf (db (snd (syncLoop env pending r w)))
  /\ Remote.wf (remote (snd (syncLoop env pending r w))).
Proof.
  intros H1 H2.
  apply (syncLoop_preserves env pending
           (fun x => Offline.wf (db (snd x)) /\ Remote.wf (remote (snd x)))).
  - simpl. intros s r0 w0 _ [Ha Hb]. split.
    + now apply syncItem_wf.
    + now apply syncItem_remote_wf.
  - now split.
Qed.

Lemma syncLoop_absent env pending r w i :
  Offline.wf (db w) ->
  IDB.get i (Offline.submissions (db w)) = None ->
  IDB.get i (Offline.submissions (db (snd (syncLoop env pending r w)))) = None.
Proof.
  intros H1 H2.
  apply (syncLoop_preserves env pending
           (fun x => Offline.wf (db (snd x))
                     /\ IDB.get i (Offline.submissions (db (snd x))) = None)).
  - simpl. intros s r0 w0 _ [Ha Hb]. split.
    + now apply syncItem_wf.
    + now apply syncItem_absent.
  - now split.
Qed.

Lemma syncLoop_remote_grows env pending r w i :
  In i (Remote.ids (remote w)) ->
  In i (Remote.ids (remote (snd (syncLoop env pending r w)))).
Proof.
  intros H.
  apply (syncLoop_preserves env pending
           (fun x => In i (Remote.ids (remote (snd x))))); trivial.
  simpl. intros s r0 w0 _ Ha. now apply syncItem_remote_grows.
Qed.

Lemma syncLoop_drafts env pending r w :
  Offline.formProgress (db (snd (syncLoop env pending r w)))
  = Offline.formProgress (db w).
Proof.
  apply (syncLoop_preserves env pending
           (fun x => Offline.formProgress (db (snd x)) = Offline.formProgress (db w)));
    trivial.
  simpl. intros s r0 w0 _ Ha. now rewrite syncItem_drafts.
Qed.

(** The writes a loop adds to the log, and its tallies. *)
Lemma syncLoop_summary env pending :
  forall r w,
  exists new,
    writeLog (snd (syncLoop env pending r w)) = (writeLog w ++ new)%list
    /\ map fst new = map Submission.id (attempted pending)
    /\ success (fst (syncLoop env pending r w)) = success r + written new
    /\ failed (fst (syncLoop env pending r w))
       = failed r + skipped pending + unwritten new
    /\ List.length (errors (fst (syncLoop env pending r w)))
       = List.length (errors r) + skipped pending + unwritten new.
Proof.
  unfold attempted, skipped, written, unwritten.
  induction pending as [|s rest IH]; intros r w.
  - exists []. simpl. rewrite app_nil_r. repeat split; lia.
  - simpl. destruct (syncItem_Turn env s r w) as [Hex | Hex Ha | e Hex Ha].
    + destruct (IH (countFailure (maxAttemptsMessage (Submission.id s)) r) w)
        as [new (H1 & H2 & H3 & H4 & H5)].
      exists new. rewrite Hex. simpl.
      rewrite H1, H2, H3, H4, H5. simpl. rewrite length_app. simpl.
      repeat split; lia.
    + match goal with |- context [syncLoop env rest ?r1 ?w1] =>
        destruct (IH r1 w1) as [new (H1 & H2 & H3 & H4 & H5)] end.
      exists ((Submission.id s, Written) :: new). rewrite Hex. simpl.
      rewrite H1, H2, H3, H4, H5. simpl. rewrite <- app_assoc. simpl.
      repeat split; lia.
    + match goal with |- context [syncLoop env rest ?r1 ?w1] =>
        destruct (IH r1 w1) as [new (H1 & H2 & H3 & H4 & H5)] end.
      exists ((Submission.id s, upsertAt env (List.length (writeLog w))) :: new).
      rewrite Hex. simpl.
      rewrite H1, H2, H3, H4, H5. simpl. rewrite <- app_assoc, length_app. simpl.
      assert (Hw : isWritten (Submission.id s, upsertAt env (List.length (writeLog w)))
                   = false).
      { unfold isWritten. simpl.
        destruct (upsertAt env (List.length (writeLog w))); simpl in Ha;
          [discriminate | reflexivity | reflexivity]. }
      rewrite Hw. simpl. repeat split; lia.
Qed.

Lemma writesOf_app w w' new :
  writeLog w' = (writeLog w ++ new)%list -> writesOf w w' = new.
Proof.
  intros E. unfold writesOf. rewrite E.
  rewrite skipn_app, skipn_all, Nat.sub_diag. reflexivity.
Qed.

End SyncFacts.

(** ** A written submission leaves the queue *)

Module DrainFacts.
Import Sync SyncFacts.

Lemma drain_syncLoop env pending w :
  drain env pending w = syncLoop env pending noResults w.
Proof. unfold drain. now destruct pending. Qed.

(** After a turn, the identifier of a write answered [Written] is out of
    the queue and in the remote table. *)
Lemma syncItem_written_effect env s r w :
  exists new,
    writeLog (snd (syncItem env s r w)) = (writeLog w ++ new)%list
    /\ forall i, In (i, Written) new ->
         IDB.get i (Offline.submissions (db (snd (syncItem env s r w)))) = None
         /\ In i (Remote.ids (remote (snd (syncItem env s r w)))).
Proof.
  destruct (syncItem_Turn env s r w) as [Hex | Hex Ha | e Hex Ha]; simpl.
  - exists []. rewrite app_nil_r. split; [reflexivity | intros i []].
  - exists [(Submission.id s, Written)]. split; [reflexivity|].
    intros i [[= <-] | []]. split.
    + apply IDBFacts.get_delete_same.
    + rewrite RemoteFacts.ids_syncSubmissionToTeable.
      apply RemoteFacts.In_ids_upsert. now left.
  - exists [(Submission.id s, upsertAt env (List.length (writeLog w)))].
    split; [reflexivity|].
    intros i [[= _ E] | []]. rewrite E in Ha. discriminate.
Qed.

Lemma syncLoop_written env pending :
  forall r w,
    Offline.wf (db w) ->
    exists new,
      writeLog (snd (syncLoop env pending r w)) = (writeLog w ++ new)%list
      /\ forall i, In (i, Written) new ->
           IDB.get i (Offline.submissions (db (snd (syncLoop env pending r w)))) = None
           /\ In i (Remote.ids (remote (snd (syncLoop env pending r w)))).
Proof.
  induction pending as [|s rest IH]; intros r w Hwf.
  - exists []. simpl. rewrite app_nil_r. split; [reflexivity | intros i []].
  - simpl.
    destruct (syncItem_written_effect env s r w) as [new1 [Hlog1 Heff1]].
    pose proof (@syncItem_wf env s r w Hwf) as Hwf1.
    destruct (syncItem env s r w) as [r1 w1]. simpl in *.
    destruct (IH r1 w1 Hwf1) as [new2 [Hlog2 Heff2]].
    exists (new1 ++ new2)%list. split.
    + now rewrite Hlog2, Hlog1, app_assoc.
    + intros i Hin. apply in_app_or in Hin. destruct Hin as [Hin|Hin].
      * destruct (Heff1 i Hin) as [Hq Hr]. split.
        -- now apply syncLoop_absent.
        -- now apply syncLoop_remote_grows.
      * now apply Heff2.
Qed.

(** With the index as [getDB] declares it, a pass fetches no item. *)
Lemma syncPendingSubmissions_fetches_nothing env w :
  syncPendingSubmissions env w = (noResults, w).
Proof.
  unfold syncPendingSubmissions.
  now rewrite OfflineFacts.getPendingSubmissions_nil.
Qed.

Lemma afterPasses_same env n w : afterPasses env n w = w.
Proof.
  induction n as [|n IH]; simpl; trivial.
  now rewrite syncPendingSubmissions_fetches_nothing.
Qed.

Lemma writesOf_same w : writesOf w w = [].
Proof. unfold writesOf. apply skipn_all. Qed.

End DrainFacts.

(** ** The attempt ceiling *)

Module CeilingFacts.
Import Sync SyncFacts.

Lemma exhausted_ge s : exhausted s = true <-> (Submission.syncAttempts s >= 5)%Z.
Proof.
  unfold exhausted. destruct (Z.geb_spec (Submission.syncAttempts s) 5);
    split; intros; trivial; (discriminate || lia).
Qed.

(** A turn writes for its own item only, and only below the ceiling. *)
Lemma syncItem_log env s r w :
  exists new,
    writeLog (snd (syncItem env s r w)) = (writeLog w ++ new)%list
    /\ forall k, In k (map fst new) -> k = Submission.id s /\ exhausted s = false.
Proof.
  destruct (syncItem_Turn env s r w) as [Hex | Hex Ha | e Hex Ha]; simpl.
  - exists []. rewrite app_nil_r. split; [reflexivity | intros k []].
  - exists [(Submission.id s, Written)]. split; [reflexivity|].
    intros k [<- | []]. now split.
  - exists [(Submission.id s, upsertAt env (List.length (writeLog w)))].
    split; [reflexivity|]. intros k [<- | []]. now split.
Qed.

(** A loop in which every item bearing [k] is at the ceiling neither writes
    for [k] nor touches the record stored under [k]. *)
Lemma syncLoop_skips env k pending :
  (forall s, In s pending -> Submission.id s = k -> exhausted s = true) ->
  forall r w,
    Offline.wf (db w) ->
    IDB.get k (Offline.submissions (db (snd (syncLoop env pending r w))))
    = IDB.get k (Offline.submissions (db w))
    /\ exists new,
         writeLog (snd (syncLoop env pending r w)) = (writeLog w ++ new)%list
         /\ ~ In k (map fst new).
Proof.
  induction pending as [|s rest IH]; intros Hk r w Hwf.
  - simpl. split; trivial. exists []. rewrite app_nil_r. split; [reflexivity | intros []].
  - simpl.
    assert (Hrest : forall s0, In s0 rest -> Submission.id s0 = k -> exhausted s0 = true)
      by (intros; apply Hk; simpl; auto).
    destruct (syncItem_log env s r w) as [new1 [Hlog1 Hnew1]].
    pose proof (@syncItem_wf env s r w Hwf) as Hwf1.
    assert (Hget1 : IDB.get k (Offline.submissions (db (snd (syncItem env s r w))))
                    = IDB.get k (Offline.submissions (db w))).
    { destruct (string_dec k (Submission.id s)) as [E|Hne].
      - rewrite syncItem_exhausted by (apply Hk; simpl; auto). reflexivity.
      - now apply syncItem_other. }
    destruct (syncItem env s r w) as [r1 w1]. simpl in *.
    destruct (IH Hrest r1 w1 Hwf1) as [Hget [new2 [Hlog2 Hnew2]]].
    split; [congruence|].
    exists (new1 ++ new2)%list. split.
    + now rewrite Hlog2, Hlog1, app_assoc.
    + rewrite map_app. intros Hin. apply in_app_or in Hin.
      destruct Hin as [Hin|Hin]; [|contradiction].
      destruct (Hnew1 k Hin) as [E Hex].
      rewrite (Hk s (or_introl eq_refl) (eq_sym E)) in Hex. discriminate.
Qed.

Lemma all_exhausted pending :
  Forall (fun x => (Submission.syncAttempts x >= 5)%Z) pending ->
  attempted pending = [] /\ skipped pending = List.length pending.
Proof.
  unfold attempted, skipped.
  induction 1 as [|x rest Hx Hrest IH]; simpl; [now split|].
  apply exhausted_ge in Hx. rewrite Hx. simpl.
  destruct IH as [IH1 IH2]. split; [exact IH1 | now rewrite IH2].
Qed.

End CeilingFacts.

(** ** The flag of the listener *)

Module ListenerFacts.
Import Listener.

Lemma inv_initial onLine : inv (initial onLine).
Proof. split; simpl; [lia | split; [discriminate | lia]]. Qed.

Lemma inv_step s e : inv s -> inv (step s e).
Proof.
  intros [Hle Hiff]. destruct e as [b | | outcome | | | | db | | shown]; simpl.
  - now split.
  - destruct (syncInProgress s) eqn:Hflag; simpl.
    + split; [exact Hle | now rewrite Hflag].
    + destruct (online s); simpl.
      * assert (listenerPasses s = 0).
        { destruct (listenerPasses s) as [|[|n]]; trivial; [|lia].
          destruct Hiff as [_ H]. specialize (H eq_refl). discriminate. }
        split; simpl; [lia | split; [lia | reflexivity]].
      * split; [exact Hle | now rewrite Hflag].
  - destruct (listenerPasses s) as [|n] eqn:Hn.
    + split; [lia | now rewrite Hn].
    + split; simpl; [lia | split; [discriminate | lia]].
  - now split.
  - now split.
  - now split.
  - now split.
  - destruct (buttonShown (dashboard s) && negb (buttonDisabled (dashboard s)));
      now split.
  - destruct (manualPasses s); now split.
Qed.

Lemma inv_run trace : forall s, inv s -> inv (run s trace).
Proof.
  unfold run. induction trace as [|e rest IH]; simpl; intros s Hs; trivial.
  apply IH. now apply inv_step.
Qed.

End ListenerFacts.

(** * Properties *)

(** ** A queued submission and the pass *)

(** C1.  The code does not do what the claim says.  A submission queued
    while offline is never written to the remote store and never leaves the
    queue: however many passes run and whatever the remote store would
    answer, a pass issues no remote write, ends without an error, and leaves
    the queued record and the remote table as they were.  With the
    submission sub_1 queued and a remote store that accepts every write,
    three passes leave sub_1 in the queue and no remote row under sub_1,
    where the claim has it gone from the queue and borne by one row. *)
Theorem queued_submission_is_never_synced (env : Sync.Env) (now : Z)
        (submission : Offline.SubmissionRow) (w : Sync.World) (n : nat) :
  Sync.writesOf (queuedIn now submission w)
                (afterPasses env n (queuedIn now submission w)) = []
  /\ IDB.get (Offline.row_id submission)
             (Offline.submissions
                (Sync.db (afterPasses env n (queuedIn now submission w))))
     = Some (Offline.queuedRecord now submission)
  /\ Sync.remote (afterPasses env n (queuedIn now submission w)) = Sync.remote w
  /\ fst (Sync.syncPendingSubmissions env (queuedIn now submission w))
     = {| Sync.success := 0; Sync.failed := 0; Sync.errors := [] |}
  /\ Sync.upsertAt calmEnv 0 = Sync.Written
  /\ In "sub_1"
        (IDB.keys (Offline.submissions
                     (Sync.db (afterPasses calmEnv 3 (worldOf queueWithAda)))))
  /\ Remote.countId "sub_1"
       (Sync.remote (afterPasses calmEnv 3 (worldOf queueWithAda))) = 0.
Proof.
  rewrite !DrainFacts.afterPasses_same, DrainFacts.syncPendingSubmissions_fetches_nothing.
  split; [apply DrainFacts.writesOf_same|].
  split; [apply IDBFacts.get_insert_same|].
  split; [reflexivity|]. split; [reflexivity|]. split; [reflexivity|].
  split; [simpl; auto | reflexivity].
Qed.

(** ** Listing the pending submissions *)

(** C2.  The code does not do what the claim says.  [getPendingSubmissions]
    returns no record, whatever the queue holds: the index [by-sync-status]
    is on the boolean [synced], a boolean is no key of an index, and the
    lookup asks for the number 0.  With two unsynced submissions queued at
    times 5 and 6, the list of the claim is the older one and then the newer
    one; the code returns the empty list and its pass issues no remote write
    at all, where the claim has two writes, the older submission first. *)
Theorem unsynced_submissions_are_not_listed (env : Sync.Env) (db : Offline.DB) :
  Offline.getPendingSubmissions db = []
  /\ (forall s, IDB.convertValueToKey (Offline.by_sync_status s) = None)
  /\ Forall (fun s => Submission.synced s = false)
            (IDB.records (Offline.submissions twoQueued))
  /\ listPending_spec twoQueued
     = [Offline.queuedRecord 5 firstRow; Offline.queuedRecord 6 secondRow]
  /\ Offline.getPendingSubmissions twoQueued = []
  /\ Sync.writesOf (worldOf twoQueued)
                   (snd (Sync.syncPendingSubmissions env (worldOf twoQueued))) = [].
Proof.
  split; [apply OfflineFacts.getPendingSubmissions_nil|].
  split; [reflexivity|].
  split; [repeat constructor|].
  split; [reflexivity|].
  split; [reflexivity|].
  rewrite DrainFacts.syncPendingSubmissions_fetches_nothing.
  apply DrainFacts.writesOf_same.
Qed.

(** ** The attempt ceiling *)

(** C3, as stated, fails: the pass started by "Sync Now" issues no remote
    write for a submission at the ceiling, not even when the list it drains
    holds that submission; the record stays as it was. *)
Lemma sync_now_skips_exhausted :
  Offline.wf queueWithWorn
  /\ IDB.get "sub_1" (Offline.submissions queueWithWorn) = Some worn
  /\ Sync.writeLog (snd (Dashboard.handleSync calmEnv (worldOf queueWithWorn))) = []
  /\ Sync.writeLog (snd (Sync.drain calmEnv [worn] (worldOf queueWithWorn))) = []
  /\ IDB.get "sub_1"
       (Offline.submissions
          (Sync.db (snd (Dashboard.handleSync calmEnv (worldOf queueWithWorn)))))
     = Some worn.
Proof.
  split; [|split; [|split; [|split]]]; try reflexivity.
  split; split; simpl; repeat constructor.
Qed.

(** C3, amended.  A submission whose attempt counter has reached 5 is
    excluded from every pass, whether started by the listener or by "Sync
    Now" (which runs the same [syncPendingSubmissions]): the pass issues no
    remote write for its identifier, and the record stored under that
    identifier is left exactly as it was, so it is neither changed nor
    deleted. *)
Theorem exhausted_is_skipped (env : Sync.Env) (pending : list Submission.t)
        (w : Sync.World) (k : string) :
  Offline.wf (Sync.db w) ->
  (forall s, In s pending -> Submission.id s = k ->
             (Submission.syncAttempts s >= 5)%Z) ->
  ~ In k (map fst (Sync.writesOf w (snd (Sync.drain env pending w))))
  /\ IDB.get k (Offline.submissions (Sync.db (snd (Sync.drain env pending w))))
     = IDB.get k (Offline.submissions (Sync.db w))
  /\ snd (Dashboard.handleSync env w) = snd (Sync.syncPendingSubmissions env w)
  /\ (forall s r w0,
        (Submission.syncAttempts s >= 5)%Z ->
        snd (Sync.syncItem env s r w0) = w0).
Proof.
  intros Hwf Hk. rewrite DrainFacts.drain_syncLoop.
  assert (Hk' : forall s, In s pending -> Submission.id s = k ->
                          Sync.exhausted s = true).
  { intros s Hin E. apply CeilingFacts.exhausted_ge. now apply Hk. }
  destruct (@CeilingFacts.syncLoop_skips env k pending Hk' Sync.noResults w Hwf)
    as [Hget [new [Hlog Hnew]]].
  split; [|split; [|split]].
  - now rewrite (@SyncFacts.writesOf_app _ _ _ Hlog).
  - exact Hget.
  - unfold Dashboard.handleSync.
    now destruct (Sync.syncPendingSubmissions env w).
  - intros s r w0 Hs. apply CeilingFacts.exhausted_ge in Hs.
    now rewrite SyncFacts.syncItem_exhausted.
Qed.

Lemma exhausted_is_skipped_witness :
  IDB.get "sub_1"
    (Offline.submissions
       (Sync.db (snd (Sync.drain calmEnv [fresh "sub_0" 50; worn]
                                 (worldOf queueWithWorn)))))
  = IDB.get "sub_1" (Offline.submissions queueWithWorn).
Proof.
  refine (proj1 (proj2
    (@exhausted_is_skipped calmEnv [fresh "sub_0" 50; worn] (worldOf queueWithWorn)
       "sub_1" _ _))).
  - split; split; simpl; repeat constructor.
  - intros s [<- | [<- | []]]; simpl; intros E; [discriminate | lia].
Defined.

(** ** Queueing *)

(** C4, as stated, fails: queueing an identifier that is already in the
    queue replaces the stored record; its data and creation time are those
    of the new submission. *)
Lemma queueSubmission_overwrites :
  Offline.wf queueWithAda
  /\ IDB.get "sub_1" (Offline.submissions queueWithAda) = Some queuedAda
  /\ IDB.get "sub_1"
       (Offline.submissions (Offline.queueSubmission 200 sameIdAgain queueWithAda))
     = Some (Offline.queuedRecord 200 sameIdAgain)
  /\ Offline.queuedRecord 200 sameIdAgain <> queuedAda
  /\ ~ (IDB.get "sub_1"
          (Offline.submissions (Offline.queueSubmission 200 sameIdAgain queueWithAda))
        = IDB.get "sub_1" (Offline.submissions queueWithAda)).
Proof.
  split; [|split; [|split; [|split]]].
  - split; split; simpl; repeat constructor.
  - reflexivity.
  - reflexivity.
  - discriminate.
  - simpl. discriminate.
Qed.

(** C4, amended.  [queueSubmission] stores the submission under its
    identifier with [synced = false], no attempts, no error and the current
    time, whatever the queue held under that identifier before ([put]
    replaces); the records under other identifiers, and the drafts, are left
    as they were, and the queue stays well formed. *)
Theorem queueSubmission_put (now : Z) (submission : Offline.SubmissionRow)
        (db : Offline.DB) :
  IDB.get (Offline.row_id submission)
          (Offline.submissions (Offline.queueSubmission now submission db))
  = Some (Offline.queuedRecord now submission)
  /\ Submission.synced (Offline.queuedRecord now submission) = false
  /\ Submission.syncAttempts (Offline.queuedRecord now submission) = 0%Z
  /\ (forall k, k <> Offline.row_id submission ->
        IDB.get k (Offline.submissions (Offline.queueSubmission now submission db))
        = IDB.get k (Offline.submissions db))
  /\ Offline.formProgress (Offline.queueSubmission now submission db)
     = Offline.formProgress db
  /\ (Offline.wf db -> Offline.wf (Offline.queueSubmission now submission db)).
Proof.
  split; [|split; [|split; [|split; [|split]]]]; trivial.
  - unfold Offline.queueSubmission, IDB.put. simpl. apply IDBFacts.get_insert_same.
  - intros k Hk. unfold Offline.queueSubmission, IDB.put. simpl.
    now apply IDBFacts.get_insert_other.
  - apply OfflineFacts.wf_queueSubmission.
Qed.

(** ** A failed Teable push *)

(** C5.  The code does not do what the claim says.  A pass leaves the queue
    at its length and the remote table as it was, whatever the remote store
    and Teable would answer.  In the scenario of the claim (sub_1 queued, a
    remote store that accepts the write, a Teable push that throws) the pass
    issues no remote write and no push: the queue still holds its one
    record, no row stands under sub_1 and nothing is counted as synced,
    where the claim has the queue one record shorter and the failure on the
    remote row. *)
Theorem failed_push_scenario_keeps_queue (env : Sync.Env) (w : Sync.World) :
  Offline.queueLength (Sync.db (snd (Sync.syncPendingSubmissions env w)))
  = Offline.queueLength (Sync.db w)
  /\ Sync.remote (snd (Sync.syncPendingSubmissions env w)) = Sync.remote w
  /\ Sync.upsertAt teableDown 0 = Sync.Written
  /\ (exists e, Sync.teableAt teableDown 0 = Teable.Throws e true)
  /\ Offline.queueLength queueWithAda = 1
  /\ Offline.queueLength
       (Sync.db (snd (Sync.syncPendingSubmissions teableDown (worldOf queueWithAda))))
     = 1
  /\ Remote.find "sub_1"
       (Sync.remote (snd (Sync.syncPendingSubmissions teableDown (worldOf queueWithAda))))
     = None
  /\ Sync.success (fst (Sync.syncPendingSubmissions teableDown (worldOf queueWithAda)))
     = 0.
Proof.
  rewrite !DrainFacts.syncPendingSubmissions_fetches_nothing.
  split; [reflexivity|]. split; [reflexivity|]. split; [reflexivity|].
  split; [eexists; reflexivity|]. repeat split.
Qed.

(** ** One pass at a time *)

(** C6.  At most one pass started by [triggerSync] runs at a time, and
    [syncInProgress] is set exactly while it runs; a call of [triggerSync]
    made while the flag is set, or offline, changes nothing (it is dropped,
    not queued); when the pass settles, fulfilled with any summary or
    rejected, the flag is cleared, and a later call of [triggerSync] while
    online starts a new pass. *)
Theorem listener_single_flight (onLine : bool) (trace : list Listener.Event) :
  Listener.listenerPasses (Listener.run (Listener.initial onLine) trace) <= 1
  /\ (Listener.syncInProgress (Listener.run (Listener.initial onLine) trace) = true
      <-> Listener.listenerPasses (Listener.run (Listener.initial onLine) trace) = 1)
  /\ (forall s, Listener.syncInProgress s = true \/ Listener.online s = false ->
                Listener.step s Listener.TriggerSync = s)
  /\ (forall s outcome,
        Listener.listenerPasses s = 1 ->
        Listener.syncInProgress (Listener.step s (Listener.PassSettles outcome)) = false
        /\ Listener.listenerPasses (Listener.step s (Listener.PassSettles outcome)) = 0)
  /\ (forall s outcome,
        Listener.listenerPasses s = 1 -> Listener.online s = true ->
        Listener.syncInProgress
          (Listener.step (Listener.step s (Listener.PassSettles outcome))
                         Listener.TriggerSync) = true
        /\ Listener.listenerPasses
             (Listener.step (Listener.step s (Listener.PassSettles outcome))
                            Listener.TriggerSync) = 1).
Proof.
  destruct (ListenerFacts.inv_run trace (ListenerFacts.inv_initial onLine))
    as [Hle Hiff].
  split; [exact Hle|]. split; [exact Hiff|]. split; [|split].
  - intros s [H|H]; simpl; rewrite H; trivial.
    now rewrite orb_true_r.
  - intros s outcome H. simpl. now rewrite H.
  - intros s outcome H Hon. simpl. rewrite H. simpl. rewrite Hon. simpl. now split.
Qed.

(** ** A failed remote write *)

(** C7.  The code does not do what the claim says.  No pass changes a
    record of the queue, however many passes run and whatever the remote
    store would answer, and every pass reports no failure.  With sub_1
    queued and a remote store that refuses the first write, the record
    stored under sub_1 after the pass still has its attempt counter at 0 and
    no error, and [failed] is 0, where the claim has the counter at 1, the
    error stored and the failure counted. *)
Theorem refused_write_is_never_recorded (env : Sync.Env) (w : Sync.World)
        (n : nat) :
  (forall i,
      IDB.get i (Offline.submissions (Sync.db (afterPasses env n w)))
      = IDB.get i (Offline.submissions (Sync.db w)))
  /\ Sync.failed (fst (Sync.syncPendingSubmissions env w)) = 0
  /\ (exists e, Sync.upsertAt firstRefused 0 = Sync.Refused e)
  /\ (exists stored,
        IDB.get "sub_1"
          (Offline.submissions
             (Sync.db (snd (Sync.syncPendingSubmissions firstRefused
                                                        (worldOf queueWithAda)))))
        = Some stored
        /\ Submission.syncAttempts stored = 0%Z
        /\ Submission.lastSyncError stored = None)
  /\ Sync.failed (fst (Sync.syncPendingSubmissions firstRefused (worldOf queueWithAda)))
     = 0.
Proof.
  rewrite DrainFacts.afterPasses_same,
    !DrainFacts.syncPendingSubmissions_fetches_nothing.
  split; [reflexivity|]. split; [reflexivity|].
  split; [eexists; reflexivity|].
  split; [|reflexivity].
  exists queuedAda. repeat split.
Qed.

(** ** Drafts *)

(** C8.  Draft round trip: after [saveFormProgress F P], [getFormProgress F]
    returns the draft with data [P], and reopening the form starts from [P];
    saving again for [F] replaces the draft; a well-formed database holds at
    most one draft per form, and exactly one for [F] after a save. *)
Theorem draft_round_trip (now now' : Z) (F : string) (P P' : JS.Json)
        (db : Offline.DB) :
  Offline.wf db ->
  Offline.getFormProgress F (Offline.saveFormProgress now F P db)
  = Some {| FormProgress.formId := F; FormProgress.data := P;
            FormProgress.lastSaved := now |}
  /\ Collect.loadValues F (Offline.saveFormProgress now F P db) = P
  /\ Offline.getFormProgress F
       (Offline.saveFormProgress now' F P' (Offline.saveFormProgress now F P db))
     = Some {| FormProgress.formId := F; FormProgress.data := P';
               FormProgress.lastSaved := now' |}
  /\ Offline.draftCount F
       (Offline.saveFormProgress now' F P' (Offline.saveFormProgress now F P db)) = 1
  /\ (forall G, Offline.draftCount G db <= 1)
  /\ (forall G, Offline.draftCount G (Offline.saveFormProgress now F P db) <= 1).
Proof.
  intros Hwf.
  assert (Hget : forall t d (x : Offline.DB),
             Offline.getFormProgress F (Offline.saveFormProgress t F d x)
             = Some {| FormProgress.formId := F; FormProgress.data := d;
                       FormProgress.lastSaved := t |}).
  { intros. unfold Offline.getFormProgress, Offline.saveFormProgress, IDB.put.
    simpl. apply IDBFacts.get_insert_same. }
  assert (Hcount : forall x G, Offline.wf x -> Offline.draftCount G x <= 1).
  { intros x G [_ [Hs _]]. now apply IDBFacts.sorted_count. }
  repeat split.
  - apply Hget.
  - unfold Collect.loadValues. now rewrite Hget.
  - apply Hget.
  - unfold Offline.draftCount.
    apply NoDup_count_occ'.
    + apply IDBFacts.sorted_NoDup.
      apply (OfflineFacts.wf_saveFormProgress now' F P'
               (OfflineFacts.wf_saveFormProgress now F P Hwf)).
    + simpl. unfold IDB.put. simpl. apply IDBFacts.keys_insert. now left.
  - intros G. now apply Hcount.
  - intros G. apply Hcount. now apply OfflineFacts.wf_saveFormProgress.
Qed.

Lemma draft_round_trip_witness :
  Offline.wf Offline.emptyDB /\
  Collect.loadValues "f1"
    (Offline.saveFormProgress 10 "f1" (JS.JObj [("name", JS.JStr "Ada")]) Offline.emptyDB)
  = JS.JObj [("name", JS.JStr "Ada")].
Proof.
  split; [exact OfflineFacts.wf_emptyDB|].
  exact (proj1 (proj2
    (draft_round_trip 10 20 "f1" (JS.JObj [("name", JS.JStr "Ada")]) JS.JNull
       OfflineFacts.wf_emptyDB))).
Defined.

(** ** Drafts and submission *)

(** C9.  The code does not do what the claim says.  [handleSubmit] clears
    the draft, online and offline, but it leaves the timeout of the autosave
    effect in place: when an answer was changed less than two seconds before
    the submission, the timeout fires after [clearFormProgress] and before
    the page is unmounted, and [saveFormProgress] stores the draft again,
    with the answers just submitted.  The draft is then still there after
    the page is left.  Only when the page is unmounted before the timeout
    fires does no draft remain. *)
Theorem autosave_restores_draft_after_submit
        (formId : string) (entries : list (string * JS.Json))
        (name : string) (value : JS.Json)
        (isOnline : bool) (userId : option string) (submissionId : string)
        (now later : Z) (serverId : string) (createdAt : Z)
        (teable : Teable.Outcome) (db : Offline.DB) (remote : Remote.table) :
  formId <> "" ->
  Page.said
    (Page.run formId (Page.initial formId entries db remote)
       [Page.FieldChange name value;
        Page.HandleSubmit isOnline userId submissionId now
                          (Collect.Inserted serverId createdAt) teable])
  = [if isOnline then Collect.Saved else Collect.Queued]
  /\ Offline.getFormProgress formId
       (Page.db
          (Page.run formId (Page.initial formId entries db remote)
             [Page.FieldChange name value;
              Page.HandleSubmit isOnline userId submissionId now
                                (Collect.Inserted serverId createdAt) teable]))
     = None
  /\ Offline.getFormProgress formId
       (Page.db
          (Page.run formId (Page.initial formId entries db remote)
             [Page.FieldChange name value;
              Page.HandleSubmit isOnline userId submissionId now
                                (Collect.Inserted serverId createdAt) teable;
              Page.TimerFires later;
              Page.Unmounts]))
     = Some {| FormProgress.formId := formId;
               FormProgress.data := JS.JObj (Page.setField name value entries);
               FormProgress.lastSaved := later |}
  /\ Offline.getFormProgress formId
       (Page.db
          (Page.run formId (Page.initial formId entries db remote)
             [Page.FieldChange name value;
              Page.HandleSubmit isOnline userId submissionId now
                                (Collect.Inserted serverId createdAt) teable;
              Page.Unmounts;
              Page.TimerFires later]))
     = None.
Proof.
  intros Hform.
  assert (Hset : exists first more, Page.setField name value entries = first :: more).
  { destruct entries as [|[k v] more]; simpl; [eauto|].
    destruct (String.eqb k name); eauto. }
  destruct Hset as [first [more Hset]].
  assert (Heffect : Page.effect formId (Page.setField name value entries)
                    = Some (Page.setField name value entries)).
  { unfold Page.effect. rewrite Hset.
    destruct (String.eqb_spec formId ""); [contradiction | reflexivity]. }
  unfold Page.run, Page.initial. cbn [fold_left Page.step Page.mounted Page.values
    Page.timer Page.db Page.remote Page.said].
  rewrite Heffect.
  unfold Collect.handleSubmit.
  destruct isOnline.
  - destruct (Teable.syncSubmissionToTeable teable serverId _) as [pushed remote'].
    cbn. split; [reflexivity|].
    split; [apply IDBFacts.get_delete_same|].
    split; [apply IDBFacts.get_insert_same | apply IDBFacts.get_delete_same].
  - cbn. split; [reflexivity|].
    split; [apply IDBFacts.get_delete_same|].
    split; [apply IDBFacts.get_insert_same | apply IDBFacts.get_delete_same].
Qed.

(** The answer Ada is typed into the field name of form f1 and the form is
    submitted offline; the timeout fires at time 8. *)
Lemma autosave_restores_draft_after_submit_witness :
  Offline.getFormProgress "f1"
    (Page.db
       (Page.run "f1" (Page.initial "f1" [] Offline.emptyDB [])
          [Page.FieldChange "name" (JS.JStr "Ada");
           Page.HandleSubmit false None "sub_1" 7
                             (Collect.Inserted "srv_1" 7) Teable.NotConfigured;
           Page.TimerFires 8;
           Page.Unmounts]))
  = Some {| FormProgress.formId := "f1";
            FormProgress.data := JS.JObj [("name", JS.JStr "Ada")];
            FormProgress.lastSaved := 8 |}.
Proof.
  assert (Hform : "f1" <> "") by discriminate.
  exact (proj1 (proj2 (proj2
    (@autosave_restores_draft_after_submit "f1" [] "name" (JS.JStr "Ada") false None
       "sub_1" 7 8 "srv_1" 7 Teable.NotConfigured Offline.emptyDB [] Hform)))).
Defined.

(** ** The tally of a pass *)

(** C10.  The code does not do what the claim says.  Every pass reports
    [failed] 0 and no error, whatever the queue holds; in particular [failed]
    never exceeds the number of remote writes of the pass.  With a
    submission at the ceiling of 5 attempts stored, unsynced, the pass
    returns the empty summary, where the claim has the submission counted as
    failed with an entry in [errors]. *)
Theorem exhausted_is_not_counted (env : Sync.Env) (w : Sync.World) :
  Sync.failed (fst (Sync.syncPendingSubmissions env w)) = 0
  /\ Sync.errors (fst (Sync.syncPendingSubmissions env w)) = []
  /\ Sync.failed (fst (Sync.syncPendingSubmissions env w))
     <= List.length (Sync.writesOf w (snd (Sync.syncPendingSubmissions env w)))
  /\ IDB.get "sub_1" (Offline.submissions queueWithWorn) = Some worn
  /\ Submission.syncAttempts worn = 5%Z
  /\ Submission.synced worn = false
  /\ Sync.syncPendingSubmissions calmEnv (worldOf queueWithWorn)
     = ({| Sync.success := 0; Sync.failed := 0; Sync.errors := [] |},
        worldOf queueWithWorn).
Proof.
  rewrite !DrainFacts.syncPendingSubmissions_fetches_nothing.
  repeat split. simpl. lia.
Qed.

(** * Further facts *)

(** ** More about object stores *)

Module StoreFacts.
Import IDB.

Section ObjectStore.

Variable V : Type.
Implicit Types s : store V.

Lemma delete_insert k v s : delete k (insert k v s) = delete k s.
Proof.
  induction s as [|[k' v'] rest IH]; simpl.
  - now rewrite String.eqb_refl.
  - destruct (String_as_OT.compare k k') eqn:E; simpl.
    + apply IDBFacts.compare_Eq in E. subst k'. now rewrite String.eqb_refl.
    + now rewrite String.eqb_refl.
    + apply IDBFacts.compare_Gt, IDBFacts.lt_neq in E.
      destruct (String.eqb_spec k k'); [congruence | now rewrite IH].
Qed.

Lemma delete_delete k s : delete k (delete k s) = delete k s.
Proof.
  apply IDBFacts.delete_absent, IDBFacts.get_delete_same.
Qed.

Lemma In_records_get (keyPath : V -> string) s v :
  IDB.inline keyPath s -> IDB.get (keyPath v) s = Some v -> In v (records s).
Proof.
  intros _ Hg. apply IDBFacts.get_Some_In in Hg.
  unfold records. apply in_map_iff. now exists (keyPath v, v).
Qed.

Lemma records_delete k s v :
  In v (records (delete k s)) -> In v (records s).
Proof.
  unfold records. induction s as [|[k' v'] rest IH]; simpl; trivial.
  destruct (String.eqb k k'); simpl; intuition.
Qed.

End ObjectStore.

End StoreFacts.

(** ** More about the queue *)

Module QueueFacts.
Import Offline.

Lemma db_eta (d : DB) :
  {| submissions := submissions d; formProgress := formProgress d |} = d.
Proof. now destruct d. Qed.

Lemma get_markSubmissionSynced_same i s db :
  wf db -> IDB.get i (submissions db) = Some s ->
  IDB.get i (submissions (markSubmissionSynced i db)) = Some (markedSynced s).
Proof.
  intros Hwf E. unfold markSubmissionSynced. rewrite E.
  cbn [submissions]. unfold IDB.put.
  change (Submission.id (markedSynced s)) with (Submission.id s).
  rewrite (OfflineFacts.get_submission_id _ Hwf E).
  apply IDBFacts.get_insert_same.
Qed.

Lemma delete_after_mark i db :
  wf db -> deleteSubmission i (markSubmissionSynced i db) = deleteSubmission i db.
Proof.
  intros Hwf. unfold markSubmissionSynced.
  destruct (IDB.get i (submissions db)) as [s|] eqn:E; trivial.
  unfold deleteSubmission. cbn [submissions formProgress]. unfold IDB.put.
  change (Submission.id (markedSynced s)) with (Submission.id s).
  rewrite (OfflineFacts.get_submission_id _ Hwf E).
  now rewrite StoreFacts.delete_insert.
Qed.

Lemma length_updateSubmissionSyncError i e db :
  wf db -> queueLength (updateSubmissionSyncError i e db) = queueLength db.
Proof.
  intros Hwf. unfold updateSubmissionSyncError, queueLength.
  destruct (IDB.get i (submissions db)) as [s|] eqn:E; trivial.
  cbn [submissions]. unfold IDB.put.
  change (Submission.id (failedOnce e s)) with (Submission.id s).
  rewrite (OfflineFacts.get_submission_id _ Hwf E).
  destruct Hwf as [[Hs _] _]. eapply IDBFacts.length_insert_present; eauto.
Qed.

Lemma length_deleteSubmission i s db :
  wf db -> IDB.get i (submissions db) = Some s ->
  S (queueLength (deleteSubmission i db)) = queueLength db.
Proof.
  intros [[Hs _] _] E. unfold queueLength, deleteSubmission. simpl.
  eapply IDBFacts.length_delete; eauto.
Qed.

End QueueFacts.

(** ** More about the remote table *)

Module TableFacts.
Import Remote.

Lemma find_Some_id i t r : find i t = Some r -> id r = i.
Proof.
  unfold find. intros H. apply find_some in H. destruct H as [_ H].
  now apply String.eqb_eq.
Qed.

Lemma find_upsert_other v t j :
  j <> id v -> find j (upsert v t) = find j t.
Proof.
  intros Hne. unfold find. induction t as [|r rest IH]; simpl.
  - destruct (String.eqb_spec (id v) j); [congruence | reflexivity].
  - destruct (String.eqb_spec (id r) (id v)) as [E|Hrv]; simpl.
    + destruct (String.eqb_spec (id r) j); [congruence | reflexivity].
    + destruct (String.eqb (id r) j); [reflexivity | exact IH].
Qed.

Lemma find_updateWhereId_other f i t j :
  (forall r, id (f r) = id r) -> j <> i ->
  find j (updateWhereId f i t) = find j t.
Proof.
  intros Hf Hne. unfold find, updateWhereId.
  induction t as [|r rest IH]; simpl; trivial.
  destruct (String.eqb_spec (id r) i) as [E|Hri].
  - rewrite Hf. destruct (String.eqb_spec (id r) j); [congruence | exact IH].
  - destruct (String.eqb (id r) j); [reflexivity | exact IH].
Qed.

Lemma length_updateWhereId f i t :
  List.length (updateWhereId f i t) = List.length t.
Proof. unfold updateWhereId. apply length_map. Qed.

Lemma updateWhereId_absent f i t :
  find i t = None -> updateWhereId f i t = t.
Proof.
  unfold find, updateWhereId. induction t as [|r rest IH]; simpl; trivial.
  destruct (String.eqb (id r) i); [discriminate|].
  intros H. now rewrite IH.
Qed.

(** The push writes the row of its own identifier only. *)
Lemma find_push_other o i t j :
  j <> i -> find j (snd (Teable.syncSubmissionToTeable o i t)) = find j t.
Proof.
  intros Hne. destruct o as [recordId [|] | | e [|] | e]; simpl; trivial;
    now apply find_updateWhereId_other.
Qed.

Lemma find_push_same o i t :
  find i (snd (Teable.syncSubmissionToTeable o i t)) = option_map (pushed o) (find i t).
Proof.
  destruct o as [[recordId|] [|] | | e [|] | e]; simpl;
    try (now destruct (find i t));
    now rewrite RemoteFacts.find_updateWhereId by reflexivity.
Qed.

End TableFacts.

(** ** More about the loop *)

Module PassFacts.
Import Sync SyncFacts.

Lemma laterVersion_refl s : laterVersion s s.
Proof. repeat split; lia. Qed.

Lemma laterVersion_trans a b c :
  laterVersion a b -> laterVersion b c -> laterVersion a c.
Proof.
  unfold laterVersion. intros (A1 & A2 & A3 & A4 & A5 & A6 & A7)
                              (B1 & B2 & B3 & B4 & B5 & B6 & B7).
  repeat split; try congruence. lia.
Qed.

Lemma laterVersion_failedOnce e s : laterVersion s (Offline.failedOnce e s).
Proof. repeat split; simpl; lia. Qed.

(** A record found after a turn was there before, in an earlier version. *)
Lemma syncItem_record env s r w k s' :
  Offline.wf (db w) ->
  IDB.get k (Offline.submissions (db (snd (syncItem env s r w)))) = Some s' ->
  exists s0, IDB.get k (Offline.submissions (db w)) = Some s0 /\ laterVersion s0 s'.
Proof.
  intros Hwf Hget.
  destruct (string_dec k (Submission.id s)) as [->|Hne].
  - destruct (syncItem_Turn env s r w) as [Hex | Hex Ha | e Hex Ha]; simpl in Hget.
    + exists s'. split; [exact Hget | apply laterVersion_refl].
    + rewrite IDBFacts.get_delete_same in Hget. discriminate.
    + destruct (IDB.get (Submission.id s) (Offline.submissions (db w)))
        as [s0|] eqn:E.
      * rewrite (@OfflineFacts.get_updateSubmissionSyncError_same _ _ _ _ Hwf E)
          in Hget.
        injection Hget as <-. exists s0. split; trivial.
        apply laterVersion_failedOnce.
      * rewrite (@OfflineFacts.get_updateSubmissionSyncError_None _ _ _ _ Hwf E)
          in Hget.
        discriminate.
  - rewrite (@syncItem_other env s r w k Hwf Hne) in Hget.
    exists s'. split; [exact Hget | apply laterVersion_refl].
Qed.

Lemma syncLoop_record env pending :
  forall r w k s',
    Offline.wf (db w) ->
    IDB.get k (Offline.submissions (db (snd (syncLoop env pending r w)))) = Some s' ->
    exists s0, IDB.get k (Offline.submissions (db w)) = Some s0 /\ laterVersion s0 s'.
Proof.
  induction pending as [|s rest IH]; intros r w k s' Hwf Hget.
  - exists s'. split; [exact Hget | apply laterVersion_refl].
  - simpl in Hget.
    pose proof (@syncItem_wf env s r w Hwf) as Hwf1.
    pose proof (@syncItem_record env s r w k) as Hturn.
    destruct (syncItem env s r w) as [r1 w1]. simpl in *.
    destruct (IH r1 w1 k s' Hwf1 Hget) as [s1 [H1 L1]].
    destruct (Hturn s1 Hwf H1) as [s0 [H0 L0]].
    exists s0. split; trivial. eapply laterVersion_trans; eauto.
Qed.

(** *** Turns over a snapshot of the queue *)

Lemma snapshotOf_tail env s rest r w :
  Offline.wf (db w) ->
  snapshotOf (db w) (s :: rest) ->
  snapshotOf (db (snd (syncItem env s r w))) rest.
Proof.
  intros Hwf [Hnd Hsnap]. simpl in Hnd. inversion Hnd as [|? ? Hnotin Hnd']; subst.
  split; trivial.
  intros s2 Hin. rewrite syncItem_other; trivial.
  - apply Hsnap. now right.
  - intros E. apply Hnotin. rewrite <- E. now apply in_map.
Qed.

Lemma syncItem_length env s r w :
  Offline.wf (db w) ->
  IDB.get (Submission.id s) (Offline.submissions (db w)) = Some s ->
  Offline.queueLength (db (snd (syncItem env s r w)))
  + success (fst (syncItem env s r w))
  = Offline.queueLength (db w) + success r.
Proof.
  intros Hwf Hget.
  destruct (syncItem_Turn env s r w) as [Hex | Hex Ha | e Hex Ha]; simpl.
  - reflexivity.
  - rewrite QueueFacts.delete_after_mark by trivial.
    pose proof (@QueueFacts.length_deleteSubmission _ _ _ Hwf Hget). lia.
  - now rewrite QueueFacts.length_updateSubmissionSyncError.
Qed.

Lemma syncItem_bound env s r w :
  Offline.wf (db w) ->
  IDB.get (Submission.id s) (Offline.submissions (db w)) = Some s ->
  (forall k x, IDB.get k (Offline.submissions (db w)) = Some x ->
               (Submission.syncAttempts x <= 5)%Z) ->
  forall k x, IDB.get k (Offline.submissions (db (snd (syncItem env s r w)))) = Some x ->
              (Submission.syncAttempts x <= 5)%Z.
Proof.
  intros Hwf Hget Hbound k x Hk.
  destruct (string_dec k (Submission.id s)) as [->|Hne].
  - destruct (syncItem_Turn env s r w) as [Hex | Hex Ha | e Hex Ha]; simpl in Hk.
    + eauto.
    + rewrite IDBFacts.get_delete_same in Hk. discriminate.
    + rewrite (@OfflineFacts.get_updateSubmissionSyncError_same _ _ _ _ Hwf Hget)
        in Hk.
      injection Hk as <-. simpl. unfold exhausted in Hex.
      destruct (Z.geb_spec (Submission.syncAttempts s) 5); [discriminate | lia].
  - rewrite (@syncItem_other env s r w k Hwf Hne) in Hk. eauto.
Qed.

Lemma syncLoop_snapshot env pending :
  forall r w,
    Offline.wf (db w) -> snapshotOf (db w) pending ->
    Offline.queueLength (db (snd (syncLoop env pending r w)))
    + success (fst (syncLoop env pending r w))
    = Offline.queueLength (db w) + success r
    /\ ((forall k x, IDB.get k (Offline.submissions (db w)) = Some x ->
                     (Submission.syncAttempts x <= 5)%Z) ->
        forall k x,
          IDB.get k (Offline.submissions (db (snd (syncLoop env pending r w)))) = Some x ->
          (Submission.syncAttempts x <= 5)%Z).
Proof.
  induction pending as [|s rest IH]; intros r w Hwf Hsnap.
  - simpl. split; auto.
  - simpl.
    assert (Hget : IDB.get (Submission.id s) (Offline.submissions (db w)) = Some s)
      by (apply Hsnap; now left).
    pose proof (@syncItem_wf env s r w Hwf) as Hwf1.
    pose proof (@snapshotOf_tail env s rest r w Hwf Hsnap) as Hsnap1.
    pose proof (@syncItem_length env s r w Hwf Hget) as Hlen1.
    pose proof (@syncItem_bound env s r w Hwf Hget) as Hbound1.
    destruct (syncItem env s r w) as [r1 w1]. simpl in *.
    destruct (IH r1 w1 Hwf1 Hsnap1) as [Hlen Hbound].
    split; [lia|].
    intros Hb. apply Hbound. now apply Hbound1.
Qed.

(** *** The remote rows a loop leaves alone *)

Lemma syncItem_remote_other env s r w j :
  j <> Submission.id s ->
  Remote.find j (remote (snd (syncItem env s r w))) = Remote.find j (remote w).
Proof.
  intros Hne. destruct (syncItem_Turn env s r w) as [Hex | Hex Ha | e Hex Ha]; simpl.
  - reflexivity.
  - rewrite TableFacts.find_push_other by trivial.
    now apply TableFacts.find_upsert_other.
  - unfold afterUpsert. destruct (applied _); trivial.
    now apply TableFacts.find_upsert_other.
Qed.

Lemma syncLoop_remote_other env pending j :
  ~ In j (map Submission.id (attempted pending)) ->
  forall r w,
    Remote.find j (remote (snd (syncLoop env pending r w))) = Remote.find j (remote w).
Proof.
  unfold attempted. induction pending as [|s rest IH]; intros Hj r w; trivial.
  simpl in *.
  assert (Hturn : Remote.find j (remote (snd (syncItem env s r w)))
                  = Remote.find j (remote w)).
  { destruct (exhausted s) eqn:Hex.
    - now rewrite syncItem_exhausted.
    - apply syncItem_remote_other. simpl in Hj. intuition. }
  assert (Hrest : ~ In j (map Submission.id
                            (filter (fun x => negb (exhausted x)) rest))).
  { destruct (exhausted s); simpl in Hj; intuition. }
  destruct (syncItem env s r w) as [r1 w1]. simpl in *.
  rewrite (IH Hrest r1 w1). exact Hturn.
Qed.

(** *** The row a written turn leaves *)

Lemma carries_pushed o row s : carries row s -> carries (pushed o row) s.
Proof.
  destruct o as [[recordId|] [|] | | e [|] | e]; simpl; trivial.
Qed.

Lemma syncItem_written_row env s r w :
  exhausted s = false ->
  upsertAt env (List.length (writeLog w)) = Written ->
  exists row,
    Remote.find (Submission.id s) (remote (snd (syncItem env s r w))) = Some row
    /\ carries row s.
Proof.
  intros Hex Ha. rewrite (@syncItem_written env s r w Hex Ha). simpl.
  rewrite TableFacts.find_push_same.
  change (Submission.id s) with (Remote.id (Remote.ofSubmission s)).
  rewrite RemoteFacts.find_upsert.
  destruct (Remote.find (Remote.id (Remote.ofSubmission s)) (remote w))
    as [old|] eqn:E; simpl.
  - eexists. split; [reflexivity|]. apply carries_pushed.
    apply TableFacts.find_Some_id in E. simpl in E.
    repeat split; simpl; trivial.
  - eexists. split; [reflexivity|]. apply carries_pushed.
    repeat split.
Qed.

Lemma syncItem_written_entry env s r w :
  exists new,
    writeLog (snd (syncItem env s r w)) = (writeLog w ++ new)%list
    /\ (forall k o, In (k, o) new -> k = Submission.id s)
    /\ (forall k, In (k, Written) new ->
          exists row,
            Remote.find (Submission.id s) (remote (snd (syncItem env s r w))) = Some row
            /\ carries row s).
Proof.
  destruct (exhausted s) eqn:Hex.
  - rewrite syncItem_exhausted by trivial. exists []. simpl.
    rewrite app_nil_r. repeat split; intros; contradiction.
  - destruct (upsertAt env (List.length (writeLog w))) as [|e|e] eqn:Ha.
    + pose proof (@syncItem_written_row env s r w Hex Ha) as Hrow.
      rewrite (@syncItem_written env s r w Hex Ha) in *. simpl in *.
      exists [(Submission.id s, Written)]. split; [reflexivity|]. split.
      * intros k o [[= <- _] | []]. reflexivity.
      * intros k _. exact Hrow.
    + assert (He : responseError (upsertAt env (List.length (writeLog w))) = Some e)
        by now rewrite Ha.
      rewrite (@syncItem_failed env s r w e Hex He). simpl. rewrite Ha.
      exists [(Submission.id s, Lost e)]. split; [reflexivity|]. split.
      * intros k o [[= <- _] | []]. reflexivity.
      * intros k [[= ] | []].
    + assert (He : responseError (upsertAt env (List.length (writeLog w))) = Some e)
        by now rewrite Ha.
      rewrite (@syncItem_failed env s r w e Hex He). simpl. rewrite Ha.
      exists [(Submission.id s, Refused e)]. split; [reflexivity|]. split.
      * intros k o [[= <- _] | []]. reflexivity.
      * intros k [[= ] | []].
Qed.

Lemma attempted_ids pending k :
  In k (map Submission.id (attempted pending)) -> In k (map Submission.id pending).
Proof.
  unfold attempted. intros H. apply in_map_iff in H.
  destruct H as [x [E Hin]]. apply filter_In in Hin.
  apply in_map_iff. exists x. tauto.
Qed.

Lemma syncLoop_written_row env pending :
  forall r w,
    NoDup (map Submission.id pending) ->
    exists new,
      writeLog (snd (syncLoop env pending r w)) = (writeLog w ++ new)%list
      /\ (forall k o, In (k, o) new -> In k (map Submission.id pending))
      /\ (forall s, In s pending -> In (Submission.id s, Written) new ->
            exists row,
              Remote.find (Submission.id s) (remote (snd (syncLoop env pending r w)))
              = Some row
              /\ carries row s).
Proof.
  induction pending as [|s0 rest IH]; intros r w Hnd.
  - exists []. simpl. rewrite app_nil_r. repeat split; intros; contradiction.
  - simpl in Hnd. inversion Hnd as [|? ? Hnotin Hnd']; subst. simpl.
    destruct (syncItem_written_entry env s0 r w) as [new1 (Hlog1 & Hids1 & Hrow1)].
    destruct (syncItem env s0 r w) as [r1 w1]. simpl in *.
    destruct (IH r1 w1 Hnd') as [new2 (Hlog2 & Hids2 & Hrow2)].
    exists (new1 ++ new2)%list. split; [now rewrite Hlog2, Hlog1, app_assoc|].
    split.
    + intros k o Hin. apply in_app_or in Hin. destruct Hin as [Hin|Hin].
      * left. symmetry. eapply Hids1; eauto.
      * right. eapply Hids2; eauto.
    + intros s [<-|Hin] Hw; apply in_app_or in Hw; destruct Hw as [Hw|Hw].
      * destruct (Hrow1 _ Hw) as [row [Hf Hc]]. exists row. split; trivial.
        rewrite syncLoop_remote_other; trivial.
        intros Hk. apply Hnotin. now apply attempted_ids in Hk.
      * exfalso. apply Hnotin. eapply Hids2; eauto.
      * exfalso. apply Hnotin. rewrite <- (Hids1 _ _ Hw). now apply in_map.
      * now apply Hrow2.
Qed.

(** *** Where the rows of the remote table come from *)

Lemma carries_upserted s t :
  exists row,
    Remote.find (Submission.id s) (Remote.upsert (Remote.ofSubmission s) t) = Some row
    /\ carries row s.
Proof.
  change (Submission.id s) with (Remote.id (Remote.ofSubmission s)).
  rewrite RemoteFacts.find_upsert.
  destruct (Remote.find (Remote.id (Remote.ofSubmission s)) t) as [old|] eqn:E.
  - eexists. split; [reflexivity|].
    apply TableFacts.find_Some_id in E. simpl in E.
    repeat split; simpl; trivial.
  - eexists. split; [reflexivity|]. repeat split.
Qed.

Lemma syncItem_remote_source env s r w k row :
  Remote.find k (remote (snd (syncItem env s r w))) = Some row ->
  Remote.find k (remote w) = Some row \/ carries row s.
Proof.
  destruct (string_dec k (Submission.id s)) as [->|Hne].
  - destruct (syncItem_Turn env s r w) as [Hex | Hex Ha | e Hex Ha]; simpl.
    + auto.
    + rewrite TableFacts.find_push_same.
      destruct (carries_upserted s (remote w)) as [up [-> Hup]]. simpl.
      intros [= <-]. right. now apply carries_pushed.
    + unfold afterUpsert. destruct (applied _); [|auto].
      destruct (carries_upserted s (remote w)) as [up [-> Hup]].
      intros [= <-]. now right.
  - rewrite syncItem_remote_other by trivial. auto.
Qed.

Lemma syncLoop_remote_source env pending :
  forall r w k row,
    Remote.find k (remote (snd (syncLoop env pending r w))) = Some row ->
    Remote.find k (remote w) = Some row
    \/ exists s, In s pending /\ carries row s.
Proof.
  induction pending as [|s rest IH]; intros r w k row H; [now left|].
  simpl in H. destruct (syncItem env s r w) as [r1 w1] eqn:E.
  destruct (IH _ _ _ _ H) as [H1 | [x [Hin Hx]]].
  - assert (E1 : w1 = snd (syncItem env s r w)) by now rewrite E.
    rewrite E1 in H1.
    destruct (syncItem_remote_source _ _ _ _ _ H1) as [H0 | Hs]; [now left|].
    right. exists s. split; [now left | exact Hs].
  - right. exists x. split; [now right | exact Hx].
Qed.

End PassFacts.

(** * Further properties *)

(** ** The operations of the local stores *)

(** X1.  Drafts of different forms do not touch each other: saving or
    clearing the draft of [F] leaves the draft of any other form and the
    queued submissions as they were.  Clearing removes the draft of [F],
    changes nothing when there is none, and can be repeated. *)
Theorem drafts_are_independent (now : Z) (F G : string) (P : JS.Json)
        (db : Offline.DB) :
  (G <> F ->
   Offline.getFormProgress G (Offline.saveFormProgress now F P db)
   = Offline.getFormProgress G db
   /\ Offline.getFormProgress G (Offline.clearFormProgress F db)
      = Offline.getFormProgress G db)
  /\ Offline.getFormProgress F (Offline.clearFormProgress F db) = None
  /\ (Offline.getFormProgress F db = None -> Offline.clearFormProgress F db = db)
  /\ Offline.clearFormProgress F (Offline.clearFormProgress F db)
     = Offline.clearFormProgress F db
  /\ Offline.submissions (Offline.saveFormProgress now F P db) = Offline.submissions db
  /\ Offline.submissions (Offline.clearFormProgress F db) = Offline.submissions db.
Proof.
  split; [|split; [|split; [|split; [|split]]]]; trivial.
  - intros Hne. split.
    + unfold Offline.getFormProgress, Offline.saveFormProgress, IDB.put. simpl.
      now apply IDBFacts.get_insert_other.
    + unfold Offline.getFormProgress, Offline.clearFormProgress. simpl.
      now apply IDBFacts.get_delete_other.
  - apply IDBFacts.get_delete_same.
  - unfold Offline.getFormProgress, Offline.clearFormProgress. intros H.
    rewrite IDBFacts.delete_absent by trivial. apply QueueFacts.db_eta.
  - unfold Offline.clearFormProgress. simpl. now rewrite StoreFacts.delete_delete.
Qed.

(** X2.  [markSubmissionSynced] sets the [synced] flag of the record stored
    under the identifier to true and nothing else: the record read back has
    the flag set and every other field as before, attempt counter and last
    error included; the other records, the number of records and the drafts
    are unchanged; when no record is stored under the identifier the
    database is left as it is. *)
Theorem markSubmissionSynced_sets_flag (i : string) (db : Offline.DB) :
  Offline.wf db ->
  (forall s, IDB.get i (Offline.submissions db) = Some s ->
             IDB.get i (Offline.submissions (Offline.markSubmissionSynced i db))
             = Some {| Submission.id := Submission.id s;
                       Submission.formId := Submission.formId s;
                       Submission.userId := Submission.userId s;
                       Submission.data := Submission.data s;
                       Submission.createdAt := Submission.createdAt s;
                       Submission.synced := true;
                       Submission.syncAttempts := Submission.syncAttempts s;
                       Submission.lastSyncError := Submission.lastSyncError s |})
  /\ (IDB.get i (Offline.submissions db) = None ->
      Offline.markSubmissionSynced i db = db)
  /\ (forall k, k <> i ->
        IDB.get k (Offline.submissions (Offline.markSubmissionSynced i db))
        = IDB.get k (Offline.submissions db))
  /\ Offline.queueLength (Offline.markSubmissionSynced i db) = Offline.queueLength db
  /\ Offline.formProgress (Offline.markSubmissionSynced i db) = Offline.formProgress db
  /\ Offline.wf (Offline.markSubmissionSynced i db).
Proof.
  intros Hwf. split; [|split; [|split; [|split; [|split]]]].
  - intros s E. exact (@QueueFacts.get_markSubmissionSynced_same i s db Hwf E).
  - intros E. unfold Offline.markSubmissionSynced. now rewrite E.
  - intros k Hk. now apply OfflineFacts.get_markSubmissionSynced_other.
  - now apply OfflineFacts.length_markSubmissionSynced.
  - unfold Offline.markSubmissionSynced.
    now destruct (IDB.get i (Offline.submissions db)).
  - now apply OfflineFacts.wf_markSubmissionSynced.
Qed.

Lemma markSubmissionSynced_sets_flag_witness :
  IDB.get "sub_1" (Offline.submissions (Offline.markSubmissionSynced "sub_1" queueWithAda))
  = Some (withBookkeeping true 0 None queuedAda).
Proof.
  exact (proj1
    (@markSubmissionSynced_sets_flag "sub_1" queueWithAda
       (@OfflineFacts.wf_queueSubmission 100 rowAda Offline.emptyDB
          OfflineFacts.wf_emptyDB))
    queuedAda eq_refl).
Defined.

(** X3.  Deleting a submission after marking it synced gives the same
    database as deleting it at once: once both calls of lines 54 and 55 have
    run, the mark has left no trace.  Between the two calls the record is in
    the store with [synced] true, and there it stays when the second call
    does not follow.  [deleteSubmission] removes the record, changes nothing
    when the identifier is not stored, and can be repeated. *)
Theorem delete_after_mark_is_delete (i : string) (db : Offline.DB) :
  Offline.wf db ->
  Offline.deleteSubmission i (Offline.markSubmissionSynced i db)
  = Offline.deleteSubmission i db
  /\ (forall s, IDB.get i (Offline.submissions db) = Some s ->
        exists marked,
          IDB.get i (Offline.submissions (Offline.markSubmissionSynced i db))
          = Some marked
          /\ Submission.synced marked = true)
  /\ IDB.get i (Offline.submissions (Offline.deleteSubmission i db)) = None
  /\ (IDB.get i (Offline.submissions db) = None -> Offline.deleteSubmission i db = db)
  /\ Offline.deleteSubmission i (Offline.deleteSubmission i db)
     = Offline.deleteSubmission i db
  /\ (forall k, k <> i ->
        IDB.get k (Offline.submissions (Offline.deleteSubmission i db))
        = IDB.get k (Offline.submissions db)).
Proof.
  intros Hwf. split; [|split; [|split; [|split; [|split]]]].
  - now apply QueueFacts.delete_after_mark.
  - intros s E. eexists. split.
    + exact (@QueueFacts.get_markSubmissionSynced_same i s db Hwf E).
    + reflexivity.
  - apply IDBFacts.get_delete_same.
  - intros E. unfold Offline.deleteSubmission.
    rewrite IDBFacts.delete_absent by trivial. apply QueueFacts.db_eta.
  - unfold Offline.deleteSubmission. simpl. now rewrite StoreFacts.delete_delete.
  - intros k Hk. simpl. now apply IDBFacts.get_delete_other.
Qed.

Lemma delete_after_mark_is_delete_witness :
  Offline.deleteSubmission "sub_1" (Offline.markSubmissionSynced "sub_1" queueOfTwo)
  = Offline.deleteSubmission "sub_1" queueOfTwo.
Proof.
  exact (proj1
    (@delete_after_mark_is_delete "sub_1" queueOfTwo
       (@OfflineFacts.wf_queueSubmission 150 rowEve queueWithAda
          (@OfflineFacts.wf_queueSubmission 100 rowAda Offline.emptyDB
             OfflineFacts.wf_emptyDB)))).
Defined.

(** ** What a pass does to the queue *)

(** X4.  A pass never adds a record to the queue and never rewrites a
    submission: a record found in the queue after the pass was there before,
    with the same identifier, form, user, answers, creation time and
    [synced] flag, and an attempt counter that has not gone down. *)
Theorem pass_only_ages_records (env : Sync.Env) (pending : list Submission.t)
        (w : Sync.World) (k : string) (s' : Submission.t) :
  Offline.wf (Sync.db w) ->
  IDB.get k (Offline.submissions (Sync.db (snd (Sync.drain env pending w)))) = Some s' ->
  exists s0,
    IDB.get k (Offline.submissions (Sync.db w)) = Some s0 /\ laterVersion s0 s'.
Proof.
  intros Hwf. rewrite DrainFacts.drain_syncLoop.
  now apply PassFacts.syncLoop_record.
Qed.

Lemma pass_only_ages_records_witness :
  exists s0,
    IDB.get "sub_1" (Offline.submissions queueWithAda) = Some s0
    /\ laterVersion s0 (Offline.failedOnce "timeout" queuedAda).
Proof.
  exact (@pass_only_ages_records firstRefused [queuedAda] (worldOf queueWithAda)
           "sub_1" (Offline.failedOnce "timeout" queuedAda)
           (@OfflineFacts.wf_queueSubmission 100 rowAda Offline.emptyDB
              OfflineFacts.wf_emptyDB)
           eq_refl).
Defined.

(** X5.  When the list a pass drains is a snapshot of the queue (items with
    different identifiers, each equal to the record stored under its
    identifier), the pass keeps every attempt counter at 5 or below if they
    all were before. *)
Theorem attempts_stay_within_ceiling (env : Sync.Env)
        (pending : list Submission.t) (w : Sync.World) :
  Offline.wf (Sync.db w) ->
  snapshotOf (Sync.db w) pending ->
  (forall k x, IDB.get k (Offline.submissions (Sync.db w)) = Some x ->
               (Submission.syncAttempts x <= 5)%Z) ->
  forall k x,
    IDB.get k (Offline.submissions (Sync.db (snd (Sync.drain env pending w)))) = Some x ->
    (Submission.syncAttempts x <= 5)%Z.
Proof.
  intros Hwf Hsnap Hbound. rewrite DrainFacts.drain_syncLoop.
  now apply (@PassFacts.syncLoop_snapshot env pending Sync.noResults w Hwf Hsnap).
Qed.

Lemma attempts_stay_within_ceiling_witness :
  IDB.get "sub_1" (Offline.submissions
                     (Sync.db (snd (Sync.drain firstRefused [queuedAda]
                                               (worldOf queueWithAda)))))
  = Some (Offline.failedOnce "timeout" queuedAda)
  /\ (Submission.syncAttempts (Offline.failedOnce "timeout" queuedAda) <= 5)%Z.
Proof.
  split; [reflexivity|].
  refine (@attempts_stay_within_ceiling firstRefused [queuedAda]
            (worldOf queueWithAda) _ _ _ "sub_1" _ eq_refl).
  - exact (@OfflineFacts.wf_queueSubmission 100 rowAda Offline.emptyDB
             OfflineFacts.wf_emptyDB).
  - split.
    + repeat constructor. intros [].
    + intros s [<- | []]. reflexivity.
  - intros k x. simpl. destruct (String.eqb k "sub_1"); [|discriminate].
    intros [= <-]. simpl. lia.
Defined.

(** X6.  Over a snapshot of the queue, the queue shrinks by the number of
    successes the pass reports: the records left plus [success] make the
    records there were. *)
Theorem queue_shrinks_by_successes (env : Sync.Env)
        (pending : list Submission.t) (w : Sync.World) :
  Offline.wf (Sync.db w) ->
  snapshotOf (Sync.db w) pending ->
  Offline.queueLength (Sync.db (snd (Sync.drain env pending w)))
  + Sync.success (fst (Sync.drain env pending w))
  = Offline.queueLength (Sync.db w).
Proof.
  intros Hwf Hsnap. rewrite DrainFacts.drain_syncLoop.
  destruct (@PassFacts.syncLoop_snapshot env pending Sync.noResults w Hwf Hsnap)
    as [Hlen _].
  simpl in Hlen. lia.
Qed.

Lemma queue_shrinks_by_successes_witness :
  Offline.queueLength
    (Sync.db (snd (Sync.drain firstRefused [queuedAda; queuedEve] (worldOf queueOfTwo))))
  + Sync.success (fst (Sync.drain firstRefused [queuedAda; queuedEve] (worldOf queueOfTwo)))
  = Offline.queueLength queueOfTwo.
Proof.
  refine (@queue_shrinks_by_successes firstRefused [queuedAda; queuedEve]
            (worldOf queueOfTwo) _ _).
  - exact (@OfflineFacts.wf_queueSubmission 150 rowEve queueWithAda
             (@OfflineFacts.wf_queueSubmission 100 rowAda Offline.emptyDB
                OfflineFacts.wf_emptyDB)).
  - split.
    + repeat constructor; simpl; intuition discriminate.
    + intros s [<- | [<- | []]]; reflexivity.
Defined.

(** X7.  A pass writes remote rows only for the items it attempts: the row
    found under any other identifier is the same before and after the pass,
    Teable columns included. *)
Theorem pass_leaves_other_rows (env : Sync.Env) (pending : list Submission.t)
        (w : Sync.World) (j : string) :
  ~ In j (map Submission.id (Sync.attempted pending)) ->
  Remote.find j (Sync.remote (snd (Sync.drain env pending w)))
  = Remote.find j (Sync.remote w).
Proof.
  intros Hj. rewrite DrainFacts.drain_syncLoop.
  now apply PassFacts.syncLoop_remote_other.
Qed.

Lemma pass_leaves_other_rows_witness :
  Remote.find "sub_0"
    (Sync.remote (snd (Sync.drain teableDown [queuedAda; queuedEve]
                                  (worldWithRow queueOfTwo))))
  = Some otherRow.
Proof.
  refine (@pass_leaves_other_rows teableDown [queuedAda; queuedEve]
            (worldWithRow queueOfTwo) "sub_0" _).
  simpl. intuition discriminate.
Defined.

(** X8.  A pass writes nothing into the remote table but the data of the
    submissions it drains: a row found after the pass, under any identifier,
    is the row that was found there before, or it carries the identifier,
    form, user, answers and creation time of an item of the drained list. *)
Theorem pass_writes_only_queued_data (env : Sync.Env)
        (pending : list Submission.t) (w : Sync.World) (k : string)
        (row : Remote.Row) :
  Remote.find k (Sync.remote (snd (Sync.drain env pending w))) = Some row ->
  Remote.find k (Sync.remote w) = Some row
  \/ exists s, In s pending /\ carries row s.
Proof.
  rewrite DrainFacts.drain_syncLoop. apply PassFacts.syncLoop_remote_source.
Qed.

Lemma pass_writes_only_queued_data_witness :
  Remote.find "sub_2"
    (Sync.remote (snd (Sync.drain firstRefused [queuedAda; queuedEve]
                                  (worldWithRow queueOfTwo))))
  = Some (Remote.ofSubmission queuedEve)
  /\ (Remote.find "sub_2" (Sync.remote (worldWithRow queueOfTwo))
      = Some (Remote.ofSubmission queuedEve)
      \/ exists s, In s [queuedAda; queuedEve]
                   /\ carries (Remote.ofSubmission queuedEve) s).
Proof.
  split; [reflexivity|].
  exact (@pass_writes_only_queued_data firstRefused [queuedAda; queuedEve]
           (worldWithRow queueOfTwo) "sub_2" (Remote.ofSubmission queuedEve) eq_refl).
Defined.

(** X9.  A pass keeps the stores well formed: the keys of the queue stay
    strictly ascending with every record under its own identifier, the
    drafts are not touched, and no two remote rows bear the same
    identifier. *)
Theorem pass_keeps_stores_well_formed (env : Sync.Env)
        (pending : list Submission.t) (w : Sync.World) :
  Offline.wf (Sync.db w) ->
  Remote.wf (Sync.remote w) ->
  Offline.wf (Sync.db (snd (Sync.drain env pending w)))
  /\ Remote.wf (Sync.remote (snd (Sync.drain env pending w)))
  /\ Offline.formProgress (Sync.db (snd (Sync.drain env pending w)))
     = Offline.formProgress (Sync.db w)
  /\ List.length (Sync.remote w)
     <= List.length (Sync.remote (snd (Sync.drain env pending w))).
Proof.
  intros Hwf Hrwf. rewrite DrainFacts.drain_syncLoop.
  destruct (@SyncFacts.syncLoop_wf env pending Sync.noResults w Hwf Hrwf) as [H1 H2].
  split; [exact H1|]. split; [exact H2|]. split; [apply SyncFacts.syncLoop_drafts|].
  assert (Hids : forall t, List.length t = List.length (Remote.ids t))
    by (intros; unfold Remote.ids; now rewrite length_map).
  rewrite !Hids. apply NoDup_incl_length; [exact Hrwf|].
  intros i Hi. now apply SyncFacts.syncLoop_remote_grows.
Qed.

Lemma pass_keeps_stores_well_formed_witness :
  Remote.wf
    (Sync.remote (snd (Sync.drain teableDown [queuedAda; queuedEve]
                                  (worldWithRow queueOfTwo)))).
Proof.
  refine (proj1 (proj2
    (@pass_keeps_stores_well_formed teableDown [queuedAda; queuedEve]
       (worldWithRow queueOfTwo) _ _))).
  - exact (@OfflineFacts.wf_queueSubmission 150 rowEve queueWithAda
             (@OfflineFacts.wf_queueSubmission 100 rowAda Offline.emptyDB
                OfflineFacts.wf_emptyDB)).
  - repeat constructor. intros [].
Defined.

(** X10.  Whatever the queue holds, [getPendingSubmissions] returns no
    record: the index [by-sync-status] is asked for the number 0, and the
    [synced] flag of a stored record is a boolean, which is not a key of an
    index.  So [syncPendingSubmissions] returns the empty summary and
    changes nothing, and "Sync Now" reports that there is nothing to sync,
    also when unsynced submissions are stored. *)
Theorem nothing_is_ever_pending (env : Sync.Env) (w : Sync.World) :
  Offline.getPendingSubmissions (Sync.db w) = []
  /\ Sync.syncPendingSubmissions env w = (Sync.noResults, w)
  /\ Dashboard.handleSync env w = ([Dashboard.NothingAlert], w)
  /\ unsynced queueOfTwo = [queuedAda; queuedEve]
  /\ Offline.getPendingSubmissions queueOfTwo = [].
Proof.
  assert (Hnil : forall d, Offline.getPendingSubmissions d = [])
    by apply OfflineFacts.getPendingSubmissions_nil.
  assert (Hpass : Sync.syncPendingSubmissions env w = (Sync.noResults, w)).
  { unfold Sync.syncPendingSubmissions. now rewrite Hnil. }
  split; [apply Hnil|]. split; [exact Hpass|].
  split; [|split; [reflexivity | apply Hnil]].
  unfold Dashboard.handleSync. now rewrite Hpass.
Qed.

(** ** The downloaded forms *)

Module StorageFacts.
Import Storage.

Lemma wf_emptyDatabase : wf emptyDatabase.
Proof. split; [apply IDBFacts.wf_nil | apply OfflineFacts.wf_emptyDB]. Qed.

Lemma wf_saveFormOffline now form fields db :
  wf db -> wf (saveFormOffline now form fields db).
Proof. intros [H1 H2]. split; simpl; [now apply IDBFacts.wf_put | exact H2]. Qed.

Lemma wf_deleteOfflineForm i db : wf db -> wf (deleteOfflineForm i db).
Proof. intros [H1 H2]. split; simpl; [now apply IDBFacts.wf_delete | exact H2]. Qed.

Lemma inIndex_by_project p f :
  IDB.inIndex by_project (IDB.KeyString p) f = String.eqb (OfflineForm.projectId f) p.
Proof. reflexivity. Qed.

Lemma stored_iff db f :
  wf db ->
  In f (getAllOfflineForms db) <-> getOfflineForm (OfflineForm.id f) db = Some f.
Proof.
  intros [Hwf _]. split.
  - now apply OfflineFacts.get_stored.
  - destruct Hwf as [_ Hi]. now apply StoreFacts.In_records_get.
Qed.

End StorageFacts.

(** X11.  A downloaded form is read back as it was saved: after
    [saveFormOffline], [getOfflineForm] returns the form with the fields
    given and the time of the download; downloading the same form again
    replaces the record as a whole; the other forms and the queue are
    untouched. *)
Theorem offline_form_round_trip (now now' : Z) (form form' : FormRow.t)
        (fields fields' : list XmlParser.FormField.t) (db : Storage.Database) :
  Storage.getOfflineForm (FormRow.id form) (Storage.saveFormOffline now form fields db)
  = Some (downloaded now form fields)
  /\ (FormRow.id form' = FormRow.id form ->
      Storage.getOfflineForm (FormRow.id form)
        (Storage.saveFormOffline now' form' fields'
           (Storage.saveFormOffline now form fields db))
      = Some (downloaded now' form' fields'))
  /\ (forall k, k <> FormRow.id form ->
        Storage.getOfflineForm k (Storage.saveFormOffline now form fields db)
        = Storage.getOfflineForm k db)
  /\ Storage.queue (Storage.saveFormOffline now form fields db) = Storage.queue db
  /\ (Storage.wf db -> Storage.wf (Storage.saveFormOffline now form fields db)).
Proof.
  split; [|split; [|split; [|split]]]; trivial.
  - unfold Storage.getOfflineForm, Storage.saveFormOffline, IDB.put. simpl.
    apply IDBFacts.get_insert_same.
  - intros E. unfold Storage.getOfflineForm, Storage.saveFormOffline, IDB.put.
    simpl. rewrite <- E. apply IDBFacts.get_insert_same.
  - intros k Hk. unfold Storage.getOfflineForm, Storage.saveFormOffline, IDB.put.
    simpl. now apply IDBFacts.get_insert_other.
  - apply StorageFacts.wf_saveFormOffline.
Qed.

(** X12.  [getOfflineFormsByProject] returns exactly the downloaded forms of
    the project: a form is in the list if and only if it is stored and its
    project is the one asked for; the list comes in ascending order of form
    identifier. *)
Theorem forms_by_project_exact (projectId : string) (db : Storage.Database) :
  Storage.wf db ->
  (forall f,
      In f (Storage.getOfflineFormsByProject projectId db)
      <-> Storage.getOfflineForm (OfflineForm.id f) db = Some f
          /\ OfflineForm.projectId f = projectId)
  /\ StronglySorted String_as_OT.lt
       (map OfflineForm.id (Storage.getOfflineFormsByProject projectId db))
  /\ StronglySorted String_as_OT.lt
       (map OfflineForm.id (Storage.getAllOfflineForms db)).
Proof.
  intros Hwf. split; [|split].
  - intros f. unfold Storage.getOfflineFormsByProject, IDB.getAllFromIndex.
    rewrite filter_In, StorageFacts.inIndex_by_project, String.eqb_eq.
    now rewrite <- (StorageFacts.stored_iff f Hwf).
  - destruct Hwf as [Hwf _]. now apply IDBFacts.getAllFromIndex_sorted.
  - destruct Hwf as [[Hs Hi] _]. unfold Storage.getAllOfflineForms.
    assert (E : map OfflineForm.id (IDB.records (Storage.forms db))
                = IDB.keys (Storage.forms db)).
    { unfold IDB.records, IDB.keys. rewrite map_map. apply map_ext_in.
      intros kv Hin. unfold IDB.inline in Hi. rewrite Forall_forall in Hi.
      symmetry. now apply Hi. }
    rewrite E. exact Hs.
Qed.

Lemma forms_by_project_exact_witness :
  map OfflineForm.id (Storage.getOfflineFormsByProject "p1" threeForms) = ["f1"; "f3"]
  /\ forall f,
       In f (Storage.getOfflineFormsByProject "p1" threeForms)
       <-> Storage.getOfflineForm (OfflineForm.id f) threeForms = Some f
           /\ OfflineForm.projectId f = "p1".
Proof.
  split; [reflexivity|].
  refine (proj1 (@forms_by_project_exact "p1" threeForms _)).
  repeat apply StorageFacts.wf_saveFormOffline. apply StorageFacts.wf_emptyDatabase.
Defined.

(** X13.  After [deleteOfflineForm] the form is gone: [getOfflineForm]
    finds nothing under its identifier and no form of the list bears it; the
    forms that remain were stored before, the other forms and the queue are
    untouched, and deleting a form that is not stored changes nothing. *)
Theorem deleted_form_is_gone (formId : string) (db : Storage.Database) :
  Storage.wf db ->
  Storage.getOfflineForm formId (Storage.deleteOfflineForm formId db) = None
  /\ (forall f, In f (Storage.getAllOfflineForms (Storage.deleteOfflineForm formId db)) ->
                OfflineForm.id f <> formId /\ In f (Storage.getAllOfflineForms db))
  /\ (forall k, k <> formId ->
        Storage.getOfflineForm k (Storage.deleteOfflineForm formId db)
        = Storage.getOfflineForm k db)
  /\ (Storage.getOfflineForm formId db = None ->
      Storage.deleteOfflineForm formId db = db)
  /\ Storage.queue (Storage.deleteOfflineForm formId db) = Storage.queue db.
Proof.
  intros Hwf. split; [|split; [|split; [|split]]]; trivial.
  - apply IDBFacts.get_delete_same.
  - intros f Hin. split.
    + intros E.
      apply (StorageFacts.stored_iff f (StorageFacts.wf_deleteOfflineForm formId Hwf))
        in Hin.
      rewrite E in Hin. unfold Storage.getOfflineForm in Hin. simpl in Hin.
      rewrite IDBFacts.get_delete_same in Hin. discriminate.
    + unfold Storage.getAllOfflineForms in *. simpl in Hin.
      now apply StoreFacts.records_delete in Hin.
  - intros k Hk. unfold Storage.getOfflineForm. simpl.
    now apply IDBFacts.get_delete_other.
  - unfold Storage.getOfflineForm, Storage.deleteOfflineForm. intros E.
    rewrite IDBFacts.delete_absent by trivial. now destruct db.
Qed.

Lemma deleted_form_is_gone_witness :
  map OfflineForm.id
      (Storage.getAllOfflineForms (Storage.deleteOfflineForm "f2" threeForms))
  = ["f1"; "f3"]
  /\ Storage.getOfflineForm "f2" (Storage.deleteOfflineForm "f2" threeForms) = None.
Proof.
  split; [reflexivity|].
  refine (proj1 (@deleted_form_is_gone "f2" threeForms _)).
  repeat apply StorageFacts.wf_saveFormOffline. apply StorageFacts.wf_emptyDatabase.
Defined.

(** X14.  A downloaded form is always opened from the local copy, online or
    not and whatever the remote store would answer: [loadForm] shows the
    stored fields without parsing the XML again, raises the offline badge
    and starts from the saved draft.  A form that is not downloaded cannot
    be opened offline: the page fails with "Form not available offline";
    online, a form the remote store does not have fails with "Form not
    found". *)
Theorem downloaded_form_opens_locally
        (parseXForm : string -> JS.Thrown + list XmlParser.FormField.t)
        (today : string) (onLine : bool) (answer : FormCollect.SelectOutcome)
        (now saved : Z) (form : FormRow.t) (fields : list XmlParser.FormField.t)
        (P : JS.Json) (db : Storage.Database) :
  FormCollect.loadForm parseXForm today onLine answer (FormRow.id form)
    (onQueue (Offline.saveFormProgress saved (FormRow.id form) P)
       (Storage.saveFormOffline now form fields db))
  = FormCollect.Opened (shownOffline today (downloaded now form fields)) fields true P
  /\ FormCollect.loadForm parseXForm today false answer (FormRow.id form)
       (Storage.deleteOfflineForm (FormRow.id form) db)
     = FormCollect.Failed "Form not available offline. Please connect to the internet."
  /\ FormCollect.loadForm parseXForm today true FormCollect.NoRow (FormRow.id form)
       (Storage.deleteOfflineForm (FormRow.id form) db)
     = FormCollect.Failed "Form not found"
  /\ (forall f,
        Storage.getOfflineForm (FormRow.id form) db = Some f ->
        FormCollect.loadForm parseXForm today onLine answer (FormRow.id form) db
        = FormCollect.Opened (shownOffline today f) (OfflineForm.fields f) true
            (Collect.loadValues (FormRow.id form) (Storage.queue db))).
Proof.
  split; [|split; [|split]].
  - unfold FormCollect.loadForm, Storage.getOfflineForm, onQueue. simpl.
    unfold IDB.put. simpl. rewrite IDBFacts.get_insert_same.
    unfold Collect.loadValues, Offline.getFormProgress. simpl.
    unfold IDB.put. simpl. now rewrite IDBFacts.get_insert_same.
  - unfold FormCollect.loadForm, Storage.getOfflineForm. simpl.
    now rewrite IDBFacts.get_delete_same.
  - unfold FormCollect.loadForm, Storage.getOfflineForm. simpl.
    now rewrite IDBFacts.get_delete_same.
  - intros f E. unfold FormCollect.loadForm. now rewrite E.
Qed.

(** ** The Teable push *)

Module PushFacts.
Import TeableSync.

Lemma filter_nil (A : Type) (p : A -> bool) (l : list A) :
  (forall x, In x l -> p x = false) -> filter p l = [].
Proof.
  induction l as [|x rest IH]; simpl; intros H; trivial.
  rewrite (H x (or_introl eq_refl)). apply IH. intros; apply H; now right.
Qed.

Lemma pushed_columns o row : sameSubmissionColumns row (pushed o row).
Proof.
  destruct o as [[recordId|] [|] | | e [|] | e]; repeat split.
Qed.

Lemma push_absent o i t :
  Remote.find i t = None -> snd (Teable.syncSubmissionToTeable o i t) = t.
Proof.
  intros H. destruct o as [recordId [|] | | e [|] | e]; simpl; trivial;
    now apply TableFacts.updateWhereId_absent.
Qed.

Lemma length_push o i t :
  List.length (snd (Teable.syncSubmissionToTeable o i t)) = List.length t.
Proof.
  destruct o as [recordId [|] | | e [|] | e]; simpl; trivial;
    apply TableFacts.length_updateWhereId.
Qed.

Lemma pushAll_results env submissions :
  forall t, List.length (fst (pushAll env submissions t)) = List.length submissions.
Proof.
  induction submissions as [|sub rest IH]; intros t; simpl; trivial.
  destruct (Teable.syncSubmissionToTeable (pushOf env sub) sub t) as [settled t1].
  specialize (IH t1). destruct (pushAll env rest t1) as [others t2].
  simpl in *. now rewrite IH.
Qed.

Lemma pushAll_other env submissions j :
  ~ In j submissions ->
  forall t, Remote.find j (snd (pushAll env submissions t)) = Remote.find j t.
Proof.
  induction submissions as [|sub rest IH]; intros Hj t; simpl; trivial.
  pose proof (@TableFacts.find_push_other (pushOf env sub) sub t j) as Hone.
  destruct (Teable.syncSubmissionToTeable (pushOf env sub) sub t) as [settled t1].
  assert (Hrest : ~ In j rest) by (simpl in Hj; intuition).
  specialize (IH Hrest t1). destruct (pushAll env rest t1) as [others t2].
  simpl in *. rewrite IH. apply Hone. intuition.
Qed.

Lemma pushAll_length env submissions :
  forall t, List.length (snd (pushAll env submissions t)) = List.length t.
Proof.
  induction submissions as [|sub rest IH]; intros t; simpl; trivial.
  pose proof (length_push (pushOf env sub) sub t) as Hone.
  destruct (Teable.syncSubmissionToTeable (pushOf env sub) sub t) as [settled t1].
  specialize (IH t1). destruct (pushAll env rest t1) as [others t2].
  simpl in *. congruence.
Qed.

(** When every push is accepted and stored, a row is synced afterwards
    unless it was not among those pushed. *)
Lemma pushAll_all_pushed env submissions :
  (forall i, In i submissions -> exists recordId, pushOf env i = Teable.Pushed recordId true) ->
  forall t r',
    In r' (snd (pushAll env submissions t)) ->
    Remote.synced_to_teable r' = true
    \/ (In r' t /\ ~ In (Remote.id r') submissions).
Proof.
  induction submissions as [|sub rest IH]; intros Hall t r' Hin.
  - right. split; [exact Hin | intros []].
  - simpl in Hin. destruct (Hall sub (or_introl eq_refl)) as [recordId Hpush].
    rewrite Hpush in Hin. simpl in Hin.
    assert (Hrest : forall i, In i rest ->
                              exists recordId, pushOf env i = Teable.Pushed recordId true)
      by (intros; apply Hall; now right).
    specialize (IH Hrest
                  (Remote.updateWhereId (Remote.setTeablePushed recordId) sub t) r').
    destruct (pushAll env rest
                (Remote.updateWhereId (Remote.setTeablePushed recordId) sub t))
      as [others t2].
    simpl in *. destruct (IH Hin) as [Hs | [Hin1 Hnot]]; [now left|].
    unfold Remote.updateWhereId in Hin1. apply in_map_iff in Hin1.
    destruct Hin1 as [r [E Hr]].
    destruct (String.eqb_spec (Remote.id r) sub) as [Eid|Hne].
    + left. now subst r'.
    + right. subst r'. split; trivial. intros [E|H]; [congruence | contradiction].
Qed.

Lemma pushAll_all_succeed env submissions :
  (forall i, In i submissions -> exists recordId, pushOf env i = Teable.Pushed recordId true) ->
  forall t,
    List.length (filter fulfilledWithSuccess (fst (pushAll env submissions t)))
    = List.length submissions.
Proof.
  induction submissions as [|sub rest IH]; intros Hall t; simpl; trivial.
  destruct (Hall sub (or_introl eq_refl)) as [recordId Hpush].
  rewrite Hpush. simpl.
  assert (Hrest : forall i, In i rest ->
                            exists recordId, pushOf env i = Teable.Pushed recordId true)
    by (intros; apply Hall; now right).
  specialize (IH Hrest
                (if true
                 then Remote.updateWhereId (Remote.setTeablePushed recordId) sub t
                 else t)).
  simpl in IH.
  destruct (pushAll env rest
              (Remote.updateWhereId (Remote.setTeablePushed recordId) sub t))
    as [others t2].
  simpl in *. now rewrite IH.
Qed.

End PushFacts.

(** X15.  A Teable push writes the row of its own submission only, and of
    that row only the Teable columns: rows under other identifiers are the
    same afterwards, no row is added or removed, the identifier, form, user,
    answers and creation time of the pushed row are kept, and when no row
    bears the identifier the table is left as it is. *)
Theorem push_writes_its_row_only (o : Teable.Outcome) (i : string)
        (t : Remote.table) :
  (forall j, j <> i ->
     Remote.find j (snd (Teable.syncSubmissionToTeable o i t)) = Remote.find j t)
  /\ Remote.ids (snd (Teable.syncSubmissionToTeable o i t)) = Remote.ids t
  /\ List.length (snd (Teable.syncSubmissionToTeable o i t)) = List.length t
  /\ (forall row, Remote.find i t = Some row ->
        Remote.find i (snd (Teable.syncSubmissionToTeable o i t)) = Some (pushed o row)
        /\ sameSubmissionColumns row (pushed o row))
  /\ (Remote.find i t = None -> snd (Teable.syncSubmissionToTeable o i t) = t).
Proof.
  split; [|split; [|split; [|split]]].
  - intros j Hj. now apply TableFacts.find_push_other.
  - apply RemoteFacts.ids_syncSubmissionToTeable.
  - apply PushFacts.length_push.
  - intros row E. rewrite TableFacts.find_push_same, E. simpl.
    split; [reflexivity | apply PushFacts.pushed_columns].
  - apply PushFacts.push_absent.
Qed.

(** X16.  The bookkeeping of the push follows the last push whose update
    is stored: a push accepted after a failed one leaves the row synced with
    no error; a push that throws after an accepted one leaves the row
    unsynced with the message.  The Teable record of the row is the one the
    accepted push names; when the response names none, and always when a
    push throws, the row keeps the record it had.  The promise is fulfilled
    with success only when Teable accepts the push. *)
Theorem push_bookkeeping (i : string) (t : Remote.table) (row : Remote.Row)
        (e : JS.Thrown) (recordId : option string) :
  Remote.find i t = Some row ->
  (exists after,
      Remote.find i
        (snd (Teable.syncSubmissionToTeable (Teable.Pushed recordId true) i
                (snd (Teable.syncSubmissionToTeable (Teable.Throws e true) i t))))
      = Some after
      /\ Remote.synced_to_teable after = true
      /\ Remote.teable_record_id after
         = match recordId with
           | Some named => Some named
           | None => Remote.teable_record_id row
           end
      /\ Remote.sync_error after = None
      /\ sameSubmissionColumns row after)
  /\ (exists after,
        Remote.find i
          (snd (Teable.syncSubmissionToTeable (Teable.Throws e true) i
                  (snd (Teable.syncSubmissionToTeable (Teable.Pushed recordId true) i t))))
        = Some after
        /\ Remote.synced_to_teable after = false
        /\ Remote.teable_record_id after
           = match recordId with
             | Some named => Some named
             | None => Remote.teable_record_id row
             end
        /\ Remote.sync_error after
           = Some (if String.eqb (JS.message e) "" then "Unknown error"
                   else JS.message e)
        /\ sameSubmissionColumns row after)
  /\ (forall o,
        fst (Teable.syncSubmissionToTeable o i t)
        = JS.Fulfilled {| Teable.success := true; Teable.error := None |}
        <-> exists r stored, o = Teable.Pushed r stored).
Proof.
  intros E. split; [|split].
  - rewrite !TableFacts.find_push_same, E. simpl.
    eexists. split; [reflexivity|]. destruct recordId; repeat split.
  - rewrite !TableFacts.find_push_same, E. simpl.
    eexists. split; [reflexivity|]. destruct recordId; repeat split.
  - intros o. split.
    + destruct o as [r stored | | e' stored | e']; simpl; try discriminate.
      intros _. now exists r, stored.
    + intros [r [stored ->]]. reflexivity.
Qed.

Lemma push_bookkeeping_witness :
  exists after,
    Remote.find "sub_9"
      (snd (Teable.syncSubmissionToTeable (Teable.Pushed (Some "rec7") true) "sub_9"
              (snd (Teable.syncSubmissionToTeable
                      (Teable.Throws {| JS.instanceofError := true; JS.message := "" |} true)
                      "sub_9" twoRows))))
    = Some after
    /\ Remote.synced_to_teable after = true
    /\ Remote.teable_record_id after = Some "rec7"
    /\ Remote.sync_error after = None
    /\ sameSubmissionColumns unpushedRow after.
Proof.
  exact (proj1
    (@push_bookkeeping "sub_9" twoRows unpushedRow
       {| JS.instanceofError := true; JS.message := "" |} (Some "rec7") eq_refl)).
Defined.

(** X17.  [syncAllPendingSubmissions] without a project pushes the rows
    whose [synced_to_teable] is false and no other: [total] is their number,
    [successful] and [failed] add up to it, and the row under an identifier
    that was not unsynced is the same afterwards.  When Teable accepts every
    push and the bookkeeping is stored, every push counts as successful and
    no unsynced row is left.  When the query fails the summary is all zero
    and the table untouched. *)
Theorem bulk_push_covers_unsynced_rows (env : TeableSync.Env)
        (projectId : option string) (t : Remote.table) :
  TeableSync.givenProject projectId = false ->
  (TeableSync.queryError env = None ->
   TeableSync.total (fst (TeableSync.syncAllPendingSubmissions env projectId t))
   = List.length (TeableSync.unsyncedIds t)
   /\ TeableSync.successful (fst (TeableSync.syncAllPendingSubmissions env projectId t))
      + TeableSync.failed (fst (TeableSync.syncAllPendingSubmissions env projectId t))
      = TeableSync.total (fst (TeableSync.syncAllPendingSubmissions env projectId t))
   /\ (forall j, ~ In j (TeableSync.unsyncedIds t) ->
         Remote.find j (snd (TeableSync.syncAllPendingSubmissions env projectId t))
         = Remote.find j t)
   /\ List.length (snd (TeableSync.syncAllPendingSubmissions env projectId t))
      = List.length t
   /\ ((forall i, exists recordId, TeableSync.pushOf env i = Teable.Pushed recordId true) ->
       TeableSync.unsyncedIds (snd (TeableSync.syncAllPendingSubmissions env projectId t))
       = []
       /\ TeableSync.successful (fst (TeableSync.syncAllPendingSubmissions env projectId t))
          = List.length (TeableSync.unsyncedIds t)
       /\ TeableSync.failed (fst (TeableSync.syncAllPendingSubmissions env projectId t))
          = 0))
  /\ (forall error, TeableSync.queryError env = Some error ->
        TeableSync.syncAllPendingSubmissions env projectId t
        = ({| TeableSync.total := 0; TeableSync.successful := 0;
              TeableSync.failed := 0 |}, t)).
Proof.
  intros Hp. unfold TeableSync.syncAllPendingSubmissions. rewrite Hp. split.
  - intros Hq. rewrite Hq.
    pose proof (PushFacts.pushAll_results env (TeableSync.unsyncedIds t) t) as Hres.
    pose proof (PushFacts.pushAll_length env (TeableSync.unsyncedIds t) t) as Hlen.
    pose proof (fun j H => @PushFacts.pushAll_other env (TeableSync.unsyncedIds t) j H t)
      as Hother.
    pose proof (fun H => @PushFacts.pushAll_all_pushed env (TeableSync.unsyncedIds t) H t)
      as Hall.
    pose proof (fun H => @PushFacts.pushAll_all_succeed env (TeableSync.unsyncedIds t) H t)
      as Hsucc.
    destruct (TeableSync.pushAll env (TeableSync.unsyncedIds t) t) as [results t'].
    simpl in *.
    pose proof (filter_length_le TeableSync.fulfilledWithSuccess results) as Hle.
    split; [reflexivity|]. split; [lia|]. split; [exact Hother|].
    split; [exact Hlen|].
    intros Hup.
    assert (Hup' : forall i, In i (TeableSync.unsyncedIds t) ->
                             exists recordId,
                               TeableSync.pushOf env i = Teable.Pushed recordId true)
      by (intros; apply Hup).
    split; [|split].
    + unfold TeableSync.unsyncedIds at 1.
      assert (Hnone : filter (fun r => negb (Remote.synced_to_teable r)) t' = []).
      { apply PushFacts.filter_nil.
        intros r' Hin. destruct (Hall Hup' r' Hin) as [Hs | [Hin0 Hnot]].
        - now rewrite Hs.
        - destruct (Remote.synced_to_teable r') eqn:Hs; trivial.
          exfalso. apply Hnot. unfold TeableSync.unsyncedIds, Remote.ids.
          apply in_map. apply filter_In. split; trivial. now rewrite Hs. }
      now rewrite Hnone.
    + now apply Hsucc.
    + rewrite (Hsucc Hup'). lia.
  - intros error Hq. now rewrite Hq.
Qed.

Lemma bulk_push_covers_unsynced_rows_witness :
  TeableSync.unsyncedIds
    (snd (TeableSync.syncAllPendingSubmissions teableUp None twoRows)) = []
  /\ Remote.find "sub_0"
       (snd (TeableSync.syncAllPendingSubmissions teableUp None twoRows))
     = Some otherRow.
Proof.
  split.
  - refine (proj1 (proj2 (proj2 (proj2 (proj2
      (proj1 (@bulk_push_covers_unsynced_rows teableUp None twoRows eq_refl)
         eq_refl)))) _)).
    intros i. now exists (Some ("rec_" ++ i)).
  - reflexivity.
Defined.

(** ** When passes start *)

Module TriggerFacts.
Import Listener.

Lemma idleOffline_step s e :
  e <> NavigatorOnLine true -> idleOffline s -> idleOffline (step s e).
Proof.
  intros He (H1 & H2 & H3).
  destruct e as [[|] | | outcome | | | | db | | shown]; simpl.
  - congruence.
  - now repeat split.
  - rewrite H2, H1. simpl. now repeat split.
  - rewrite H3. now repeat split.
  - now repeat split.
  - now repeat split.
  - now repeat split.
  - now repeat split.
  - destruct (buttonShown (dashboard s) && negb (buttonDisabled (dashboard s)));
      now repeat split.
  - destruct (manualPasses s); now repeat split.
Qed.

Lemma idleOffline_run trace :
  Forall (fun e => e <> NavigatorOnLine true) trace ->
  forall s, idleOffline s -> idleOffline (run s trace).
Proof.
  unfold run. induction 1 as [|e rest He Hrest IH]; simpl; intros s Hs; trivial.
  apply IH. now apply idleOffline_step.
Qed.

Lemma neverOffered_step s e : neverOffered s -> neverOffered (step s e).
Proof.
  intros (Hcount & Hshown & Hmanual).
  destruct e as [b | | outcome | | | | db | | shown]; simpl.
  - now repeat split.
  - destruct (syncInProgress s || negb (online s)); now repeat split.
  - destruct (listenerPasses s); now repeat split.
  - now repeat split.
  - unfold neverOffered. simpl. now rewrite Hcount.
  - now repeat split.
  - unfold neverOffered. simpl.
    now rewrite OfflineFacts.getPendingSubmissions_nil.
  - rewrite Hshown. simpl. now repeat split.
  - rewrite Hmanual. now repeat split.
Qed.

Lemma neverOffered_run trace : forall s, neverOffered s -> neverOffered (run s trace).
Proof.
  unfold run. induction trace as [|e rest IH]; simpl; intros s Hs; trivial.
  apply IH. now apply neverOffered_step.
Qed.

End TriggerFacts.

(** X18.  While [navigator.onLine] stays false the listener starts no pass:
    whatever timers fire and whatever else happens, [triggerSync] returns at
    its first line, no pass of the listener is in flight and the flag stays
    clear. *)
Theorem offline_listener_starts_no_pass (trace : list Listener.Event) :
  staysOffline trace ->
  Listener.listenerPasses (Listener.run (Listener.initial false) trace) = 0
  /\ Listener.syncInProgress (Listener.run (Listener.initial false) trace) = false
  /\ Listener.online (Listener.run (Listener.initial false) trace) = false.
Proof.
  intros Hoff.
  destruct (@TriggerFacts.idleOffline_run trace Hoff (Listener.initial false))
    as (H1 & H2 & H3).
  - now repeat split.
  - now repeat split.
Qed.

Lemma offline_listener_starts_no_pass_witness :
  Listener.listenerPasses
    (Listener.run (Listener.initial false)
       [Listener.TriggerSync; Listener.NavigatorOnLine false; Listener.TriggerSync])
  = 0.
Proof.
  refine (proj1 (@offline_listener_starts_no_pass
    [Listener.TriggerSync; Listener.NavigatorOnLine false; Listener.TriggerSync] _)).
  repeat constructor; discriminate.
Defined.

(** X19.  "Sync Now" is never offered.  The dashboard shows the button
    only while [pendingCount] is above 0, and [loadPendingCount] sets
    [pendingCount] to the length of what [getPendingSubmissions] returns,
    which is always 0.  So whatever is queued, however often the dashboard
    is mounted, rendered or refreshed, the button is not on the screen, a
    press starts nothing, no pass of [handleSync] is ever in flight, and the
    pass of the listener is the only one that runs. *)
Theorem sync_now_is_never_offered (onLine : bool) (trace : list Listener.Event) :
  Listener.pendingCount
    (Listener.dashboard (Listener.run (Listener.initial onLine) trace)) = 0
  /\ Listener.buttonShown
       (Listener.dashboard (Listener.run (Listener.initial onLine) trace)) = false
  /\ Listener.manualPasses (Listener.run (Listener.initial onLine) trace) = 0
  /\ Listener.step (Listener.run (Listener.initial onLine) trace) Listener.HandleSync
     = Listener.run (Listener.initial onLine) trace
  /\ Listener.passes (Listener.run (Listener.initial onLine) trace) <= 1.
Proof.
  assert (Hn : neverOffered (Listener.run (Listener.initial onLine) trace)).
  { apply TriggerFacts.neverOffered_run. now repeat split. }
  destruct Hn as (Hcount & Hshown & Hmanual).
  destruct (ListenerFacts.inv_run trace (ListenerFacts.inv_initial onLine))
    as [Hl _].
  split; [exact Hcount|]. split; [exact Hshown|]. split; [exact Hmanual|]. split.
  - simpl. now rewrite Hshown.
  - unfold Listener.passes. lia.
Qed.

(** ** Strings, types and geometry fields *)

Module TextFacts.
Import Text.

Lemma lowerAscii_idem c : lowerAscii (lowerAscii c) = lowerAscii c.
Proof.
  destruct c as [[|] [|] [|] [|] [|] [|] [|] [|]]; reflexivity.
Qed.

Lemma toLowerCase_idem s : toLowerCase (toLowerCase s) = toLowerCase s.
Proof.
  induction s as [|c rest IH]; simpl; trivial.
  now rewrite lowerAscii_idem, IH.
Qed.

Lemma own_In (A : Type) k (entries : list (string * A)) v :
  own k entries = Some v -> In (k, v) entries.
Proof.
  induction entries as [|[k' v'] rest IH]; simpl; [discriminate|].
  destruct (String.eqb_spec k k') as [->|Hne].
  - intros [= ->]. now left.
  - intros H. right. auto.
Qed.

Lemma find_first (A : Type) (p : A -> bool) (pre post : list A) (x : A) :
  Forall (fun y => p y = false) pre -> p x = true ->
  List.find p (pre ++ x :: post) = Some x.
Proof.
  induction 1 as [|y pre Hy Hpre IH]; simpl; intros Hx.
  - now rewrite Hx.
  - rewrite Hy. auto.
Qed.

Lemma find_None_iff (A : Type) (p : A -> bool) (l : list A) :
  List.find p l = None <-> forall x, In x l -> p x = false.
Proof.
  split; [apply find_none|].
  induction l as [|y rest IH]; simpl; trivial.
  intros H. rewrite (H y (or_introl eq_refl)). apply IH. intros; apply H; now right.
Qed.

End TextFacts.

(** X20.  [mapODKTypeToTeable] does not look at the case of the type name;
    it returns one of the seven Teable types of its table (or, for the names
    constructor and __proto__, the member every object inherits), and the
    single-line text type for a name it does not know.  The entry written
    dateTime in the table can never be reached, because the name is
    lower-cased before the lookup: every spelling of dateTime gives
    single-line text, not date. *)
Theorem mapODKTypeToTeable_ignores_case (odkType : string) :
  XmlParser.mapODKTypeToTeable (Text.toLowerCase odkType)
  = XmlParser.mapODKTypeToTeable odkType
  /\ ((exists t, XmlParser.mapODKTypeToTeable odkType = XmlParser.TeableType t
                 /\ In t teableTypes)
      \/ (XmlParser.inheritedMember (Text.toLowerCase odkType) = true
          /\ XmlParser.mapODKTypeToTeable odkType
             = XmlParser.Inherited (Text.toLowerCase odkType)))
  /\ (Text.own (Text.toLowerCase odkType) XmlParser.typeMap = None ->
      XmlParser.inheritedMember (Text.toLowerCase odkType) = false ->
      XmlParser.mapODKTypeToTeable odkType = XmlParser.TeableType "singleLineText")
  /\ (Text.toLowerCase odkType = "datetime" ->
      XmlParser.mapODKTypeToTeable odkType = XmlParser.TeableType "singleLineText")
  /\ XmlParser.mapODKTypeToTeable "dateTime" = XmlParser.TeableType "singleLineText"
  /\ XmlParser.mapODKTypeToTeable "date" = XmlParser.TeableType "date".
Proof.
  unfold XmlParser.mapODKTypeToTeable at 1 2.
  rewrite TextFacts.toLowerCase_idem.
  split; [reflexivity|]. split; [|split; [|split; [|split; reflexivity]]].
  - unfold XmlParser.mapODKTypeToTeable.
    destruct (Text.own (Text.toLowerCase odkType) XmlParser.typeMap) as [t|] eqn:E.
    + left. apply TextFacts.own_In in E. unfold teableTypes. simpl in E.
      repeat (destruct E as [E|E];
              [injection E as _ <-; simpl; eexists; split;
               [reflexivity | simpl; tauto]|]).
      contradiction.
    + destruct (XmlParser.inheritedMember (Text.toLowerCase odkType)) eqn:Hi.
      * right. now split.
      * left. unfold teableTypes. exists "singleLineText". simpl. tauto.
  - unfold XmlParser.mapODKTypeToTeable. intros -> ->. reflexivity.
  - unfold XmlParser.mapODKTypeToTeable. intros ->. reflexivity.
Qed.

Lemma mapODKTypeToTeable_ignores_case_witness :
  Text.toLowerCase "DateTime" = "datetime"
  /\ XmlParser.mapODKTypeToTeable "DateTime" = XmlParser.TeableType "singleLineText".
Proof.
  split; [reflexivity|].
  apply (proj1 (proj2 (proj2 (proj2 (mapODKTypeToTeable_ignores_case "DateTime"))))).
  reflexivity.
Defined.

(** X21.  [findGeometryField] returns a field of the list that has a
    geometry type or a geometry name, and returns nothing exactly when no
    field has either.  A geometry type wins over a geometry name wherever the
    fields stand in the list, and among the fields with a geometry type the
    first one is returned. *)
Theorem findGeometryField_finds_first (fields : list TeableField.t) :
  (forall f, TeableApi.findGeometryField fields = Some f ->
             In f fields
             /\ (TeableApi.hasGeoFieldType f = true
                 \/ TeableApi.hasGeoFieldName f = true))
  /\ (TeableApi.findGeometryField fields = None <->
      forall f, In f fields ->
                TeableApi.hasGeoFieldType f = false
                /\ TeableApi.hasGeoFieldName f = false)
  /\ (forall g, In g fields -> TeableApi.hasGeoFieldType g = true ->
        exists f, TeableApi.findGeometryField fields = Some f
                  /\ TeableApi.hasGeoFieldType f = true)
  /\ (forall pre f post,
        fields = (pre ++ f :: post)%list ->
        Forall (fun g => TeableApi.hasGeoFieldType g = false) pre ->
        TeableApi.hasGeoFieldType f = true ->
        TeableApi.findGeometryField fields = Some f).
Proof.
  unfold TeableApi.findGeometryField. split; [|split; [|split]].
  - intros f. destruct (List.find TeableApi.hasGeoFieldType fields) as [g|] eqn:E.
    + intros [= <-]. apply find_some in E. tauto.
    + intros H. apply find_some in H. tauto.
  - destruct (List.find TeableApi.hasGeoFieldType fields) as [g|] eqn:E.
    + split; [discriminate|]. intros H. apply find_some in E.
      destruct E as [Hin Hg]. destruct (H g Hin) as [Hf _]. congruence.
    + rewrite TextFacts.find_None_iff. split.
      * intros H f Hin. split; [exact (find_none _ _ E f Hin) | now apply H].
      * intros H f Hin. now apply H.
  - intros g Hin Hg.
    destruct (List.find TeableApi.hasGeoFieldType fields) as [f|] eqn:E.
    + exists f. split; trivial. apply find_some in E. tauto.
    + rewrite (find_none _ _ E g Hin) in Hg. discriminate.
  - intros pre f post -> Hpre Hf.
    now rewrite (@TextFacts.find_first _ _ pre post f Hpre Hf).
Qed.

Lemma findGeometryField_finds_first_witness :
  TeableApi.hasGeoFieldName (teableField "fld1" "Latitude" "number") = true
  /\ TeableApi.findGeometryField sampleFields
     = Some (teableField "fld3" "Where" "GeoPoint").
Proof.
  split; [reflexivity|].
  apply (proj2 (proj2 (proj2 (findGeometryField_finds_first sampleFields)))
           [teableField "fld1" "Latitude" "number";
            teableField "fld2" "Site" "singleLineText"]
           (teableField "fld3" "Where" "GeoPoint") []).
  - reflexivity.
  - repeat constructor.
  - reflexivity.
Defined.

(** X22.  [findAllPotentialGeometryFields] keeps the fields of the list
    that have a geometry type, or a text type and a geometry name, or
    coordinates in a sample record.  Without sample records the
    first two tests decide alone; sample records can only add fields; only
    the first five sample records are looked at. *)
Theorem potential_geometry_fields (extractCoordinates : JS.Json -> bool)
        (fields : list TeableField.t) (records : list TeableRecord.t) :
  (forall f, In f (TeableApi.findAllPotentialGeometryFields extractCoordinates fields None)
             <-> In f fields /\ looksGeometric f = true)
  /\ TeableApi.findAllPotentialGeometryFields extractCoordinates fields (Some [])
     = TeableApi.findAllPotentialGeometryFields extractCoordinates fields None
  /\ (forall f, In f (TeableApi.findAllPotentialGeometryFields extractCoordinates fields None) ->
        In f (TeableApi.findAllPotentialGeometryFields extractCoordinates fields
                (Some records)))
  /\ TeableApi.findAllPotentialGeometryFields extractCoordinates fields (Some records)
     = TeableApi.findAllPotentialGeometryFields extractCoordinates fields
         (Some (firstn 5 records))
  /\ (forall f, In f (TeableApi.findAllPotentialGeometryFields extractCoordinates fields
                        (Some records)) ->
        In f fields
        /\ (looksGeometric f = true
            \/ exists r value,
                 In r (firstn 5 records)
                 /\ Text.own (TeableField.id f) (TeableRecord.fields r) = Some value
                 /\ extractCoordinates value = true)).
Proof.
  unfold TeableApi.findAllPotentialGeometryFields, looksGeometric.
  split; [|split; [|split; [|split]]].
  - intros f. rewrite filter_In. simpl. now rewrite orb_false_r.
  - reflexivity.
  - intros f. rewrite !filter_In. simpl. rewrite orb_false_r.
    intros [Hin Hg]. split; trivial. now rewrite Hg.
  - apply filter_ext. intros f. f_equal. unfold TeableApi.hasCoordinateData.
    rewrite firstn_firstn. simpl Nat.min.
    destruct records as [|r rest]; reflexivity.
  - intros f. rewrite filter_In. intros [Hin Hk]. split; trivial.
    apply orb_true_iff in Hk. destruct Hk as [Hk|Hk]; [now left|]. right.
    unfold TeableApi.hasCoordinateData in Hk.
    destruct (Nat.ltb 0 (List.length records)); [|discriminate].
    apply existsb_exists in Hk. destruct Hk as [r [Hr Hs]].
    unfold TeableApi.sampleHasCoordinates in Hs.
    destruct (Text.own (TeableField.id f) (TeableRecord.fields r)) as [value|] eqn:E;
      [|discriminate].
    now exists r, value.
Qed.

Lemma potential_geometry_fields_witness :
  In (teableField "fld3" "Where" "GeoPoint")
     (TeableApi.findAllPotentialGeometryFields (fun _ => false) sampleFields
        (Some [emptyRecord])).
Proof.
  apply (proj1 (proj2 (proj2 (potential_geometry_fields (fun _ => false) sampleFields
                                [emptyRecord])))).
  vm_compute. auto.
Defined.

Module SubmitFacts.
Import Remote.

Lemma find_insert_other v t j : j <> id v -> find j (insert v t) = find j t.
Proof.
  intros Hne. unfold find, insert. induction t as [|r rest IH]; simpl.
  - destruct (String.eqb_spec (id v) j); congruence.
  - now rewrite IH.
Qed.

Lemma find_insert_fresh v t : ~ In (id v) (ids t) -> find (id v) (insert v t) = Some v.
Proof.
  unfold find, insert. induction t as [|r rest IH]; simpl; intros Hnotin.
  - now rewrite String.eqb_refl.
  - destruct (String.eqb_spec (id r) (id v)) as [E|Hne]; [tauto|]. apply IH. tauto.
Qed.

Lemma wf_insert v t : wf t -> ~ In (id v) (ids t) -> wf (insert v t).
Proof.
  unfold wf, insert, ids. intros Hnd Hnotin. rewrite map_app. simpl.
  apply NoDup_app; [trivial | repeat constructor; intros [] |].
  intros x Hx [<-|[]]. tauto.
Qed.

End SubmitFacts.

(** X23.  [handleSubmit] sends a submission to exactly one place.  Offline,
    the remote table is untouched and the queue holds, under the generated
    identifier, a fresh record with the answers, while the records under
    other identifiers stay.  Online with the insert refused, nothing changes
    at all: the submission is not queued for a later pass and the draft
    stays.  Online with the insert accepted under an unused identifier, the
    queue is untouched, the new row carries the answers (with the Teable
    columns as the push left them), the other rows stay and the identifiers
    stay unique. *)
Theorem handleSubmit_routes_submission
        (formId : string) (userId : option string) (values : JS.Json)
        (submissionId : string) (now : Z) (teable : Teable.Outcome)
        (db : Offline.DB) (remote : Remote.table) :
  (forall answer,
     let out := Collect.handleSubmit false formId userId values submissionId now
                  answer teable db remote in
     fst (fst out) = Collect.Queued
     /\ snd out = remote
     /\ IDB.get submissionId (Offline.submissions (snd (fst out)))
        = Some {| Submission.id := submissionId;
                  Submission.formId := formId;
                  Submission.userId := userId;
                  Submission.data := values;
                  Submission.createdAt := now;
                  Submission.synced := false;
                  Submission.syncAttempts := 0;
                  Submission.lastSyncError := None |}
     /\ forall k, k <> submissionId ->
          IDB.get k (Offline.submissions (snd (fst out)))
          = IDB.get k (Offline.submissions db))
  /\ (forall e,
        Collect.handleSubmit true formId userId values submissionId now
          (Collect.InsertRefused e) teable db remote
        = (Collect.Failed (JS.message e), db, remote))
  /\ (forall serverId createdAt,
        ~ In serverId (Remote.ids remote) ->
        let out := Collect.handleSubmit true formId userId values submissionId now
                     (Collect.Inserted serverId createdAt) teable db remote in
        fst (fst out) = Collect.Saved
        /\ Offline.submissions (snd (fst out)) = Offline.submissions db
        /\ Remote.find serverId (snd out)
           = Some (pushed teable (insertedRow serverId formId userId values createdAt))
        /\ (forall j, j <> serverId -> Remote.find j (snd out) = Remote.find j remote)
        /\ List.length (snd out) = S (List.length remote)
        /\ (Remote.wf remote -> Remote.wf (snd out))).
Proof.
  split; [|split].
  - intros answer. cbn. split; [reflexivity|]. split; [reflexivity|]. split.
    + apply IDBFacts.get_insert_same.
    + intros k Hne. now apply IDBFacts.get_insert_other.
  - reflexivity.
  - intros serverId createdAt Hfresh. cbv zeta.
    unfold Collect.handleSubmit.
    fold (insertedRow serverId formId userId values createdAt).
    set (row := insertedRow serverId formId userId values createdAt).
    destruct (Teable.syncSubmissionToTeable teable serverId (Remote.insert row remote))
      as [p remote'] eqn:E.
    assert (Er : remote' = snd (Teable.syncSubmissionToTeable teable serverId
                                  (Remote.insert row remote))) by now rewrite E.
    cbn [fst snd]. split; [reflexivity|]. split; [reflexivity|].
    rewrite Er. split; [|split; [|split]].
    + rewrite TableFacts.find_push_same.
      change serverId with (Remote.id row) at 1.
      rewrite SubmitFacts.find_insert_fresh by exact Hfresh. reflexivity.
    + intros j Hne. rewrite TableFacts.find_push_other by exact Hne.
      now apply SubmitFacts.find_insert_other.
    + rewrite PushFacts.length_push. unfold Remote.insert.
      rewrite length_app. simpl. lia.
    + intros Hwf. unfold Remote.wf. rewrite RemoteFacts.ids_syncSubmissionToTeable.
      now apply SubmitFacts.wf_insert.
Qed.

Lemma handleSubmit_routes_submission_witness :
  Remote.find "srv_1"
    (snd (Collect.handleSubmit true "f1" None (JS.JObj []) "sub_1" 100
            (Collect.Inserted "srv_1" 120) Teable.NotConfigured
            queueWithAda [otherRow]))
  = Some (insertedRow "srv_1" "f1" None (JS.JObj []) 120).
Proof.
  assert (Hfresh : ~ In "srv_1" (Remote.ids [otherRow])).
  { simpl. intros [H|[]]. discriminate. }
  exact (proj1 (proj2 (proj2
           (proj2 (proj2 (handleSubmit_routes_submission "f1" None (JS.JObj [])
                            "sub_1" 100 Teable.NotConfigured queueWithAda [otherRow]))
              "srv_1" 120%Z Hfresh)))).
Defined.

(** X24.  [updateSubmissionSyncError] raises the attempt counter of the
    record stored under the identifier by one and stores the message as its
    last error, leaving its other fields, the other records, the number of
    records and the drafts as they were; two failures raise the counter by
    two and keep the later message; when no record is stored under the
    identifier the database is left as it is. *)
Theorem updateSubmissionSyncError_counts_failure (i error error' : string)
        (db : Offline.DB) :
  Offline.wf db ->
  (forall s, IDB.get i (Offline.submissions db) = Some s ->
     IDB.get i (Offline.submissions (Offline.updateSubmissionSyncError i error db))
     = Some {| Submission.id := Submission.id s;
               Submission.formId := Submission.formId s;
               Submission.userId := Submission.userId s;
               Submission.data := Submission.data s;
               Submission.createdAt := Submission.createdAt s;
               Submission.synced := Submission.synced s;
               Submission.syncAttempts := Submission.syncAttempts s + 1;
               Submission.lastSyncError := Some error |}
     /\ IDB.get i
          (Offline.submissions
             (Offline.updateSubmissionSyncError i error'
                (Offline.updateSubmissionSyncError i error db)))
        = Some {| Submission.id := Submission.id s;
                  Submission.formId := Submission.formId s;
                  Submission.userId := Submission.userId s;
                  Submission.data := Submission.data s;
                  Submission.createdAt := Submission.createdAt s;
                  Submission.synced := Submission.synced s;
                  Submission.syncAttempts := Submission.syncAttempts s + 2;
                  Submission.lastSyncError := Some error' |})
  /\ (IDB.get i (Offline.submissions db) = None ->
      Offline.updateSubmissionSyncError i error db = db)
  /\ (forall k, k <> i ->
        IDB.get k (Offline.submissions (Offline.updateSubmissionSyncError i error db))
        = IDB.get k (Offline.submissions db))
  /\ Offline.queueLength (Offline.updateSubmissionSyncError i error db)
     = Offline.queueLength db
  /\ Offline.formProgress (Offline.updateSubmissionSyncError i error db)
     = Offline.formProgress db
  /\ Offline.wf (Offline.updateSubmissionSyncError i error db).
Proof.
  intros Hwf. split; [|split; [|split; [|split; [|split]]]].
  - intros s E.
    pose proof (@OfflineFacts.get_updateSubmissionSyncError_same i error s db Hwf E)
      as H1.
    split; [exact H1|].
    rewrite (@OfflineFacts.get_updateSubmissionSyncError_same i error' _ _
               (@OfflineFacts.wf_updateSubmissionSyncError i error db Hwf) H1).
    unfold Offline.failedOnce. simpl. do 2 f_equal. lia.
  - intros E. unfold Offline.updateSubmissionSyncError. now rewrite E.
  - intros k Hk. now apply OfflineFacts.get_updateSubmissionSyncError_other.
  - now apply QueueFacts.length_updateSubmissionSyncError.
  - unfold Offline.updateSubmissionSyncError.
    now destruct (IDB.get i (Offline.submissions db)).
  - now apply OfflineFacts.wf_updateSubmissionSyncError.
Qed.

Lemma updateSubmissionSyncError_counts_failure_witness :
  IDB.get "sub_1"
    (Offline.submissions (Offline.updateSubmissionSyncError "sub_1" "timeout" queueWithAda))
  = Some (withBookkeeping false 1 (Some "timeout") queuedAda).
Proof.
  exact (proj1 (proj1
    (@updateSubmissionSyncError_counts_failure "sub_1" "timeout" "again" queueWithAda
       (@OfflineFacts.wf_queueSubmission 100 rowAda Offline.emptyDB
          OfflineFacts.wf_emptyDB))
    queuedAda eq_refl)).
Defined.
